(** * extract_nc_tenders: a shallow embedding of the tender extractor

    The program scrapes listing pages, follows the links that look like
    tender notices, reads a few fields off every detail page and stores a
    record with a content hash.  This file embeds
    [src/extract_nc_tenders.py] function by function and proves what the
    specification says about it.

    Text.  A Python [str] is modelled by [string]; a character is an
    [ascii] read as the code point of the same number, so the texts of
    the model are the Python strings whose code points are below 256
    (ISO-8859-1, which holds the French letters the program looks for).
    The character classes of [str] and [re] below are the ones CPython
    uses on that range.  The content hash, which is about any text, is
    embedded a second time on the lists of code points ([Unicode]).

    Libraries.  What the program calls but does not define (hashlib,
    requests, BeautifulSoup, urllib, dateutil) enters the program
    definitions as a parameter.  Models of [re], [dateutil.parser] and
    [urllib.parse] follow further down; they are used for the closed
    statements on concrete inputs. *)

From Stdlib Require Import String Ascii List ZArith NArith Bool Lia.
From Stdlib Require Import Permutation Sorted Eqdep_dec.
Import ListNotations.

Local Open Scope string_scope.
Local Open Scope bool_scope.
Local Open Scope list_scope.

(** ** Python's [str] on code points below 256 *)

Module Str.

Definition code (c : ascii) : N := N_of_ascii c.

Definition between (lo hi n : N) : bool := ((lo <=? n) && (n <=? hi))%N.

(** [str.isspace], also the class [\s] of [re]. *)
Definition isspace_code (n : N) : bool :=
  between 9 13 n || between 28 32 n || (n =? 133)%N || (n =? 160)%N.

Definition isspace (c : ascii) : bool := isspace_code (code c).

(** [str.isdecimal], also the class [\d] of [re]. *)
Definition isdecimal_code (n : N) : bool := between 48 57 n.

Definition isdecimal (c : ascii) : bool := isdecimal_code (code c).

(** [str.isdigit]: the decimal digits and the superscripts 1, 2, 3. *)
Definition isdigit (c : ascii) : bool :=
  isdecimal c || between 178 179 (code c) || (code c =? 185)%N.

(** [str.isalpha]. *)
Definition isalpha_code (n : N) : bool :=
  between 65 90 n || between 97 122 n
  || (n =? 170)%N || (n =? 181)%N || (n =? 186)%N
  || between 192 214 n || between 216 246 n || between 248 255 n.

Definition isalpha (c : ascii) : bool := isalpha_code (code c).

(** [str.isalnum]; with the underscore it is the class [\w] of [re]. *)
Definition isalnum_code (n : N) : bool :=
  isalpha_code n || isdecimal_code n
  || between 178 179 n || (n =? 185)%N || between 188 190 n.

(** [str.lower] on one code point. *)
Definition lower_code (n : N) : N :=
  if between 65 90 n || (between 192 222 n && negb (n =? 215)%N)
  then (n + 32)%N else n.

(** The simple upper-case mapping, as [re] applies it under IGNORECASE. *)
Definition upper_code (n : N) : N :=
  if between 97 122 n || (between 224 254 n && negb (n =? 247)%N)
  then (n - 32)%N
  else if (n =? 255)%N then 376%N
  else if (n =? 181)%N then 924%N
  else n.

Definition lower_char (c : ascii) : ascii := ascii_of_N (lower_code (code c)).

Fixpoint lower (s : string) : string :=
  match s with
  | EmptyString => EmptyString
  | String c s' => String (lower_char c) (lower s')
  end.

Fixpoint lstrip (s : string) : string :=
  match s with
  | EmptyString => EmptyString
  | String c s' => if isspace c then lstrip s' else s
  end.

Fixpoint rstrip (s : string) : string :=
  match s with
  | EmptyString => EmptyString
  | String c s' =>
      match rstrip s' with
      | EmptyString => if isspace c then EmptyString else String c EmptyString
      | r => String c r
      end
  end.

(** [s.strip()] *)
Definition strip (s : string) : string := rstrip (lstrip s).

(** [s.startswith(p)] *)
Definition startswith (s p : string) : bool := String.prefix p s.

(** [sub in s] *)
Fixpoint contains (sub s : string) : bool :=
  String.prefix sub s ||
  match s with
  | EmptyString => false
  | String _ s' => contains sub s'
  end.

(** [s.endswith(p)] *)
Fixpoint endswith (s p : string) : bool :=
  (s =? p) ||
  match s with
  | EmptyString => false
  | String _ s' => endswith s' p
  end.

(** Truth value of a string: the empty string is false. *)
Definition truthy (s : string) : bool :=
  match s with EmptyString => false | _ => true end.

(** [p or ""] for an optional string. *)
Definition or_empty (p : option string) : string :=
  match p with Some s => s | None => EmptyString end.

(** [p or d]: [d] when [p] is [None] or empty. *)
Definition or_default (p : option string) (d : string) : string :=
  match p with
  | Some s => if truthy s then s else d
  | None => d
  end.

(** [s[:n]] *)
Definition take (n : nat) (s : string) : string := String.substring 0 n s.

End Str.

(** ** hashlib and the content hash *)

(** [s.encode("utf-8", errors="ignore")] on the strings of the model.
    Below 256 every code point has an encoding, of one byte below 128
    and two bytes from 128 on; what [errors="ignore"] drops are the
    surrogates, which [Unicode.encode_utf8] further down accounts for. *)
Definition byte_of_code (n : N) : Byte.byte := byte_of_ascii (ascii_of_N n).

Definition utf8_char (c : ascii) : list Byte.byte :=
  let n := Str.code c in
  if (n <? 128)%N then [byte_of_code n]
  else [byte_of_code (192 + n / 64); byte_of_code (128 + n mod 64)].

Fixpoint encode_utf8 (s : string) : list Byte.byte :=
  match s with
  | EmptyString => []
  | String c s' => utf8_char c ++ encode_utf8 s'
  end.

(** [b"|"] *)
Definition sep_byte : Byte.byte := byte_of_code 124.

(** A [hashlib.sha256()] object is the bytes it was fed so far; the digest
    function itself is a parameter of the model. *)
Definition sha256_state := list Byte.byte.

Definition sha256_new : sha256_state := [].

Definition sha256_update (h : sha256_state) (data : list Byte.byte) : sha256_state :=
  h ++ data.

Section StableHash.

Variable sha256_hexdigest : list Byte.byte -> string.

(** One turn of the loop of [stable_hash]: two [update] calls. *)
Definition stable_hash_step (h : sha256_state) (p : option string) : sha256_state :=
  sha256_update
    (sha256_update h (encode_utf8 (Str.strip (Str.or_empty p))))
    [sep_byte].

Definition stable_hash (parts : list (option string)) : string :=
  sha256_hexdigest (fold_left stable_hash_step parts sha256_new).

(** The row handed to the [appels_offres] table. *)
Record appel_rec := {
  rec_url_source_id : string;
  rec_detail_url : string;
  rec_titre : string;
  rec_organisme : option string;
  rec_reference : option string;
  rec_date_publication : option string;
  rec_date_limite : option string;
  rec_statut : string;
  rec_extrait : option string;
  rec_content_hash : string
}.

(** [upsert_appel] up to the call of the store: the row it builds.  The
    identifier the store answers with is outside the model. *)
Definition upsert_appel (url_source_id detail_url titre : string)
    (organisme reference date_publication date_limite : option string)
    (statut : string) (extrait : option string) : appel_rec :=
  let chash :=
    stable_hash [Some titre; organisme; Some detail_url;
                 date_publication; date_limite; extrait] in
  {| rec_url_source_id := url_source_id;
     rec_detail_url := detail_url;
     rec_titre := Str.or_default (Some titre) "(Sans titre)";
     rec_organisme := organisme;
     rec_reference := reference;
     rec_date_publication := date_publication;
     rec_date_limite := date_limite;
     rec_statut := statut;
     rec_extrait := extrait;
     rec_content_hash := chash |}.

(** The fingerprint of the six fields, as [upsert_appel] computes it. *)
Definition fingerprint (title organization detail_url publication_date
    deadline_date excerpt : option string) : string :=
  stable_hash [title; organization; detail_url; publication_date;
               deadline_date; excerpt].

End StableHash.

(** What [stable_hash] feeds to the hash, written without the loop. *)
Definition field_bytes (p : option string) : list Byte.byte :=
  encode_utf8 (Str.strip (Str.or_empty p)) ++ [sep_byte].

Definition hash_input (parts : list (option string)) : list Byte.byte :=
  concat (map field_bytes parts).

(** The trimmed string form of a field. *)
Definition trimmed (p : option string) : string := Str.strip (Str.or_empty p).

(** ** The content hash on every Python string

    [stable_hash] takes any [str], and two of its steps look at code
    points beyond 255: [strip] removes the white space of Unicode, and
    [encode] with [errors="ignore"] leaves out the surrogates, which
    have no UTF-8 encoding.  Here a string is the list of its code
    points, and [stable_hash] is embedded once more on such strings;
    [Unicode.of_string] places the strings of the model among them. *)

Module Unicode.

Local Open Scope N_scope.

Definition str := list N.

(** The code points of Python go up to 0x10FFFF. *)
Definition is_code_point (n : N) : bool := n <? 1114112.

Definition well_formed (p : option str) : bool :=
  match p with
  | None => true
  | Some s => forallb is_code_point s
  end.

(** U+D800 to U+DFFF. *)
Definition is_surrogate (n : N) : bool := Str.between 55296 57343 n.

(** [str.isspace] on every code point. *)
Definition isspace_code (n : N) : bool :=
  Str.isspace_code n || (n =? 5760) || Str.between 8192 8202 n
  || Str.between 8232 8233 n || (n =? 8239) || (n =? 8287) || (n =? 12288).

Fixpoint lstrip (s : str) : str :=
  match s with
  | [] => []
  | n :: s' => if isspace_code n then lstrip s' else s
  end.

Fixpoint rstrip (s : str) : str :=
  match s with
  | [] => []
  | n :: s' =>
      match rstrip s' with
      | [] => if isspace_code n then [] else [n]
      | r => n :: r
      end
  end.

(** [s.strip()] *)
Definition strip (s : str) : str := rstrip (lstrip s).

(** [p or ""] *)
Definition or_empty (p : option str) : str :=
  match p with Some s => s | None => [] end.

(** The UTF-8 bytes of one code point; none for a surrogate, which
    [errors="ignore"] drops. *)
Definition utf8_point (n : N) : list Byte.byte :=
  if n <? 128 then [byte_of_code n]
  else if n <? 2048 then
    [byte_of_code (192 + n / 64); byte_of_code (128 + n mod 64)]
  else if is_surrogate n then []
  else if n <? 65536 then
    [byte_of_code (224 + n / 4096); byte_of_code (128 + (n / 64) mod 64);
     byte_of_code (128 + n mod 64)]
  else
    [byte_of_code (240 + n / 262144); byte_of_code (128 + (n / 4096) mod 64);
     byte_of_code (128 + (n / 64) mod 64); byte_of_code (128 + n mod 64)].

(** [s.encode("utf-8", errors="ignore")] *)
Fixpoint encode_utf8 (s : str) : list Byte.byte :=
  match s with
  | [] => []
  | n :: s' => utf8_point n ++ encode_utf8 s'
  end.

Section StableHash.

Variable sha256_hexdigest : list Byte.byte -> string.

(** One turn of the loop of [stable_hash]: two [update] calls. *)
Definition stable_hash_step (h : sha256_state) (p : option str) : sha256_state :=
  sha256_update
    (sha256_update h (encode_utf8 (strip (or_empty p))))
    [sep_byte].

Definition stable_hash (parts : list (option str)) : string :=
  sha256_hexdigest (fold_left stable_hash_step parts sha256_new).

(** The fingerprint of the six fields, as [upsert_appel] computes it. *)
Definition fingerprint (title organization detail_url publication_date
    deadline_date excerpt : option str) : string :=
  stable_hash [title; organization; detail_url; publication_date;
               deadline_date; excerpt].

End StableHash.

(** What [stable_hash] feeds to the hash, written without the loop. *)
Definition hash_input (parts : list (option str)) : list Byte.byte :=
  concat (map (fun p => encode_utf8 (strip (or_empty p)) ++ [sep_byte]) parts).

(** The hashed form of a field: its string form, absent counting as
    empty, trimmed, without the surrogates. *)
Definition hashed (p : option str) : str :=
  filter (fun n => negb (is_surrogate n)) (strip (or_empty p)).

(** No ["|"] in a string. *)
Definition sep_free (s : str) : bool := forallb (fun n => negb (n =? 124)) s.

(** Two lists of fields that every hash function sends to one digest. *)
Definition same_digest (ps qs : list (option str)) : Prop :=
  forall H : list Byte.byte -> string, stable_hash H ps = stable_hash H qs.

(** A string of the model as a list of code points. *)
Fixpoint of_string (s : string) : str :=
  match s with
  | EmptyString => []
  | String c s' => Str.code c :: of_string s'
  end.

Definition of_field (p : option string) : option str := option_map of_string p.

(** The value of a byte, and reading one code point back from its
    encoding. *)
Definition byte_value (b : Byte.byte) : N := Str.code (ascii_of_byte b).

Definition decode_point (l : list Byte.byte) : option (N * list Byte.byte) :=
  match l with
  | [] => None
  | b1 :: r1 =>
      let n1 := byte_value b1 in
      if n1 <? 128 then Some (n1, r1)
      else
        match r1 with
        | [] => None
        | b2 :: r2 =>
            let n2 := byte_value b2 in
            if n1 <? 224 then Some ((n1 - 192) * 64 + (n2 - 128), r2)
            else
              match r2 with
              | [] => None
              | b3 :: r3 =>
                  let n3 := byte_value b3 in
                  if n1 <? 240
                  then Some ((n1 - 224) * 4096 + (n2 - 128) * 64 + (n3 - 128), r3)
                  else
                    match r3 with
                    | [] => None
                    | b4 :: r4 =>
                        let n4 := byte_value b4 in
                        Some ((n1 - 240) * 262144 + (n2 - 128) * 4096
                              + (n3 - 128) * 64 + (n4 - 128), r4)
                    end
              end
        end
  end.

(** The fields in one string, each in its hashed form and followed by
    ["|"]. *)
Definition joined (hs : list str) : str :=
  concat (map (fun h => h ++ [124]) hs).

(** The number of separators in a string. *)
Definition seps (s : str) : nat := count_occ N.eq_dec s 124.

(** A code point that has an encoding. *)
Definition encodable (n : N) : bool := is_code_point n && negb (is_surrogate n).

End Unicode.

(** ** datetime.date *)

Module Datetime.

Local Open Scope Z_scope.

Definition is_leap (y : Z) : bool :=
  (y mod 4 =? 0) && (negb (y mod 100 =? 0) || (y mod 400 =? 0)).

(** [calendar.monthrange(y, m)[1]] for a month between 1 and 12. *)
Definition days_in_month (y m : Z) : Z :=
  if m =? 2 then (if is_leap y then 29 else 28)
  else if (m =? 4) || (m =? 6) || (m =? 9) || (m =? 11) then 30
  else 31.

(** The triples [datetime.date] accepts; any other raises [ValueError]. *)
Definition valid_ymd (y m d : Z) : bool :=
  (1 <=? y) && (y <=? 9999) && (1 <=? m) && (m <=? 12)
  && (1 <=? d) && (d <=? days_in_month y m).

(** A [date] object: the three numbers, and that they name a day. *)
Record date := mkdate {
  year : Z;
  month : Z;
  day : Z;
  date_ok : valid_ymd year month day = true
}.

(** [date(y, m, d)], [None] for the [ValueError]. *)
Definition make_date_if (y m d : Z) (b : bool) : valid_ymd y m d = b -> option date :=
  if b as b' return (valid_ymd y m d = b' -> option date)
  then fun H => Some (mkdate y m d H)
  else fun _ => None.

Definition make_date (y m d : Z) : option date :=
  make_date_if y m d (valid_ymd y m d) eq_refl.

(** [a <= b] on dates. *)
Definition date_leb (a b : date) : bool :=
  (year a <? year b)
  || ((year a =? year b)
      && ((month a <? month b)
          || ((month a =? month b) && (day a <=? day b)))).

(** The order of the triples, as a three-way comparison. *)
Definition date_compare (a b : date) : comparison :=
  match year a ?= year b with
  | Eq => match month a ?= month b with
          | Eq => day a ?= day b
          | c => c
          end
  | c => c
  end.

Definition digit_char (n : Z) : ascii := ascii_of_N (48 + Z.to_N n).

(** ["%02d"] and ["%04d"] on the numbers of a date. *)
Definition pad2 (n : Z) : string :=
  String (digit_char (n / 10 mod 10)) (String (digit_char (n mod 10)) EmptyString).

Definition pad4 (n : Z) : string :=
  String (digit_char (n / 1000 mod 10))
    (String (digit_char (n / 100 mod 10)) (pad2 n)).

(** [d.isoformat()] *)
Definition isoformat (d : date) : string :=
  (pad4 (year d) ++ "-" ++ pad2 (month d) ++ "-" ++ pad2 (day d))%string.

Definition digit_val (c : ascii) : option Z :=
  if Str.isdecimal c then Some (Z.of_N (Str.code c) - 48) else None.

Definition number2 (a b : ascii) : option Z :=
  match digit_val a, digit_val b with
  | Some x, Some y => Some (10 * x + y)
  | _, _ => None
  end.

Definition number4 (a b c d : ascii) : option Z :=
  match number2 a b, number2 c d with
  | Some x, Some y => Some (100 * x + y)
  | _, _ => None
  end.

(** [date.fromisoformat(s)] on the form [YYYY-MM-DD], the one [isoformat]
    writes; [None] stands for the [ValueError]. *)
Definition fromisoformat (s : string) : option date :=
  match s with
  | String y1 (String y2 (String y3 (String y4 (String h1
      (String m1 (String m2 (String h2 (String d1 (String d2 EmptyString))))))))) =>
      if (Str.code h1 =? 45)%N && (Str.code h2 =? 45)%N then
        match number4 y1 y2 y3 y4, number2 m1 m2, number2 d1 d2 with
        | Some y, Some m, Some d => make_date y m d
        | _, _, _ => None
        end
      else None
  | _ => None
  end.

End Datetime.

(** ** requests: the fetch collaborator *)

(** What the program reads of a [requests.Response]. *)
Record response := {
  status_code : Z;
  content_type : option string;   (* r.headers.get("Content-Type") *)
  text : string                   (* r.text *)
}.

(** One call of [session.get]: it raises, or it answers. *)
Inductive get_outcome :=
| Raised
| Answered (r : response).

(** The loop of [safe_get]: [n] attempts are left, numbered from [attempt];
    [get k] is what the [k]-th call of [session.get] on the URL does. *)
Fixpoint safe_get_loop (get : nat -> get_outcome) (attempt n : nat) : option response :=
  match n with
  | O => None
  | S n' =>
      match get attempt with
      | Answered r =>
          if (status_code r =? 200)%Z then Some r
          else safe_get_loop get (S attempt) n'
      | Raised => safe_get_loop get (S attempt) n'
      end
  end.

Definition safe_get (get : nat -> get_outcome) (retries : nat) : option response :=
  safe_get_loop get 0 (retries + 1).

(** An attempt that [safe_get] does not return: it raised, or the status
    is not 200. *)
Definition attempt_fails (o : get_outcome) : Prop :=
  match o with
  | Raised => True
  | Answered r => status_code r <> 200%Z
  end.

(** The default of [safe_get]: [retries=2]. *)
Definition default_retries : nat := 2.

(** ** re: a backtracking matcher

    The patterns of the program are written as terms of [node]; [run]
    explores them in the order CPython's engine does (first alternative
    first, greedy repetitions longest first), so that [search] and
    [findall] pick the same match.  Repeated sub-patterns of the program
    always consume a character; a turn of a repetition that consumes
    nothing is not repeated. *)

Module Re.

(** A member of a character class. *)
Inductive item :=
| Chr (n : N)            (* one code point *)
| Rng (lo hi : N)        (* lo-hi *)
| Digit                  (* \d *)
| Space.                 (* \s *)

Inductive node :=
| Empty
| Lit (n : N)                                   (* a literal character *)
| Class (negate : bool) (items : list item)     (* [...] and [^...] *)
| Boundary                                      (* \b *)
| Cat (a b : node)
| Alt (a b : node)                              (* a|b *)
| Repeat (lo : nat) (hi : option nat) (a : node)  (* a{lo,hi}, greedy *)
| Group (n : nat) (a : node).                   (* the n-th capturing group *)

Definition item_has (i : item) (n : N) : bool :=
  match i with
  | Chr c => (n =? c)%N
  | Rng lo hi => Str.between lo hi n
  | Digit => Str.isdecimal_code n
  | Space => Str.isspace_code n
  end.

Definition class_has (items : list item) (n : N) : bool :=
  existsb (fun i => item_has i n) items.

(** One character against a literal; with [ic] (IGNORECASE) both are
    lowered first. *)
Definition lit_matches (ic : bool) (p : N) (c : ascii) : bool :=
  if ic then (Str.lower_code (Str.code c) =? Str.lower_code p)%N
  else (Str.code c =? p)%N.

(** One character against a class; with [ic] the lowered character and its
    upper-case partner are both looked up. *)
Definition class_matches (ic negate : bool) (items : list item) (c : ascii) : bool :=
  let n := Str.code c in
  xorb negate
    (if ic
     then class_has items (Str.lower_code n)
          || class_has items (Str.upper_code (Str.lower_code n))
     else class_has items n).

(** Where the matcher stands: the character just before, the text still
    to read, and the groups closed so far (latest first). *)
Record mstate := {
  before : option ascii;
  rest : string;
  groups : list (nat * string)
}.

Definition is_word (c : option ascii) : bool :=
  match c with
  | None => false
  | Some c => Str.isalnum_code (Str.code c) || (Str.code c =? 95)%N
  end.

Definition next_char (st : mstate) : option ascii :=
  match rest st with
  | EmptyString => None
  | String c _ => Some c
  end.

Definition at_boundary (st : mstate) : bool :=
  xorb (is_word (before st)) (is_word (next_char st)).

(** Read one character when [ok] accepts it. *)
Definition eat (ok : ascii -> bool) (st : mstate) (k : mstate -> option mstate) : option mstate :=
  match rest st with
  | EmptyString => None
  | String c s' =>
      if ok c then k {| before := Some c; rest := s'; groups := groups st |}
      else None
  end.

Definition close_group (n : nat) (opened closed : mstate) : mstate :=
  {| before := before closed;
     rest := rest closed;
     groups := (n, Str.take (String.length (rest opened) - String.length (rest closed))
                            (rest opened)) :: groups closed |}.

Definition below (n : nat) (hi : option nat) : bool :=
  match hi with
  | None => true
  | Some h => Nat.ltb n h
  end.

(** The turns of a greedy repetition [a{lo,hi}], [n] of them done: one
    more turn of [a] (given as its matcher [ma]) is tried first, then the
    rest of the pattern [k].  [fuel] bounds the turns by the characters
    left, since every turn has to consume one. *)
Fixpoint repeat_loop (ma : mstate -> (mstate -> option mstate) -> option mstate)
    (lo : nat) (hi : option nat) (k : mstate -> option mstate)
    (fuel n : nat) (st : mstate) {struct fuel} : option mstate :=
  let stop := if Nat.leb lo n then k st else None in
  match fuel with
  | O => stop
  | S fuel' =>
      if below n hi then
        match ma st
                (fun st' =>
                   if Nat.ltb (String.length (rest st')) (String.length (rest st))
                   then repeat_loop ma lo hi k fuel' (S n) st' else None) with
        | Some out => Some out
        | None => stop
        end
      else stop
  end.

(** [run ic r st k]: match [r] at [st], then go on with [k]; the first
    way that makes [k] succeed wins. *)
Fixpoint run (ic : bool) (r : node) (st : mstate)
    (k : mstate -> option mstate) {struct r} : option mstate :=
  match r with
  | Empty => k st
  | Lit p => eat (lit_matches ic p) st k
  | Class negate items => eat (class_matches ic negate items) st k
  | Boundary => if at_boundary st then k st else None
  | Cat a b => run ic a st (fun st' => run ic b st' k)
  | Alt a b =>
      match run ic a st k with
      | Some out => Some out
      | None => run ic b st k
      end
  | Repeat lo hi a => repeat_loop (run ic a) lo hi k (String.length (rest st)) O st
  | Group n a => run ic a st (fun st' => k (close_group n st st'))
  end.

(** A match object: where it starts, [group(0)], the groups, and what
    follows the match. *)
Record rmatch := {
  m_start : nat;
  m_text : string;
  m_groups : list (nat * string);
  m_before_rest : option ascii;
  m_rest : string
}.

Fixpoint lookup_group (n : nat) (gs : list (nat * string)) : option string :=
  match gs with
  | [] => None
  | (i, s) :: gs' => if Nat.eqb i n then Some s else lookup_group n gs'
  end.

(** [m.group(n)] for a group that took part in the match. *)
Definition group (n : nat) (m : rmatch) : string :=
  match lookup_group n (m_groups m) with
  | Some s => s
  | None => EmptyString
  end.

Definition match_at (ic : bool) (r : node) (prev : option ascii) (s : string)
    (pos : nat) : option rmatch :=
  match run ic r {| before := prev; rest := s; groups := [] |} Some with
  | Some st =>
      Some {| m_start := pos;
              m_text := Str.take (String.length s - String.length (rest st)) s;
              m_groups := groups st;
              m_before_rest := before st;
              m_rest := rest st |}
  | None => None
  end.

(** The leftmost match in [s], which stands at offset [pos] after [prev]. *)
Fixpoint search_from (ic : bool) (r : node) (prev : option ascii) (s : string)
    (pos : nat) : option rmatch :=
  match match_at ic r prev s pos with
  | Some m => Some m
  | None =>
      match s with
      | EmptyString => None
      | String c s' => search_from ic r (Some c) s' (S pos)
      end
  end.

(** [re.search(r, s)] *)
Definition search (ic : bool) (r : node) (s : string) : option rmatch :=
  search_from ic r None s 0.

(** The matches one after the other, each search starting where the last
    match ended (one character further after an empty match). *)
Fixpoint finditer_from (fuel : nat) (ic : bool) (r : node) (prev : option ascii)
    (s : string) (pos : nat) : list rmatch :=
  match fuel with
  | O => []
  | S fuel' =>
      match search_from ic r prev s pos with
      | None => []
      | Some m =>
          let after := m_start m + String.length (m_text m) in
          m :: match m_text m, m_rest m with
               | EmptyString, EmptyString => []
               | EmptyString, String c s' =>
                   finditer_from fuel' ic r (Some c) s' (S after)
               | _, _ => finditer_from fuel' ic r (m_before_rest m) (m_rest m) after
               end
      end
  end.

(** [re.findall(r, s)] for a pattern without capturing group. *)
Definition findall (ic : bool) (r : node) (s : string) : list string :=
  map m_text (finditer_from (S (String.length s)) ic r None s 0).

(** A literal string, character by character. *)
Fixpoint lits (s : string) : node :=
  match s with
  | EmptyString => Empty
  | String c s' => Cat (Lit (Str.code c)) (lits s')
  end.

Fixpoint seq (rs : list node) : node :=
  match rs with
  | [] => Empty
  | [r] => r
  | r :: rs' => Cat r (seq rs')
  end.

Fixpoint alt (rs : list node) : node :=
  match rs with
  | [] => Class false []
  | [r] => r
  | r :: rs' => Alt r (alt rs')
  end.

(** [Lang ic r s]: the string [s] as a whole has the form [r].  The word
    boundary, which looks around the match, counts as the empty string
    here. *)
Definition bounded (n : nat) (hi : option nat) : Prop :=
  match hi with
  | Some h => n <= h
  | None => True
  end.

Inductive Lang (ic : bool) : node -> string -> Prop :=
| L_Empty : Lang ic Empty EmptyString
| L_Lit : forall p c,
    lit_matches ic p c = true -> Lang ic (Lit p) (String c EmptyString)
| L_Class : forall negate items c,
    class_matches ic negate items c = true ->
    Lang ic (Class negate items) (String c EmptyString)
| L_Boundary : Lang ic Boundary EmptyString
| L_Cat : forall a b s1 s2,
    Lang ic a s1 -> Lang ic b s2 -> Lang ic (Cat a b) (s1 ++ s2)%string
| L_Alt_l : forall a b s, Lang ic a s -> Lang ic (Alt a b) s
| L_Alt_r : forall a b s, Lang ic b s -> Lang ic (Alt a b) s
| L_Repeat : forall lo hi a n s,
    lo <= n -> bounded n hi -> Times ic a n s -> Lang ic (Repeat lo hi a) s
| L_Group : forall n a s, Lang ic a s -> Lang ic (Group n a) s
with Times (ic : bool) : node -> nat -> string -> Prop :=
| T_zero : forall a, Times ic a 0 EmptyString
| T_more : forall a n s1 s2,
    Lang ic a s1 -> Times ic a n s2 -> Times ic a (S n) (s1 ++ s2)%string.

(** The text a group took, when the pattern is a group. *)
Definition captured (r : node) (s : string) (st' : mstate) : Prop :=
  match r with
  | Group n _ => lookup_group n (groups st') = Some s
  | _ => True
  end.

Definition sound (ic : bool) (r : node) : Prop :=
  forall st k out,
    run ic r st k = Some out ->
    exists s st',
      rest st = (s ++ rest st')%string /\ Lang ic r s /\ k st' = Some out
      /\ captured r s st'.

End Re.

(** ** The program: configuration and text helpers *)

Definition MAX_DETAIL_PER_SITE : nat := 200.

Definition LINK_KEYWORDS : list string :=
  ["appel"; "offre"; "march"; "consult"; "avis"; "soumission"; "aop"; "aops";
   "notice"; "detail"; "fiche"; "consultation"].

(** The words looked for in the path, line 138. *)
Definition PATH_WORDS : list string :=
  ["detail"; "avis"; "consult"; "offre"; "notice"; "fiche"].

(** [re.sub(r"\s+", " ", s)]: [in_run] says that the character before was
    white space already. *)
Fixpoint collapse_spaces (in_run : bool) (s : string) : string :=
  match s with
  | EmptyString => EmptyString
  | String c s' =>
      if Str.isspace c
      then (if in_run then collapse_spaces true s'
            else String " "%char (collapse_spaces true s'))
      else String c (collapse_spaces false s')
  end.

Definition clean_text (s : option string) : string :=
  match s with
  | None => EmptyString
  | Some s => if Str.truthy s then Str.strip (collapse_spaces false s) else EmptyString
  end.

Definition likely_offer_link (href text : string) : bool :=
  let l := (href ++ " " ++ text)%string in
  let l := Str.lower l in
  existsb (fun k => Str.contains k l) LINK_KEYWORDS.

(** ** The program: the patterns of the date extractor *)

(** [\d{lo,hi}] *)
Definition digits (lo hi : nat) : Re.node :=
  Re.Repeat lo (Some hi) (Re.Class false [Re.Digit]).

(** [\s+] *)
Definition spaces1 : Re.node := Re.Repeat 1 None (Re.Class false [Re.Space]).

(** [[\/\-\.\s]] *)
Definition date_sep : Re.node :=
  Re.Class false [Re.Chr 47; Re.Chr 45; Re.Chr 46; Re.Space].

(** [[\/\-]] *)
Definition iso_sep : Re.node := Re.Class false [Re.Chr 47; Re.Chr 45].

(** [[A-Za-zéûôàâîïùç]+] *)
Definition month_letters : list Re.item :=
  [Re.Rng 65 90; Re.Rng 97 122; Re.Chr 233; Re.Chr 251; Re.Chr 244; Re.Chr 224;
   Re.Chr 226; Re.Chr 238; Re.Chr 239; Re.Chr 249; Re.Chr 231].

Definition month_word : Re.node := Re.Repeat 1 None (Re.Class false month_letters).

(** [\d{1,2}[\/\-\.\s]\d{1,2}[\/\-\.\s]\d{2,4}] *)
Definition shape_dmy : Re.node :=
  Re.seq [digits 1 2; date_sep; digits 1 2; date_sep; digits 2 4].

(** [\d{4}[\/\-]\d{1,2}[\/\-]\d{1,2}] *)
Definition shape_ymd : Re.node :=
  Re.seq [digits 4 4; iso_sep; digits 1 2; iso_sep; digits 1 2].

(** [\d{1,2}\s+[A-Za-zéûôàâîïùç]+\.?\s+\d{4}] *)
Definition shape_named : Re.node :=
  Re.seq [digits 1 2; spaces1; month_word; Re.Repeat 0 (Some 1) (Re.Lit 46);
          spaces1; digits 4 4].

(** [\d{4}-\d{2}-\d{2}] *)
Definition shape_iso : Re.node :=
  Re.seq [digits 4 4; Re.Lit 45; digits 2 2; Re.Lit 45; digits 2 2].

(** The pattern of line 150: [\b(?:dmy|ymd|named)\b]. *)
Definition DATE_PATTERN : Re.node :=
  Re.seq [Re.Boundary; Re.alt [shape_dmy; shape_ymd; shape_named]; Re.Boundary].

(** The four labels of line 166; the accented letters by code point:
    o circumflex is 244, e acute is 233. *)
Definition DEADLINE_LABEL_TEXTS : list string :=
  ["date limite";
   "cl" ++ String (ascii_of_N 244) "ture";
   "date de d" ++ String (ascii_of_N 233) ("p" ++ String (ascii_of_N 244) "t");
   "d" ++ String (ascii_of_N 233) "lais"]%string.

Definition DEADLINE_LABELS : list Re.node := map Re.lits DEADLINE_LABEL_TEXTS.

(** [[^\n\r]{0,120}] *)
Definition same_line_120 : Re.node :=
  Re.Repeat 0 (Some 120) (Re.Class true [Re.Chr 10; Re.Chr 13]).

(** The second group of line 166: [dmy|named|iso]. *)
Definition DEADLINE_DATE : Re.node := Re.alt [shape_dmy; shape_named; shape_iso].

(** The pattern of line 166: [(labels)[^\n\r]{0,120}(dmy|named|iso)]. *)
Definition DEADLINE_PATTERN : Re.node :=
  Re.seq [Re.Group 1 (Re.alt DEADLINE_LABELS);
          same_line_120;
          Re.Group 2 DEADLINE_DATE].

(** ** The program: the patterns of the detail extractor *)

(** [[:\s\-]{0,30}] *)
Definition label_gap : Re.node :=
  Re.Repeat 0 (Some 30) (Re.Class false [Re.Chr 58; Re.Space; Re.Chr 45]).

(** [([A-ZÀ-Ÿ][A-Za-z0-9 \-&'’]{3,120})]; the curly apostrophe is 8217
    and Ÿ is 376. *)
Definition organisme_name : Re.node :=
  Re.Group 1
    (Re.Cat (Re.Class false [Re.Rng 65 90; Re.Rng 192 376])
       (Re.Repeat 3 (Some 120)
          (Re.Class false [Re.Rng 65 90; Re.Rng 97 122; Re.Rng 48 57; Re.Chr 32;
                           Re.Chr 45; Re.Chr 38; Re.Chr 39; Re.Chr 8217]))).

Definition ORGANISME_PATTERNS : list Re.node :=
  [Re.seq [Re.lits "Organisme"; label_gap; organisme_name];
   Re.seq [Re.lits "Ma"; Re.Class false [Re.Chr 105; Re.Chr 238]; Re.lits "tre d";
           Re.Class false [Re.Chr 39; Re.Chr 8217; Re.Chr 32]; Re.lits "ouvrage";
           label_gap; organisme_name];
   Re.seq [Re.lits "Collectivit"; Re.Class false [Re.Chr 101; Re.Chr 233];
           Re.Repeat 0 (Some 30) (Re.Class false [Re.Chr 58; Re.Chr 32; Re.Chr 45]);
           organisme_name];
   Re.seq [Re.lits "Pouvoir adjudicateur"; label_gap; organisme_name]].

(** [(Réf(?:érence)?|Ref\.?|N°|No)\s*[:\-\s]{0,5}([A-Z0-9\-/\.]{3,60})] *)
Definition REFERENCE_PATTERN : Re.node :=
  Re.seq
    [Re.Group 1
       (Re.alt
          [Re.seq [Re.lits "R"; Re.Lit 233; Re.lits "f";
                   Re.Repeat 0 (Some 1)
                     (Re.seq [Re.Lit 233; Re.lits "rence"])];
           Re.seq [Re.lits "Ref"; Re.Repeat 0 (Some 1) (Re.Lit 46)];
           Re.seq [Re.lits "N"; Re.Lit 176];
           Re.lits "No"]);
     Re.Repeat 0 None (Re.Class false [Re.Space]);
     Re.Repeat 0 (Some 5) (Re.Class false [Re.Chr 58; Re.Chr 45; Re.Space]);
     Re.Group 2
       (Re.Repeat 3 (Some 60)
          (Re.Class false [Re.Rng 65 90; Re.Rng 48 57; Re.Chr 45; Re.Chr 47;
                           Re.Chr 46]))].

(** ** What a modelled library call gives

    The models of dateutil and urllib below say [Unmodelled] where the
    library's behaviour is not written down here, so that [Ok] and [Raise]
    are only ever claimed where the model follows the library. *)

Inductive outcome (A : Type) :=
| Ok (a : A)
| Raise                (* the call raises *)
| Unmodelled.          (* outside the model *)

Arguments Ok {A} a.
Arguments Raise {A}.
Arguments Unmodelled {A}.

Definition bind {A B : Type} (x : outcome A) (f : A -> outcome B) : outcome B :=
  match x with
  | Ok a => f a
  | Raise => Raise
  | Unmodelled => Unmodelled
  end.

(** A model used as a collaborator of the program: a value, or [None]
    for an exception.  [Unmodelled] is turned into [None] as well, so a
    statement made with [returned] tells what the library does only on
    inputs on which the model answers [Ok] or [Raise]. *)
Definition returned {A : Type} (x : outcome A) : option A :=
  match x with
  | Ok a => Some a
  | Raise => None
  | Unmodelled => None
  end.

(** ** dateutil: a model of [parser.parse(s, dayfirst=True, fuzzy=True)]

    The model follows dateutil's [_timelex], [_ymd] and [parser._parse]
    with the default (English) [parserinfo].  It covers what decides the
    calendar date: numbers, separators, month names and skipped words.
    Where dateutil would read a time of day, a week day or a decimal
    number, the model answers [Unmodelled] instead of guessing. *)

Module Dateutil.

Import Datetime.

(** *** _timelex *)

Inductive lex_state :=
| In_word            (* 'a' *)
| In_number          (* '0' *)
| In_word_dot        (* 'a.' *)
| In_number_dot.     (* '0.' *)

Definition is_dot (c : ascii) : bool := (Str.code c =? 46)%N.
Definition is_comma (c : ascii) : bool := (Str.code c =? 44)%N.

Definition snoc (s : string) (c : ascii) : string := (s ++ String c EmptyString)%string.

Fixpoint last_char (s : string) : option ascii :=
  match s with
  | EmptyString => None
  | String c EmptyString => Some c
  | String _ s' => last_char s'
  end.

Definition ends_with_dot (s : string) : bool :=
  match last_char s with
  | Some c => is_dot c
  | None => false
  end.

Fixpoint count_dots (s : string) : nat :=
  match s with
  | EmptyString => O
  | String c s' => (if is_dot c then 1 else 0) + count_dots s'
  end.

(** The loop of [get_token] once the first character chose the state:
    it returns the state, [seenletters], the token and the unread text. *)
Fixpoint scan (st : lex_state) (seen : bool) (tok : string) (s : string)
    : lex_state * bool * string * string :=
  match s with
  | EmptyString => (st, seen, tok, EmptyString)
  | String c s' =>
      match st with
      | In_word =>
          if Str.isalpha c then scan In_word true (snoc tok c) s'
          else if is_dot c then scan In_word_dot true (snoc tok c) s'
          else (st, true, tok, s)
      | In_number =>
          if Str.isdigit c then scan In_number seen (snoc tok c) s'
          else if is_dot c || (is_comma c && Nat.leb 2 (String.length tok))
          then scan In_number_dot seen (snoc tok c) s'
          else (st, seen, tok, s)
      | In_word_dot =>
          if is_dot c || Str.isalpha c then scan In_word_dot true (snoc tok c) s'
          else if Str.isdigit c && ends_with_dot tok
          then scan In_number_dot true (snoc tok c) s'
          else (st, true, tok, s)
      | In_number_dot =>
          if is_dot c || Str.isdigit c then scan In_number_dot seen (snoc tok c) s'
          else if Str.isalpha c && ends_with_dot tok
          then scan In_word_dot seen (snoc tok c) s'
          else (st, seen, tok, s)
      end
  end.

(** [_split_decimal.split(token)]: the pieces and the separators. *)
Fixpoint split_decimal (cur : string) (s : string) : list string :=
  match s with
  | EmptyString => [cur]
  | String c s' =>
      if is_dot c || is_comma c
      then cur :: String c EmptyString :: split_decimal EmptyString s'
      else split_decimal (snoc cur c) s'
  end.

Fixpoint replace_comma (s : string) : string :=
  match s with
  | EmptyString => EmptyString
  | String c s' => String (if is_comma c then "."%char else c) (replace_comma s')
  end.

(** The end of [get_token]: the tokens one scanned token gives. *)
Definition finish (st : lex_state) (seen : bool) (tok : string) : list string :=
  let dotted := match st with In_word_dot | In_number_dot => true | _ => false end in
  let last_sep := match last_char tok with
                  | Some c => is_dot c || is_comma c
                  | None => false
                  end in
  if dotted && (seen || Nat.ltb 1 (count_dots tok) || last_sep)
  then filter Str.truthy (split_decimal EmptyString tok)
  else match st with
       | In_number_dot => if Nat.eqb (count_dots tok) 0 then [replace_comma tok] else [tok]
       | _ => [tok]
       end.

Definition lex_one (c : ascii) (s' : string) : list string * string :=
  if Str.isalpha c then
    let '(st, seen, tok, r) := scan In_word false (String c EmptyString) s' in
    (finish st seen tok, r)
  else if Str.isdigit c then
    let '(st, seen, tok, r) := scan In_number false (String c EmptyString) s' in
    (finish st seen tok, r)
  else if Str.isspace c then ([" "], s')
  else ([String c EmptyString], s').

Fixpoint split_loop (fuel : nat) (s : string) : list string :=
  match fuel with
  | O => []
  | S fuel' =>
      match s with
      | EmptyString => []
      | String c s' =>
          let '(toks, r) := lex_one c s' in toks ++ split_loop fuel' r
      end
  end.

(** The stream drops NUL characters as it reads. *)
Fixpoint drop_nul (s : string) : string :=
  match s with
  | EmptyString => EmptyString
  | String c s' => if (Str.code c =? 0)%N then drop_nul s' else String c (drop_nul s')
  end.

(** [_timelex.split(s)] *)
Definition split (s : string) : list string :=
  let s := drop_nul s in split_loop (String.length s) s.

(** *** parserinfo *)

Definition JUMP : list string :=
  [" "; "."; ","; ";"; "-"; "/"; "'"; "at"; "on"; "and"; "ad"; "m"; "t"; "of";
   "st"; "nd"; "rd"; "th"].

Definition WEEKDAYS : list string :=
  ["mon"; "monday"; "tue"; "tuesday"; "wed"; "wednesday"; "thu"; "thursday";
   "fri"; "friday"; "sat"; "saturday"; "sun"; "sunday"].

Definition MONTHS : list (string * Z) :=
  [("jan", 1); ("january", 1); ("feb", 2); ("february", 2); ("mar", 3);
   ("march", 3); ("apr", 4); ("april", 4); ("may", 5); ("jun", 6); ("june", 6);
   ("jul", 7); ("july", 7); ("aug", 8); ("august", 8); ("sep", 9); ("sept", 9);
   ("september", 9); ("oct", 10); ("october", 10); ("nov", 11);
   ("november", 11); ("dec", 12); ("december", 12)]%Z.

Definition HMS : list string :=
  ["h"; "hour"; "hours"; "m"; "minute"; "minutes"; "s"; "second"; "seconds"].

Definition AMPM : list string := ["am"; "a"; "pm"; "p"].

Definition PERTAIN : list string := ["of"].

Definition mem (s : string) (l : list string) : bool := existsb (String.eqb s) l.

Definition jump (name : string) : bool := mem (Str.lower name) JUMP.
Definition weekday (name : string) : bool := mem (Str.lower name) WEEKDAYS.
Definition hms (name : string) : bool := mem (Str.lower name) HMS.
Definition ampm (name : string) : bool := mem (Str.lower name) AMPM.
Definition pertain (name : string) : bool := mem (Str.lower name) PERTAIN.

Fixpoint assoc (s : string) (l : list (string * Z)) : option Z :=
  match l with
  | [] => None
  | (k, v) :: l' => if String.eqb s k then Some v else assoc s l'
  end.

Definition month (name : string) : option Z := assoc (Str.lower name) MONTHS.

Local Open Scope Z_scope.

(** [convertyear]: a year below 100 without a century moves to within 50
    years of the current one. *)
Definition convertyear (this_year y : Z) (century_specified : bool) : Z :=
  if (y <? 100) && negb century_specified then
    let y := y + this_year / 100 * 100 in
    if y >=? this_year + 50 then y - 100
    else if y <? this_year - 50 then y + 100
    else y
  else y.

(** *** Reading tokens as numbers *)

Fixpoint all_chars (p : ascii -> bool) (s : string) : bool :=
  match s with
  | EmptyString => true
  | String c s' => p c && all_chars p s'
  end.

(** [tok.isdigit()] *)
Definition isdigit_str (tok : string) : bool := Str.truthy tok && all_chars Str.isdigit tok.

Fixpoint int_acc (acc : Z) (s : string) : Z :=
  match s with
  | EmptyString => acc
  | String c s' => int_acc (10 * acc + (Z.of_N (Str.code c) - 48)) s'
  end.

(** [int(tok)]: the tokens it accepts are the runs of the digits 0-9. *)
Definition int_of (tok : string) : option Z :=
  if Str.truthy tok && all_chars Str.isdecimal tok then Some (int_acc 0 tok) else None.

(** How [float(tok)] sees a token. *)
Inductive numeric :=
| Int (v : Z)          (* a run of the digits 0-9 *)
| Decimal              (* digits, a point, digits *)
| Not_finite           (* nan, inf, infinity *)
| Not_a_number.

Fixpoint decimal_tail (s : string) : bool :=
  match s with
  | EmptyString => false
  | String c s' =>
      if is_dot c then Str.truthy s' && all_chars Str.isdecimal s'
      else Str.isdecimal c && decimal_tail s'
  end.

Definition classify (tok : string) : numeric :=
  match int_of tok with
  | Some v => Int v
  | None =>
      if (match tok with
          | String c _ => Str.isdecimal c
          | EmptyString => false
          end) && decimal_tail tok then Decimal
      else if mem (Str.lower tok) ["nan"; "inf"; "infinity"] then Not_finite
      else Not_a_number
  end.

(** *** _ymd *)

Inductive label := Label_M | Label_Y.

Record ymd := {
  vals : list Z;
  century_specified : bool;
  mstridx : option nat;
  ystridx : option nat
}.

Definition ymd_empty : ymd :=
  {| vals := []; century_specified := false; mstridx := None; ystridx := None |}.

Definition is_some {A : Type} (o : option A) : bool :=
  match o with Some _ => true | None => false end.

(** The end of [_ymd.append]: [mark] says the value can only be a year. *)
Definition ymd_push (y : ymd) (v : Z) (mark : bool) (lab : option label) : outcome ymd :=
  let at_ := List.length (vals y) in
  match (if mark then Some Label_Y else lab), mark, lab with
  | _, true, Some Label_M => Raise
  | Some Label_M, _, _ =>
      if is_some (mstridx y) then Raise
      else Ok {| vals := vals y ++ [v]; century_specified := century_specified y || mark;
                 mstridx := Some at_; ystridx := ystridx y |}
  | Some Label_Y, _, _ =>
      if is_some (ystridx y) then Raise
      else Ok {| vals := vals y ++ [v]; century_specified := century_specified y || mark;
                 mstridx := mstridx y; ystridx := Some at_ |}
  | None, _, _ =>
      Ok {| vals := vals y ++ [v]; century_specified := century_specified y || mark;
            mstridx := mstridx y; ystridx := ystridx y |}
  end.

(** [ymd.append(value)] for a number. *)
Definition append_number (y : ymd) (v : Z) (lab : option label) : outcome ymd :=
  ymd_push y v (v >? 100) lab.

(** [ymd.append(tok)] for a token. *)
Definition append_token (y : ymd) (tok : string) : outcome ymd :=
  match int_of tok with
  | Some v => ymd_push y v (isdigit_str tok && Nat.ltb 2 (String.length tok)) None
  | None => Raise
  end.

Definition nth_val (y : ymd) (i : nat) : Z := nth i (vals y) 0.

Definition could_be_day (y : ymd) (v : Z) : bool :=
  match mstridx y with
  | None => (1 <=? v) && (v <=? 31)
  | Some mi =>
      match ystridx y with
      | None => (1 <=? v) && (v <=? days_in_month 2000 (nth_val y mi))
      | Some yi => (1 <=? v) && (v <=? days_in_month (nth_val y yi) (nth_val y mi))
      end
  end.

(** [self[i - 1]] with Python's wrap-around at 0. *)
Definition nth_before (y : ymd) (i : nat) : Z :=
  match i with
  | O => nth_val y (List.length (vals y) - 1)
  | S j => nth_val y j
  end.

(** [_resolve_from_stridxs]: the labels say which value is which; with
    three values, year and month labelled, the third index is the day. *)
Definition resolve_from_stridxs (y : ymd) : option Z * option Z * option Z :=
  let year := option_map (nth_val y) (ystridx y) in
  let month := option_map (nth_val y) (mstridx y) in
  match ystridx y, mstridx y, List.length (vals y) with
  | Some yi, Some mi, 3%nat => (year, month, Some (nth_val y (3 - yi - mi)))
  | _, _, _ => (year, month, None)
  end.

(** [resolve_ymd(yearfirst=False, dayfirst=True)]: year, month, day. *)
Definition resolve_ymd (y : ymd) : outcome (option Z * option Z * option Z) :=
  let len_ymd := List.length (vals y) in
  let n_strids := ((if is_some (ystridx y) then 1 else 0)
                   + (if is_some (mstridx y) then 1 else 0))%nat in
  let v0 := nth_val y 0 in
  let v1 := nth_val y 1 in
  let v2 := nth_val y 2 in
  if (Nat.eqb len_ymd n_strids && Nat.ltb 0 n_strids)
     || (Nat.eqb len_ymd 3 && Nat.eqb n_strids 2)
  then Ok (resolve_from_stridxs y)
  else if Nat.ltb 3 len_ymd then Raise
  else if Nat.eqb len_ymd 1 || (is_some (mstridx y) && Nat.eqb len_ymd 2) then
    (* one member, or two members with a month string *)
    let month := option_map (nth_val y) (mstridx y) in
    let other := match mstridx y with
                 | Some mi => nth_before y mi
                 | None => v0
                 end in
    if Nat.ltb 1 len_ymd || negb (is_some (mstridx y)) then
      (if other >? 31 then Ok (Some other, month, None)
       else Ok (None, month, Some other))
    else Ok (None, month, None)
  else if Nat.eqb len_ymd 2 then
    (* two members with numbers *)
    if v0 >? 31 then Ok (Some v0, Some v1, None)
    else if v1 >? 31 then Ok (Some v1, Some v0, None)
    else if v1 <=? 12 then Ok (None, Some v1, Some v0)
    else Ok (None, Some v0, Some v1)
  else if Nat.eqb len_ymd 3 then
    match mstridx y with
    | Some O =>
        if v1 >? 31 then Ok (Some v1, Some v0, Some v2)
        else Ok (Some v2, Some v0, Some v1)
    | Some 1%nat =>
        if v0 >? 31 then Ok (Some v0, Some v1, Some v2)
        else Ok (Some v2, Some v1, Some v0)
    | Some 2%nat =>
        if v1 >? 31 then Ok (Some v1, Some v2, Some v0)
        else Ok (Some v0, Some v2, Some v1)
    | _ =>
        if (v0 >? 31) || (match ystridx y with Some O => true | _ => false end) then
          (if v2 <=? 12 then Ok (Some v0, Some v2, Some v1)
           else Ok (Some v0, Some v1, Some v2))
        else if (v0 >? 12) || (v1 <=? 12) then Ok (Some v2, Some v1, Some v0)
        else Ok (Some v2, Some v0, Some v1)
    end
  else Ok (None, None, None).

(** *** parser._parse *)

Definition tok_sat (l : list string) (i : nat) (p : string -> bool) : bool :=
  match nth_error l i with
  | Some t => p t
  | None => false
  end.

Definition tok_is (l : list string) (i : nat) (s : string) : bool :=
  tok_sat l i (String.eqb s).

Definition tok_in (l : list string) (i : nat) (ss : list string) : bool :=
  tok_sat l i (fun t => mem t ss).

(** [_find_hms_idx(idx, tokens, info, allow_jump=True) is not None] *)
Definition find_hms_idx (l : list string) (idx : nat) : bool :=
  let len_l := List.length l in
  (Nat.ltb (idx + 1) len_l && tok_sat l (idx + 1) hms)
  || (Nat.ltb (idx + 2) len_l && tok_is l (idx + 1) " " && tok_sat l (idx + 2) hms)
  || (Nat.ltb 0 idx && tok_sat l (idx - 1) hms)
  || (Nat.ltb 1 idx && Nat.eqb idx (len_l - 1) && tok_is l (idx - 1) " "
      && tok_sat l (idx - 2) hms).

(** The branch [tokens[idx + 1] in ('-', '/', '.')] of
    [_parse_numeric_token]: a date written with separators. *)
Definition date_with_sep (l : list string) (idx : nat) (value_repr : string) (y : ymd)
    : outcome (nat * ymd) :=
  let len_l := List.length l in
  bind (append_token y value_repr) (fun y1 =>
  if Nat.ltb (idx + 2) len_l && negb (tok_sat l (idx + 2) jump) then
    match nth_error l (idx + 1), nth_error l (idx + 2) with
    | Some sep, Some t2 =>
        bind (if isdigit_str t2 then append_token y1 t2
              else match month t2 with
                   | Some mv => append_number y1 mv (Some Label_M)
                   | None => Raise
                   end) (fun y2 =>
        if Nat.ltb (idx + 3) len_l && tok_is l (idx + 3) sep then
          match nth_error l (idx + 4) with
          | Some t4 =>
              bind (match month t4 with
                    | Some mv => append_number y2 mv (Some Label_M)
                    | None => append_token y2 t4
                    end) (fun y3 => Ok ((idx + 4)%nat, y3))
          | None => Raise
          end
        else Ok ((idx + 2)%nat, y2))
    | _, _ => Raise
    end
  else Ok ((idx + 1)%nat, y1)).

(** [_parse_numeric_token]: the index it returns and the values read. *)
Definition parse_numeric_token (l : list string) (idx : nat) (value_repr : string)
    (v : Z) (y : ymd) : outcome (nat * ymd) :=
  let len_li := String.length value_repr in
  let len_l := List.length l in
  if Nat.eqb (List.length (vals y)) 3 && (Nat.eqb len_li 2 || Nat.eqb len_li 4)
     && (Nat.leb len_l (idx + 1)
         || (negb (tok_is l (idx + 1) ":") && negb (tok_sat l (idx + 1) hms)))
  then Unmodelled                                   (* 19990101T23[59] *)
  else if Nat.eqb len_li 6 then Unmodelled          (* YYMMDD or HHMMSS *)
  else if Nat.eqb len_li 8 || Nat.eqb len_li 12 || Nat.eqb len_li 14
  then Unmodelled                                   (* YYYYMMDD... *)
  else if find_hms_idx l idx then Unmodelled        (* HH h, MM m, SS s *)
  else if Nat.ltb (idx + 2) len_l && tok_is l (idx + 1) ":"
  then Unmodelled                                   (* HH:MM *)
  else if Nat.ltb (idx + 1) len_l && tok_in l (idx + 1) ["-"; "/"; "."]
  then date_with_sep l idx value_repr y
  else if Nat.leb len_l (idx + 1) || tok_sat l (idx + 1) jump then
    if Nat.ltb (idx + 2) len_l && tok_sat l (idx + 2) ampm
    then Unmodelled                                 (* 12 am *)
    else bind (append_number y v None) (fun y' => Ok ((idx + 1)%nat, y'))
  else if tok_sat l (idx + 1) ampm && (0 <=? v) && (v <? 24)
  then Unmodelled                                   (* 12am *)
  else if could_be_day y v
  then bind (append_number y v None) (fun y' => Ok (idx, y'))
  else Ok (idx, y).                                 (* fuzzy: dropped *)

(** The branch of [_parse] for a month name at index [i]. *)
Definition month_token (this_year : Z) (l : list string) (i : nat) (mv : Z) (y : ymd)
    : outcome (nat * ymd) :=
  let len_l := List.length l in
  bind (append_number y mv (Some Label_M)) (fun y1 =>
  if Nat.ltb (i + 1) len_l then
    if tok_in l (i + 1) ["-"; "/"] then
      (* Jan-01[-99] *)
      match nth_error l (i + 1), nth_error l (i + 2) with
      | Some sep, Some t2 =>
          bind (append_token y1 t2) (fun y2 =>
          if Nat.ltb (i + 3) len_l && tok_is l (i + 3) sep then
            match nth_error l (i + 4) with
            | Some t4 => bind (append_token y2 t4) (fun y3 => Ok ((i + 4)%nat, y3))
            | None => Raise
            end
          else Ok ((i + 2)%nat, y2))
      | _, _ => Raise
      end
    else if Nat.ltb (i + 4) len_l && tok_is l (i + 1) " " && tok_is l (i + 3) " "
            && tok_sat l (i + 2) pertain then
      (* Jan of 01 *)
      match nth_error l (i + 4) with
      | Some t4 =>
          if isdigit_str t4 then
            match int_of t4 with
            | Some v =>
                let yv := convertyear this_year v false in
                bind (ymd_push y1 yv (100 <=? yv) (Some Label_Y))
                     (fun y2 => Ok ((i + 4)%nat, y2))
            | None => Raise
            end
          else Ok ((i + 4)%nat, y1)
      | None => Raise
      end
    else Ok (i, y1)
  else Ok (i, y1)).

(** The loop of [_parse] from token [i] on. *)
Fixpoint parse_loop (fuel : nat) (this_year : Z) (l : list string) (i : nat) (y : ymd)
    : outcome ymd :=
  match fuel with
  | O => Unmodelled
  | S fuel' =>
      match nth_error l i with
      | None => Ok y
      | Some t =>
          bind (match classify t with
                | Int v => parse_numeric_token l i t v y
                | Decimal => Unmodelled
                | Not_finite => Raise
                | Not_a_number =>
                    if weekday t then Unmodelled
                    else match month t with
                         | Some mv => month_token this_year l i mv y
                         | None => Ok (i, y)   (* fuzzy: skipped *)
                         end
                end)
               (fun '(i', y') => parse_loop fuel' this_year l (S i') y')
      end
  end.

(** [_build_naive(res, default)] and [.date()]: the fields the text did
    not give come from the current day. *)
Definition build_naive (today : date) (yr mo dy : option Z) : outcome date :=
  let cyear := match yr with Some v => v | None => year today end in
  let cmonth := match mo with Some v => v | None => Datetime.month today end in
  let made d := match make_date cyear cmonth d with
                | Some dt => Ok dt
                | None => Raise
                end in
  match dy with
  | Some d => made d
  | None =>
      if (1 <=? cmonth) && (cmonth <=? 12) then
        let last := days_in_month cyear cmonth in
        made (if day today >? last then last else day today)
      else Raise
  end.

(** [parse(s, dayfirst=True, fuzzy=True).date()] on the day [today]. *)
Definition parse (today : date) (s : string) : outcome date :=
  let l := split s in
  bind (parse_loop (S (List.length l)) (year today) l 0 ymd_empty) (fun y =>
  bind (resolve_ymd y) (fun '(yr, mo, dy) =>
  let yr := option_map (fun v => convertyear (year today) v (century_specified y)) yr in
  match yr, mo, dy with
  | None, None, None => Raise
  | _, _, _ => build_naive today yr mo dy
  end)).

(** The parser as the program sees it: a date, or an exception. *)
Definition dateparse (today : date) (s : string) : option date :=
  returned (parse today s).

End Dateutil.

(** ** urllib.parse: a model of [urljoin] and [urlparse]

    The model follows CPython's [urlsplit], [urlunsplit] and [urljoin].
    It says [Unmodelled] for a URL that holds a character up to the space
    (what is stripped there changed between versions), and for a host
    part with a bracket or a character above 127 (IPv6 and NFKC checks). *)

Module Urllib.

Definition uses_relative : list string :=
  [""; "ftp"; "http"; "gopher"; "nntp"; "imap"; "wais"; "file"; "https"; "shttp";
   "mms"; "prospero"; "rtsp"; "rtspu"; "sftp"; "svn"; "svn+ssh"; "ws"; "wss"].

Definition uses_netloc : list string :=
  [""; "ftp"; "http"; "gopher"; "nntp"; "telnet"; "imap"; "wais"; "file"; "mms";
   "https"; "shttp"; "snews"; "prospero"; "rtsp"; "rtspu"; "rsync"; "svn";
   "svn+ssh"; "sftp"; "nfs"; "git"; "git+ssh"; "ws"; "wss"].

Definition uses_params : list string :=
  [""; "ftp"; "hdl"; "prospero"; "http"; "imap"; "https"; "shttp"; "rtsp"; "rtspu";
   "sip"; "sips"; "mms"; "sftp"; "tel"].

Definition mem (s : string) (l : list string) : bool := existsb (String.eqb s) l.

Definition is_char (n : N) (c : ascii) : bool := (Str.code c =? n)%N.

Definition scheme_char (c : ascii) : bool :=
  let n := Str.code c in
  Str.between 97 122 n || Str.between 65 90 n || Str.between 48 57 n
  || (n =? 43)%N || (n =? 45)%N || (n =? 46)%N.

Definition ascii_letter (c : ascii) : bool :=
  let n := Str.code c in Str.between 97 122 n || Str.between 65 90 n.

Fixpoint any_char (p : ascii -> bool) (s : string) : bool :=
  match s with
  | EmptyString => false
  | String c s' => p c || any_char p s'
  end.

Fixpoint all_char (p : ascii -> bool) (s : string) : bool :=
  match s with
  | EmptyString => true
  | String c s' => p c && all_char p s'
  end.

(** The text before the first character that [p] accepts, and the text
    from that character on. *)
Fixpoint break_at (p : ascii -> bool) (s : string) : string * string :=
  match s with
  | EmptyString => (EmptyString, EmptyString)
  | String c s' =>
      if p c then (EmptyString, s)
      else let '(a, b) := break_at p s' in (String c a, b)
  end.

Definition tail (s : string) : string :=
  match s with
  | EmptyString => EmptyString
  | String _ s' => s'
  end.

(** [s.split(sep, 1)] when [sep] is in [s]: before and after it. *)
Definition cut (n : N) (s : string) : string * string :=
  let '(a, b) := break_at (is_char n) s in (a, tail b).

(** [s.split("/")] *)
Fixpoint split_slash (cur : string) (s : string) : list string :=
  match s with
  | EmptyString => [cur]
  | String c s' =>
      if is_char 47 c then cur :: split_slash EmptyString s'
      else split_slash (cur ++ String c EmptyString)%string s'
  end.

Record split_result := {
  u_scheme : string;
  u_netloc : string;
  u_path : string;
  u_query : string;
  u_fragment : string
}.

(** The scheme of [url] when it has one, and the rest. *)
Definition take_scheme (url scheme : string) : string * string :=
  let '(a, b) := break_at (is_char 58) url in
  match a, b with
  | String c _, String _ rest =>
      if ascii_letter c && all_char scheme_char a then (Str.lower a, rest)
      else (scheme, url)
  | _, _ => (scheme, url)
  end.

Definition in_scope (url : string) : bool :=
  negb (any_char (fun c => (Str.code c <=? 32)%N) url).

(** [urlsplit(url, scheme)] *)
Definition urlsplit (url scheme : string) : outcome split_result :=
  if negb (in_scope url && in_scope scheme) then Unmodelled else
  let '(scheme, url) := take_scheme url scheme in
  let '(netloc, url) :=
    if String.prefix "//" url
    then break_at (fun c => is_char 47 c || is_char 63 c || is_char 35 c)
                  (tail (tail url))
    else (EmptyString, url) in
  if any_char (fun c => is_char 91 c || is_char 93 c || (127 <? Str.code c)%N) netloc
  then Unmodelled else
  let '(url, fragment) := if any_char (is_char 35) url then cut 35 url
                          else (url, EmptyString) in
  let '(url, query) := if any_char (is_char 63) url then cut 63 url
                       else (url, EmptyString) in
  Ok {| u_scheme := scheme; u_netloc := netloc; u_path := url;
        u_query := query; u_fragment := fragment |}.

(** [_splitparams]: the parameters of the last segment of the path. *)
Fixpoint splitparams (url : string) : string * string :=
  match url with
  | EmptyString => (EmptyString, EmptyString)
  | String c s' =>
      if any_char (is_char 47) s' then
        let '(a, b) := splitparams s' in (String c a, b)
      else if any_char (is_char 59) url then cut 59 url
      else (url, EmptyString)
  end.

(** [urlparse(url, scheme)]: the split result and the parameters. *)
Definition urlparse (url scheme : string) : outcome (split_result * string) :=
  bind (urlsplit url scheme) (fun r =>
  if mem (u_scheme r) uses_params && any_char (is_char 59) (u_path r) then
    let '(path, params) := splitparams (u_path r) in
    Ok ({| u_scheme := u_scheme r; u_netloc := u_netloc r; u_path := path;
           u_query := u_query r; u_fragment := u_fragment r |}, params)
  else Ok (r, EmptyString)).

(** [urlunparse] *)
Definition urlunparse (r : split_result) (params : string) : string :=
  let url := if Str.truthy params then (u_path r ++ ";" ++ params)%string
             else u_path r in
  let url :=
    if Str.truthy (u_netloc r)
       || (Str.truthy (u_scheme r) && mem (u_scheme r) uses_netloc
           && negb (String.prefix "//" url))
    then ("//" ++ u_netloc r
          ++ (if Str.truthy url && negb (String.prefix "/" url) then "/" else "")
          ++ url)%string
    else url in
  let url := if Str.truthy (u_scheme r) then (u_scheme r ++ ":" ++ url)%string
             else url in
  let url := if Str.truthy (u_query r) then (url ++ "?" ++ u_query r)%string
             else url in
  if Str.truthy (u_fragment r) then (url ++ "#" ++ u_fragment r)%string else url.

(** [del base_parts[-1]] when the last part is not empty. *)
Fixpoint drop_file (parts : list string) : list string :=
  match parts with
  | [] => []
  | [p] => if Str.truthy p then [] else [p]
  | p :: ps => p :: drop_file ps
  end.

(** [segments[1:-1] = filter(None, segments[1:-1])] *)
Fixpoint filter_inner (segments : list string) : list string :=
  match segments with
  | [] => []
  | [p] => [p]
  | p :: ps => (if Str.truthy p then [p] else []) ++ filter_inner ps
  end.

Definition filter_middle (segments : list string) : list string :=
  match segments with
  | [] => []
  | p :: ps => p :: filter_inner ps
  end.

(** The loop over the segments; [resolved] is kept in reverse. *)
Fixpoint resolve (segments : list string) (resolved : list string) : list string :=
  match segments with
  | [] => rev resolved
  | seg :: rest =>
      if String.eqb seg ".." then resolve rest (List.tl resolved)
      else if String.eqb seg "." then resolve rest resolved
      else resolve rest (seg :: resolved)
  end.

(** [urljoin(base, url)] *)
Definition urljoin (base url : string) : outcome string :=
  if negb (Str.truthy base) then Ok url
  else if negb (Str.truthy url) then Ok base
  else
    bind (urlparse base EmptyString) (fun '(b, bparams) =>
    bind (urlparse url (u_scheme b)) (fun '(u, params) =>
    if negb (String.eqb (u_scheme u) (u_scheme b)) || negb (mem (u_scheme u) uses_relative)
    then Ok url
    else if mem (u_scheme u) uses_netloc && Str.truthy (u_netloc u)
    then Ok (urlunparse u params)
    else
      let netloc := if mem (u_scheme u) uses_netloc then u_netloc b else u_netloc u in
      if negb (Str.truthy (u_path u)) && negb (Str.truthy params) then
        Ok (urlunparse
              {| u_scheme := u_scheme u; u_netloc := netloc; u_path := u_path b;
                 u_query := if Str.truthy (u_query u) then u_query u else u_query b;
                 u_fragment := u_fragment u |} bparams)
      else
        let base_parts := drop_file (split_slash EmptyString (u_path b)) in
        let segments :=
          if String.prefix "/" (u_path u) then split_slash EmptyString (u_path u)
          else filter_middle (base_parts ++ split_slash EmptyString (u_path u)) in
        let resolved := resolve segments [] in
        let resolved :=
          if mem (List.last segments EmptyString) ["."; ".."]
          then resolved ++ [EmptyString] else resolved in
        let path := String.concat "/" resolved in
        Ok (urlunparse
              {| u_scheme := u_scheme u; u_netloc := netloc;
                 u_path := if Str.truthy path then path else "/";
                 u_query := u_query u; u_fragment := u_fragment u |} params))).

(** [urlparse(url).path] *)
Definition path_of (url : string) : outcome string :=
  bind (urlparse url EmptyString) (fun '(r, _) => Ok (u_path r)).

End Urllib.

(** ** The program: link discovery *)

(** What the program reads of an [<a href=...>] tag. *)
Record anchor := {
  a_href : string;      (* a.get("href", "") *)
  a_text : string       (* a.get_text(" ", strip=True) *)
}.

(** What the program reads of a parsed page. *)
Record document := {
  doc_text : string;                      (* soup.get_text(" ", strip=True) *)
  doc_h1 : option (string * string);      (* the first h1: get_text(strip=True)
                                             and get_text(" ", strip=True) *)
  doc_og_title : option (option string);  (* the first meta og:title: its
                                             content attribute *)
  doc_title : option string;              (* the title tag: get_text() *)
  doc_blocks : list string;               (* every p and div, in document
                                             order: get_text(" ", strip=True) *)
  doc_anchors : list anchor               (* find_all("a", href=True) *)
}.

(** The collaborators of the program and the current day.  A call that
    can raise answers with an [option]. *)
Record world := {
  session_get : string -> nat -> get_outcome;   (* the k-th session.get(url) *)
  BeautifulSoup : string -> document;
  urljoin : string -> string -> option string;
  urlparse_path : string -> option string;      (* urlparse(url).path *)
  dateparse : string -> option Datetime.date;
      (* dateutil's parse(d, dayfirst=True, fuzzy=True).date() *)
  today : Datetime.date                         (* date.today() *)
}.

Definition mem_string (s : string) (l : list string) : bool :=
  existsb (String.eqb s) l.

(** Not among the candidates [c]. *)
Definition unseen (c : list string) (y : string) : bool := negb (mem_string y c).

(** Lines 139-141: [candidates] in order, [seen] as a list. *)
Definition add_candidate (st : list string * list string) (abs_url : string)
    : list string * list string :=
  let '(candidates, seen) := st in
  if mem_string abs_url seen then st
  else (candidates ++ [abs_url], abs_url :: seen).

(** The first condition of line 138. *)
Definition keyword_rule (abs_url text : string) : bool :=
  likely_offer_link abs_url text.

(** The second condition of line 138. *)
Definition path_rule (path : string) : bool :=
  existsb (fun p => Str.contains p (Str.lower path)) PATH_WORDS.

(** The condition of line 142. *)
Definition pdf_rule (abs_url text : string) : bool :=
  Str.endswith (Str.lower abs_url) ".pdf" && likely_offer_link abs_url text.

Definition http_url (abs_url : string) : bool :=
  Str.startswith abs_url "http://" || Str.startswith abs_url "https://".

Section LinkLoop.

Variable urljoin : string -> string -> option string.
Variable urlparse_path : string -> option string.

(** One turn of the loop of [find_candidate_links]; [None] when
    [urljoin] or [urlparse] raises. *)
Definition link_step (base : string) (st : list string * list string)
    (a : anchor) : option (list string * list string) :=
  let href := Str.strip (a_href a) in
  let text := a_text a in
  match urljoin base href with
  | None => None
  | Some abs_url =>
      if negb (http_url abs_url) then Some st
      else if Str.startswith abs_url "mailto:" || Str.startswith abs_url "tel:"
      then Some st
      else
        match urlparse_path abs_url with
        | None => None
        | Some path =>
            if keyword_rule abs_url text || path_rule path
            then Some (add_candidate st abs_url)
            else if pdf_rule abs_url text
            then Some (add_candidate st abs_url)
            else Some st
        end
  end.

Fixpoint link_loop (base : string) (anchors : list anchor)
    (st : list string * list string) : option (list string * list string) :=
  match anchors with
  | [] => Some st
  | a :: rest =>
      match link_step base st a with
      | None => None
      | Some st' => link_loop base rest st'
      end
  end.

(** Lines 127-146: the candidates of a list of anchors. *)
Definition candidate_links (listing_url : string) (anchors : list anchor)
    : option (list string) :=
  match link_loop listing_url anchors ([], []) with
  | None => None
  | Some (candidates, _) => Some (firstn MAX_DETAIL_PER_SITE candidates)
  end.

(** The same loop without the [elif] of line 142. *)
Definition link_step_no_pdf (base : string) (st : list string * list string)
    (a : anchor) : option (list string * list string) :=
  let href := Str.strip (a_href a) in
  let text := a_text a in
  match urljoin base href with
  | None => None
  | Some abs_url =>
      if negb (http_url abs_url) then Some st
      else if Str.startswith abs_url "mailto:" || Str.startswith abs_url "tel:"
      then Some st
      else
        match urlparse_path abs_url with
        | None => None
        | Some path =>
            if keyword_rule abs_url text || path_rule path
            then Some (add_candidate st abs_url)
            else Some st
        end
  end.

Fixpoint link_loop_no_pdf (base : string) (anchors : list anchor)
    (st : list string * list string) : option (list string * list string) :=
  match anchors with
  | [] => Some st
  | a :: rest =>
      match link_step_no_pdf base st a with
      | None => None
      | Some st' => link_loop_no_pdf base rest st'
      end
  end.

Definition candidate_links_no_pdf (listing_url : string) (anchors : list anchor)
    : option (list string) :=
  match link_loop_no_pdf listing_url anchors ([], []) with
  | None => None
  | Some (candidates, _) => Some (firstn MAX_DETAIL_PER_SITE candidates)
  end.

(** The URL an anchor contributes when nothing raises: the specification
    of one turn, without the bookkeeping. *)
Definition accepted (base : string) (a : anchor) : option string :=
  match urljoin base (Str.strip (a_href a)) with
  | None => None
  | Some abs_url =>
      match urlparse_path abs_url with
      | None => None
      | Some path =>
          if http_url abs_url
             && (keyword_rule abs_url (a_text a) || path_rule path
                 || pdf_rule abs_url (a_text a))
          then Some abs_url else None
      end
  end.

Fixpoint accepted_urls (base : string) (anchors : list anchor) : list string :=
  match anchors with
  | [] => []
  | a :: rest =>
      match accepted base a with
      | Some u => u :: accepted_urls base rest
      | None => accepted_urls base rest
      end
  end.

End LinkLoop.

(** A list without its repetitions, every element at its first place. *)
Fixpoint first_seen (l : list string) : list string :=
  match l with
  | [] => []
  | x :: l' => x :: filter (fun y => negb (String.eqb y x)) (first_seen l')
  end.

(** The anchors of the listing page, none when the fetch fails. *)
Definition listing_anchors (w : world) (listing_url : string) : list anchor :=
  match safe_get (session_get w listing_url) default_retries with
  | None => []
  | Some r => doc_anchors (BeautifulSoup w (text r))
  end.

Definition find_candidate_links (w : world) (listing_url : string) : option (list string) :=
  match safe_get (session_get w listing_url) default_retries with
  | None => Some []
  | Some r =>
      let soup := BeautifulSoup w (text r) in
      candidate_links (urljoin w) (urlparse_path w) listing_url (doc_anchors soup)
  end.

Definition find_candidate_links_no_pdf (w : world) (listing_url : string)
    : option (list string) :=
  match safe_get (session_get w listing_url) default_retries with
  | None => Some []
  | Some r =>
      let soup := BeautifulSoup w (text r) in
      candidate_links_no_pdf (urljoin w) (urlparse_path w) listing_url (doc_anchors soup)
  end.

(** ** The program: the date extractor *)

(** [parsed.sort()] on strings: by code point, smallest first. *)
Fixpoint insert_sorted (x : string) (l : list string) : list string :=
  match l with
  | [] => [x]
  | y :: l' => if String.leb x y then x :: l else y :: insert_sorted x l'
  end.

Fixpoint list_sort (l : list string) : list string :=
  match l with
  | [] => []
  | x :: l' => insert_sorted x (list_sort l')
  end.

(** The order [parsed.sort()] sorts by. *)
Definition le_string (x y : string) : Prop := String.leb x y = true.

Section DateExtractor.

Variable dateparse : string -> option Datetime.date.

(** The loop of lines 154-159: the matches that parse, as ISO strings. *)
Fixpoint parsed_dates (patt : list string) : list string :=
  match patt with
  | [] => []
  | d :: rest =>
      match dateparse d with
      | Some dt => Datetime.isoformat dt :: parsed_dates rest
      | None => parsed_dates rest
      end
  end.

(** The same loop before [isoformat]: the dates themselves. *)
Fixpoint parsed_values (patt : list string) : list Datetime.date :=
  match patt with
  | [] => []
  | d :: rest =>
      match dateparse d with
      | Some dt => dt :: parsed_values rest
      | None => parsed_values rest
      end
  end.

(** Lines 165-175: the labelled deadline. *)
Definition labeled_deadline (text : string) : option string * option string :=
  match Re.search true DEADLINE_PATTERN text with
  | Some m =>
      match dateparse (Re.group 2 m) with
      | Some dt => (None, Some (Datetime.isoformat dt))
      | None => (None, None)
      end
  | None => (None, None)
  end.

Definition parse_dates_from_text (text : string) : option string * option string :=
  let patt := Re.findall true DATE_PATTERN text in
  let parsed := parsed_dates patt in
  match parsed with
  | _ :: _ =>
      let parsed := list_sort parsed in
      let pub := hd EmptyString parsed in
      let lim := if Nat.ltb 1 (List.length parsed)
                 then Some (last parsed EmptyString) else None in
      (Some pub, lim)
  | [] => labeled_deadline text
  end.

End DateExtractor.

(** ** The program: the detail extractor *)

Record detail := {
  detail_url : string;
  titre : option string;
  organisme : option string;
  reference : option string;
  date_publication : option string;
  date_limite : option string;
  extrait : option string;
  statut : string
}.

(** The dictionary of line 179. *)
Definition default_detail (url : string) : detail :=
  {| detail_url := url; titre := None; organisme := None; reference := None;
     date_publication := None; date_limite := None; extrait := None;
     statut := "unknown" |}.

(** The two texts of lines 185-186.  The e grave is 232 and the e acute
    233; the dash of the second text is U+2014, which is outside the
    alphabet of the model: a hyphen stands for it. *)
Definition PDF_TITRE : string :=
  ("Document PDF (voir pi" ++ String (ascii_of_N 232) "ce)")%string.

Definition PDF_EXTRAIT : string :=
  ("PDF d" ++ String (ascii_of_N 233) ("tect" ++ String (ascii_of_N 233)
     (" - lecture manuelle conseill" ++ String (ascii_of_N 233) "e.")))%string.

Definition pdf_detail (url : string) : detail :=
  {| detail_url := url; titre := Some PDF_TITRE; organisme := None;
     reference := None; date_publication := None; date_limite := None;
     extrait := Some PDF_EXTRAIT; statut := "unknown" |}.

(** Line 184. *)
Definition is_pdf (r : response) (url : string) : bool :=
  let content_type := Str.lower (Str.or_empty (content_type r)) in
  Str.contains "application/pdf" content_type
  || Str.endswith (Str.lower url) ".pdf".

(** Lines 197-203: the og:title, else the title tag. *)
Definition title_fallback (soup : document) : option string :=
  let from_title := option_map (fun t => clean_text (Some t)) (doc_title soup) in
  match doc_og_title soup with
  | Some (Some content) =>
      if Str.truthy content then Some (clean_text (Some content)) else from_title
  | _ => from_title
  end.

(** Lines 193-203. *)
Definition find_titre (soup : document) : option string :=
  match doc_h1 soup with
  | Some (stripped, spaced) =>
      if Str.truthy stripped then Some (clean_text (Some spaced))
      else title_fallback soup
  | None => title_fallback soup
  end.

(** Lines 206-212: the first pattern that matches gives the name. *)
Fixpoint find_organisme (patterns : list Re.node) (text : string) : option string :=
  match patterns with
  | [] => None
  | p :: rest =>
      match Re.search true p text with
      | Some m => Some (clean_text (Some (Re.group 1 m)))
      | None => find_organisme rest text
      end
  end.

(** Lines 215-217. *)
Definition find_reference (text : string) : option string :=
  option_map (Re.group 2) (Re.search true REFERENCE_PATTERN text).

(** Lines 225-229. *)
Fixpoint find_extrait (blocks : list string) : option string :=
  match blocks with
  | [] => None
  | p :: rest =>
      let t := clean_text (Some p) in
      if Str.truthy t && Nat.ltb 60 (String.length t) then Some (Str.take 600 t)
      else find_extrait rest
  end.

(** Lines 232-239: the status, [previous] being the one set before. *)
Definition basic_status (today : Datetime.date) (limite : option string)
    (previous : string) : string :=
  match limite with
  | Some s =>
      if Str.truthy s then
        match Datetime.fromisoformat s with
        | Some d => if Datetime.date_leb today d then "open" else "closed"
        | None => previous          (* the exception is swallowed *)
        end
      else "published"
  | None => "published"
  end.

(** [parse_detail] after a fetch that answered with an HTML page. *)
Definition parse_html (w : world) (url : string) (r : response) : detail :=
  let result := default_detail url in
  let soup := BeautifulSoup w (text r) in
  let text := doc_text soup in
  let '(pub, lim) := parse_dates_from_text (dateparse w) text in
  {| detail_url := detail_url result;
     titre := find_titre soup;
     organisme := find_organisme ORGANISME_PATTERNS text;
     reference := find_reference text;
     date_publication := pub;
     date_limite := lim;
     extrait := find_extrait (doc_blocks soup);
     statut := basic_status (today w) lim (statut result) |}.

Definition parse_detail (w : world) (url : string) : detail :=
  match safe_get (session_get w url) default_retries with
  | None => default_detail url
  | Some r => if is_pdf r url then pdf_detail url else parse_html w url r
  end.

(** ** The models as collaborators of the program *)

Definition model_urljoin (base url : string) : option string :=
  returned (Urllib.urljoin base url).

Definition model_urlparse_path (url : string) : option string :=
  returned (Urllib.path_of url).

(** BeautifulSoup on a page without markup: one text, no element. *)
Definition plain_page (html : string) : document :=
  {| doc_text := Str.strip html; doc_h1 := None; doc_og_title := None;
     doc_title := None; doc_blocks := []; doc_anchors := [] |}.

(** A world in which every request is answered by [r]. *)
Definition world_answering (r : response) (today : Datetime.date) : world :=
  {| session_get := fun _ _ => Answered r;
     BeautifulSoup := plain_page;
     urljoin := model_urljoin;
     urlparse_path := model_urlparse_path;
     dateparse := Dateutil.dateparse today;
     today := today |}.

(** A parsed page that has the anchors [l] and nothing else. *)
Definition page_with_anchors (l : list anchor) : document :=
  {| doc_text := EmptyString; doc_h1 := None; doc_og_title := None;
     doc_title := None; doc_blocks := []; doc_anchors := l |}.

(** A world in which the listing page is fetched and has the anchors [l]. *)
Definition world_listing (l : list anchor) (today : Datetime.date) : world :=
  {| session_get := fun _ _ =>
       Answered {| status_code := 200; content_type := Some "text/html";
                   text := EmptyString |};
     BeautifulSoup := fun _ => page_with_anchors l;
     urljoin := model_urljoin;
     urlparse_path := model_urlparse_path;
     dateparse := Dateutil.dateparse today;
     today := today |}.

(** A world in which every request fails. *)
Definition world_offline (today : Datetime.date) : world :=
  {| session_get := fun _ _ => Raised;
     BeautifulSoup := plain_page;
     urljoin := model_urljoin;
     urlparse_path := model_urlparse_path;
     dateparse := Dateutil.dateparse today;
     today := today |}.

(** No line break in a string. *)
Definition one_line (s : string) : bool :=
  Dateutil.all_chars
    (fun c => negb (Str.code c =? 10)%N && negb (Str.code c =? 13)%N) s.

(** The listing of the specification's example and its two anchors. *)
Definition example_anchors : list anchor :=
  [{| a_href := "/avis/123";
      a_text := ("Avis de march" ++ String (ascii_of_N 233) "")%string |};
   {| a_href := "/contact"; a_text := "Contact" |}].

(** A page served as a PDF, with a body that reads like a notice. *)
Definition pdf_response : response :=
  {| status_code := 200;
     content_type := Some "Application/PDF";
     text := "Organisme : Mairie. Date limite : 20/04/2024" |}.

(** Two pages without markup: a deadline long past, and one far ahead. *)
Definition page_closed : response :=
  {| status_code := 200; content_type := Some "text/html";
     text := "Avis du 10/01/2024. Remise des offres avant le 05/03/2024." |}.

Definition page_open : response :=
  {| status_code := 200; content_type := Some "text/html";
     text := "Avis du 10/01/2024. Remise des offres avant le 05/03/2999." |}.

(** A property of the program that holds whatever the current day. *)
Definition every_day (P : Datetime.date -> Prop) : Prop :=
  forall today : Datetime.date, P today.

(** 4 November 2026. *)
Definition a_day : Datetime.date := Datetime.mkdate 2026 11 4 eq_refl.

(** * Definitions for the further properties *)

(** ** What [safe_get] does besides answering *)

(** The calls of [session.get], by attempt number, and the seconds of
    every [time.sleep] of line 107. *)
Inductive action :=
| Get_call (attempt : nat)
| Sleep_for (seconds : nat).

(** The loop of [safe_get] with its actions: a pause follows every
    attempt that is not returned, the last one too. *)
Fixpoint safe_get_actions (get : nat -> get_outcome) (attempt n : nat)
    : option response * list action :=
  match n with
  | O => (None, [])
  | S n' =>
      let again :=
        let '(r, acts) := safe_get_actions get (S attempt) n' in
        (r, Get_call attempt :: Sleep_for (1 + attempt) :: acts) in
      match get attempt with
      | Answered r =>
          if (status_code r =? 200)%Z then (Some r, [Get_call attempt])
          else again
      | Raised => again
      end
  end.

(** The actions of the attempts [attempt], ..., [attempt + n - 1] when
    every one of them fails. *)
Fixpoint failed_attempts (attempt n : nat) : list action :=
  match n with
  | O => []
  | S n' => Get_call attempt :: Sleep_for (1 + attempt) :: failed_attempts (S attempt) n'
  end.

(** The seconds slept in a list of actions. *)
Fixpoint slept (acts : list action) : nat :=
  match acts with
  | [] => 0
  | Sleep_for s :: rest => s + slept rest
  | Get_call _ :: rest => slept rest
  end.

(** ** Texts as [clean_text] leaves them *)

(** Every white-space character of the string is a plain space that
    stands before a character which is not white space. *)
Fixpoint single_spaced (s : string) : bool :=
  match s with
  | EmptyString => true
  | String c s' =>
      (if Str.isspace c
       then (Str.code c =? 32)%N
            && match s' with
               | EmptyString => false
               | String c' _ => negb (Str.isspace c')
               end
       else true)
      && single_spaced s'
  end.

(** No white space at either end, and words one space apart. *)
Definition tidy (s : string) : bool :=
  match s with
  | EmptyString => true
  | String c _ => negb (Str.isspace c)
  end && single_spaced s.

(** The characters of a string that are not white space. *)
Fixpoint unspaced (s : string) : string :=
  match s with
  | EmptyString => EmptyString
  | String c s' => if Str.isspace c then unspaced s' else String c (unspaced s')
  end.

(** Single spaces, the last of which may end the string. *)
Fixpoint loose (s : string) : bool :=
  match s with
  | EmptyString => true
  | String c s' =>
      (if Str.isspace c
       then (Str.code c =? 32)%N
            && match s' with
               | EmptyString => true
               | String c' _ => negb (Str.isspace c')
               end
       else true)
      && loose s'
  end.

(** The string does not begin with white space. *)
Definition no_space_first (s : string) : bool :=
  match s with
  | EmptyString => true
  | String c _ => negb (Str.isspace c)
  end.

(** ** The keyword test, part by part *)

(** A keyword of [LINK_KEYWORDS] in the lower-cased string. *)
Definition has_keyword (s : string) : bool :=
  existsb (fun k => Str.contains k (Str.lower s)) LINK_KEYWORDS.

(** The keywords without "aops" and "consultation". *)
Definition SHORT_KEYWORDS : list string :=
  ["appel"; "offre"; "march"; "consult"; "avis"; "soumission"; "aop";
   "notice"; "detail"; "fiche"].

(** No space in a string. *)
Fixpoint space_free (s : string) : bool :=
  match s with
  | EmptyString => true
  | String c s' => negb (Ascii.eqb c " ") && space_free s'
  end.

(** ** The link loop without the test of line 135 *)

(** One turn of the loop of [find_candidate_links] in which an address
    that starts with "mailto:" or "tel:" is not looked for. *)
Definition link_step_no_mailto (urljoin : string -> string -> option string)
    (urlparse_path : string -> option string) (base : string)
    (st : list string * list string) (a : anchor)
    : option (list string * list string) :=
  let href := Str.strip (a_href a) in
  let text := a_text a in
  match urljoin base href with
  | None => None
  | Some abs_url =>
      if negb (http_url abs_url) then Some st
      else
        match urlparse_path abs_url with
        | None => None
        | Some path =>
            if keyword_rule abs_url text || path_rule path
            then Some (add_candidate st abs_url)
            else if pdf_rule abs_url text
            then Some (add_candidate st abs_url)
            else Some st
        end
  end.

Fixpoint link_loop_no_mailto (urljoin : string -> string -> option string)
    (urlparse_path : string -> option string) (base : string)
    (anchors : list anchor) (st : list string * list string)
    : option (list string * list string) :=
  match anchors with
  | [] => Some st
  | a :: rest =>
      match link_step_no_mailto urljoin urlparse_path base st a with
      | None => None
      | Some st' => link_loop_no_mailto urljoin urlparse_path base rest st'
      end
  end.

(** The loop in which the keyword test alone decides: neither the path
    test of line 138 nor the branch of line 142. *)
Definition link_step_keyword_only (urljoin : string -> string -> option string)
    (urlparse_path : string -> option string) (base : string)
    (st : list string * list string) (a : anchor)
    : option (list string * list string) :=
  let href := Str.strip (a_href a) in
  let text := a_text a in
  match urljoin base href with
  | None => None
  | Some abs_url =>
      if negb (http_url abs_url) then Some st
      else if Str.startswith abs_url "mailto:" || Str.startswith abs_url "tel:"
      then Some st
      else
        match urlparse_path abs_url with
        | None => None
        | Some path =>
            if keyword_rule abs_url text
            then Some (add_candidate st abs_url)
            else Some st
        end
  end.

Fixpoint link_loop_keyword_only (urljoin : string -> string -> option string)
    (urlparse_path : string -> option string) (base : string)
    (anchors : list anchor) (st : list string * list string)
    : option (list string * list string) :=
  match anchors with
  | [] => Some st
  | a :: rest =>
      match link_step_keyword_only urljoin urlparse_path base st a with
      | None => None
      | Some st' => link_loop_keyword_only urljoin urlparse_path base rest st'
      end
  end.

(** A part of a string: some text before it, some text after. *)
Definition part (p s : string) : Prop :=
  exists pre post, s = (pre ++ p ++ post)%string.

(** An address with a tab (code 9) in its path, and an anchor that
    points to it. *)
Definition tabbed_address : string :=
  ("http://example.nc/de" ++ String (ascii_of_N 9) "tail")%string.

Definition tabbed_anchor : anchor :=
  {| a_href := tabbed_address; a_text := "Voir" |}.

(** ** What the detail extractor reads *)

(** The HTML page [parse_detail] goes on to read: the fetch answered,
    and the answer is not taken for a PDF. *)
Definition html_page (w : world) (url : string) : option response :=
  match safe_get (session_get w url) default_retries with
  | Some r => if is_pdf r url then None else Some r
  | None => None
  end.







(** A page served as HTML, without markup, that reads as given. *)
Definition html_response (body : string) : response :=
  {| status_code := 200; content_type := Some "text/html"; text := body |}.

(** ** The program: the run *)

(** The eleven listing pages of [START_SOURCES], by name and address.
    Three of the names hold a dash U+2013, which is outside the alphabet
    of the model: a hyphen stands for it.  The e acute is 233, the I
    circumflex 206. *)
Definition START_SOURCES : list (string * string) :=
  [(("Portail March" ++ String (ascii_of_N 233) "s Publics NC")%string,
    "https://portail.marchespublics.nc/?page=Entreprise.EntrepriseAdvancedSearch&searchAnnCons");
   ("BOAMP - 988",
    "https://www.boamp.fr/pages/recherche/?refine.code_departement=988");
   ("e-MarchesPublics - NC",
    "https://www.e-marchespublics.com/appel-offre/outre-mer/nouvelle-caledonie/");
   ("Province Sud - AOPs", "https://www.province-sud.nc/aops/");
   ("Province Nord", "https://marchespublics.province-nord.nc/sallemarche.aspx");
   (("Province des " ++ String (ascii_of_N 206) "les")%string,
    "https://www.province-iles.nc/appel-offres");
   ("Mont-Dore", "https://www.mont-dore.nc/marches-publics");
   (("Dumb" ++ String (ascii_of_N 233) "a")%string,
    "https://www.ville-dumbea.nc/dumbea-pratique/marches-publics");
   ("IFAP", "https://www.ifap.nc/consultations");
   ("CCI NC", "https://www.cci.nc/la-cci-nc/appels-d-offres-et-consultations");
   ("UNC", "https://unc.nc/utile/appel-doffres/")].

(** The row handed to the [urls_a_checker] table, line 64. *)
Record source_rec := {
  src_nom : string;
  src_url : string;
  src_actif : bool
}.

(** The Supabase client as the program uses it: two upserts, each of
    which answers with the identifier of the row, or raises ([None]). *)
Record client := {
  upsert_source : source_rec -> option string;   (* on_conflict="url" *)
  upsert_row : appel_rec -> option string        (* on_conflict="detail_url" *)
}.

(** [get_supabase], with [None] when it raises: the [RuntimeError] of
    line 52 when one of the two settings is absent or empty, and on line
    53 whatever [create_client] raises.  [create_client] is the
    library's: it answers with a client or raises. *)
Definition get_supabase (create_client : string -> string -> option client)
    (env_url env_key : option string) : option client :=
  if negb (Str.truthy (Str.or_empty env_url))
     || negb (Str.truthy (Str.or_empty env_key))
  then None
  else create_client (Str.or_empty env_url) (Str.or_empty env_key).

Definition upsert_url_source (db : client) (nom url : string) : option string :=
  upsert_source db {| src_nom := nom; src_url := url; src_actif := true |}.

(** What a run does to the store, and its pauses; of what it prints, the
    line that tells an error. *)
Inductive event :=
| Source_sent (s : source_rec)       (* the upsert of line 63 *)
| Row_sent (r : appel_rec)           (* the upsert of line 94 *)
| Error_printed (u : string)         (* line 271 *)
| Paused.                            (* line 272: DELAY_BETWEEN_REQUESTS *)

Section Run.

Variable sha256_hexdigest : list Byte.byte -> string.
Variable w : world.
Variable db : client.

(** Lines 257-269: the row [main] has [upsert_appel] build for the
    candidate [u]. *)
Definition detail_row (source_id u : string) : appel_rec :=
  let detail := parse_detail w u in
  upsert_appel sha256_hexdigest source_id u
    (Str.or_default (titre detail) "(Sans titre)")
    (organisme detail) (reference detail)
    (date_publication detail) (date_limite detail)
    (Str.or_default (Some (statut detail)) "unknown")
    (extrait detail).

(** Lines 255-272: the loop over the candidates of one source. *)
Fixpoint candidates_loop (source_id : string) (cand : list string) : list event :=
  match cand with
  | [] => []
  | u :: rest =>
      let row := detail_row source_id u in
      match upsert_row db row with
      | Some _ => Row_sent row :: Paused :: candidates_loop source_id rest
      | None =>              (* the exception is caught *)
          Row_sent row :: Error_printed u :: Paused
            :: candidates_loop source_id rest
      end
  end.

(** Lines 249-272: the loop over the sources, with [false] when an
    exception leaves [main]. *)
Fixpoint sources_loop (sources : list (string * string)) : bool * list event :=
  match sources with
  | [] => (true, [])
  | (nom, listing_url) :: rest =>
      let s := {| src_nom := nom; src_url := listing_url; src_actif := true |} in
      match upsert_url_source db nom listing_url with
      | None => (false, [Source_sent s])
      | Some source_id =>
          match find_candidate_links w listing_url with
          | None => (false, [Source_sent s])
          | Some cand =>
              let '(ok, evs) := sources_loop rest in
              (ok, Source_sent s :: candidates_loop source_id cand ++ evs)
          end
      end
  end.

End Run.

(** Lines 245-274: [main], with the two settings read from the
    environment.  The client the loops use is the one [get_supabase]
    answers with; when it raises, nothing else is done. *)
Definition main (sha256_hexdigest : list Byte.byte -> string) (w : world)
    (create_client : string -> string -> option client)
    (env_url env_key : option string) : bool * list event :=
  match get_supabase create_client env_url env_key with
  | None => (false, [])
  | Some sb => sources_loop sha256_hexdigest w sb START_SOURCES
  end.

(** The rows, the sources, the errors and the pauses of a run. *)
Fixpoint rows_sent (evs : list event) : list appel_rec :=
  match evs with
  | [] => []
  | Row_sent r :: rest => r :: rows_sent rest
  | _ :: rest => rows_sent rest
  end.

Fixpoint sources_sent (evs : list event) : list source_rec :=
  match evs with
  | [] => []
  | Source_sent s :: rest => s :: sources_sent rest
  | _ :: rest => sources_sent rest
  end.

Fixpoint errors_printed (evs : list event) : list string :=
  match evs with
  | [] => []
  | Error_printed u :: rest => u :: errors_printed rest
  | _ :: rest => errors_printed rest
  end.

Fixpoint pauses (evs : list event) : nat :=
  match evs with
  | [] => 0
  | Paused :: rest => S (pauses rest)
  | _ :: rest => pauses rest
  end.

(** The row of a source. *)
Definition source_row (s : string * string) : source_rec :=
  {| src_nom := fst s; src_url := snd s; src_actif := true |}.

(** A store that refuses every row, and one that takes every row. *)
Definition store_refusing : client :=
  {| upsert_source := fun s => Some (src_url s); upsert_row := fun _ => None |}.

Definition store_accepting : client :=
  {| upsert_source := fun s => Some (src_url s);
     upsert_row := fun r => Some (rec_detail_url r) |}.

(** ** Texts with and without digits *)

(** A decimal digit somewhere in the string. *)
Fixpoint has_digit (s : string) : bool :=
  match s with
  | EmptyString => false
  | String c s' => Str.isdecimal c || has_digit s'
  end.

(** The string starts with a decimal digit. *)
Definition starts_with_digit (s : string) : bool :=
  match s with
  | EmptyString => false
  | String c _ => Str.isdecimal c
  end.

(** ** One digit for another

    The patterns of the program and the lexer of dateutil do not tell
    one decimal digit from another; [blur] writes 0 for every digit. *)

Definition blur (c : ascii) : ascii := if Str.isdecimal c then "0"%char else c.

Fixpoint blur_string (s : string) : string :=
  match s with
  | EmptyString => EmptyString
  | String c s' => String (blur c) (blur_string s')
  end.

Definition blur_state (st : Re.mstate) : Re.mstate :=
  {| Re.before := option_map blur (Re.before st);
     Re.rest := blur_string (Re.rest st);
     Re.groups := map (fun g => (fst g, blur_string (snd g))) (Re.groups st) |}.

Definition blur_match (m : Re.rmatch) : Re.rmatch :=
  {| Re.m_start := Re.m_start m;
     Re.m_text := blur_string (Re.m_text m);
     Re.m_groups := map (fun g => (fst g, blur_string (snd g))) (Re.m_groups m);
     Re.m_before_rest := option_map blur (Re.m_before_rest m);
     Re.m_rest := blur_string (Re.m_rest m) |}.

(** The 256 characters. *)
Definition all_ascii : list ascii := map ascii_of_nat (seq 0 256).

(** A pattern whose tests give the same answer on a character and on
    its blurred form. *)
Fixpoint digit_blind (ic : bool) (r : Re.node) : bool :=
  match r with
  | Re.Empty => true
  | Re.Boundary => true
  | Re.Lit p =>
      forallb (fun c => Bool.eqb (Re.lit_matches ic p (blur c)) (Re.lit_matches ic p c))
        all_ascii
  | Re.Class negate items =>
      forallb (fun c => Bool.eqb (Re.class_matches ic negate items (blur c))
                          (Re.class_matches ic negate items c))
        all_ascii
  | Re.Cat a b => digit_blind ic a && digit_blind ic b
  | Re.Alt a b => digit_blind ic a && digit_blind ic b
  | Re.Repeat _ _ a => digit_blind ic a
  | Re.Group _ a => digit_blind ic a
  end.

(** The pattern finds the whole of [s], once. *)
Definition whole_match (r : Re.node) (s : string) : bool :=
  match Re.finditer_from (S (String.length s)) true r None s 0 with
  | [m] => Nat.eqb (Re.m_start m) 0 && negb (Str.truthy (Re.m_rest m))
  | _ => false
  end.

(** Two continuations that agree up to the blur. *)
Definition agree (k k' : Re.mstate -> option Re.mstate) : Prop :=
  forall st, k' (blur_state st) = option_map blur_state (k st).

(** ** Dates as they are written *)

(** A run of decimal digits, not empty. *)
Definition digit_run (s : string) : bool :=
  Str.truthy s && Dateutil.all_chars Str.isdecimal s.

(** A number below 100 written without a leading zero. *)
Definition plain2 (n : Z) : string :=
  if (n <? 10)%Z then String (Datetime.digit_char n) EmptyString
  else Datetime.pad2 n.

(** The French names of the months; u circumflex is 251. *)
Definition FRENCH_MONTHS : list string :=
  ["janvier"; "f" ++ String (ascii_of_N 233) "vrier"; "mars"; "avril"; "mai";
   "juin"; "juillet"; "ao" ++ String (ascii_of_N 251) "t"; "septembre";
   "octobre"; "novembre"; "d" ++ String (ascii_of_N 233) "cembre"]%string.

(** The token the lexer makes of a character that is neither a letter
    nor a digit. *)
Definition sep_token (c : ascii) : string :=
  if Str.isspace c then " " else String c EmptyString.

(** A character that ends a number for the lexer and stands alone. *)
Definition plain_sep (c : ascii) : bool :=
  negb (Str.isalpha c) && negb (Str.isdigit c)
  && negb (Dateutil.is_dot c) && negb (Dateutil.is_comma c)
  && negb (Str.code c =? 0)%N.

(** [n] zeros. *)
Fixpoint zeros (n : nat) : string :=
  match n with
  | O => EmptyString
  | S n' => String "0"%char (zeros n')
  end.

(** What the parser asks of a token that is a run of digits: its value
    and its length, and that it is none of the words the parser knows. *)
Definition number_token (t : string) (v : Z) (n : nat) : Prop :=
  Dateutil.classify t = Dateutil.Int v
  /\ Dateutil.int_of t = Some v
  /\ Dateutil.isdigit_str t = true
  /\ String.length t = n
  /\ Dateutil.jump t = false
  /\ Dateutil.hms t = false
  /\ Dateutil.ampm t = false
  /\ Dateutil.month t = None
  /\ String.eqb ":" t = false
  /\ String.eqb " " t = false
  /\ Dateutil.mem t ["-"; "/"; "."] = false.

(** * Properties *)

(** ** The content hash *)

Section HashFacts.

Variable H : list Byte.byte -> string.

Lemma fold_stable_hash_step : forall parts h,
  fold_left stable_hash_step parts h = h ++ hash_input parts.
Proof.
  induction parts as [|p parts IH]; intros h; simpl.
  - now rewrite app_nil_r.
  - rewrite IH. unfold stable_hash_step, sha256_update, hash_input, field_bytes.
    simpl. now rewrite <- !app_assoc.
Qed.

Lemma stable_hash_hash_input : forall parts,
  stable_hash H parts = H (hash_input parts).
Proof.
  intros parts. unfold stable_hash. now rewrite fold_stable_hash_step.
Qed.

End HashFacts.

(** ** The content hash on every Python string *)

Module UnicodeFacts.

Import Unicode.

Local Open Scope N_scope.

Lemma byte_value_of_code : forall k, k < 256 -> byte_value (byte_of_code k) = k.
Proof.
  intros k Hk. unfold byte_value, byte_of_code, Str.code.
  rewrite ascii_of_byte_of_ascii. now apply N_ascii_embedding.
Qed.

Lemma decode_utf8_point : forall n r,
  encodable n = true -> decode_point (utf8_point n ++ r) = Some (n, r).
Proof.
  intros n r Hn. unfold encodable, is_code_point, is_surrogate, Str.between in Hn.
  apply andb_true_iff in Hn as [Hc Hs]. apply N.ltb_lt in Hc.
  unfold utf8_point.
  destruct (n <? 128) eqn:E1.
  { apply N.ltb_lt in E1. cbn [app decode_point].
    rewrite byte_value_of_code by lia.
    apply N.ltb_lt in E1. now rewrite E1. }
  apply N.ltb_ge in E1.
  pose proof (N.div_mod n 64 ltac:(lia)) as D1.
  pose proof (N.mod_lt n 64 ltac:(lia)) as M1.
  pose proof (N.div_mod (n / 64) 64 ltac:(lia)) as D2.
  pose proof (N.mod_lt (n / 64) 64 ltac:(lia)) as M2.
  pose proof (N.div_mod (n / 64 / 64) 64 ltac:(lia)) as D3.
  pose proof (N.mod_lt (n / 64 / 64) 64 ltac:(lia)) as M3.
  assert (Q2 : n / 4096 = n / 64 / 64) by now rewrite N.Div0.div_div.
  assert (Q3 : n / 262144 = n / 64 / 64 / 64) by now rewrite !N.Div0.div_div.
  rewrite Q3, Q2. clear Q2 Q3.
  set (q1 := n / 64) in *. set (r1 := n mod 64) in *.
  set (q2 := q1 / 64) in *. set (r2 := q1 mod 64) in *.
  set (q3 := q2 / 64) in *. set (r3 := q2 mod 64) in *.
  clearbody q3 r3. clearbody q2 r2. clearbody q1 r1.
  destruct (n <? 2048) eqn:E2.
  { apply N.ltb_lt in E2. cbn [app decode_point].
    repeat rewrite byte_value_of_code by lia.
    assert (F1 : (192 + q1 <? 128) = false) by (apply N.ltb_ge; lia).
    assert (F2 : (192 + q1 <? 224) = true) by (apply N.ltb_lt; lia).
    rewrite F1, F2. do 2 f_equal. lia. }
  apply N.ltb_ge in E2.
  destruct (is_surrogate n) eqn:E3;
    [unfold is_surrogate, Str.between in E3; rewrite E3 in Hs; discriminate Hs|].
  destruct (n <? 65536) eqn:E4.
  { apply N.ltb_lt in E4. cbn [app decode_point].
    repeat rewrite byte_value_of_code by lia.
    assert (F1 : (224 + q2 <? 128) = false) by (apply N.ltb_ge; lia).
    assert (F2 : (224 + q2 <? 224) = false) by (apply N.ltb_ge; lia).
    assert (F3 : (224 + q2 <? 240) = true) by (apply N.ltb_lt; lia).
    rewrite F1, F2, F3. do 2 f_equal. lia. }
  apply N.ltb_ge in E4. cbn [app decode_point].
  repeat rewrite byte_value_of_code by lia.
  assert (F1 : (240 + q3 <? 128) = false) by (apply N.ltb_ge; lia).
  assert (F2 : (240 + q3 <? 224) = false) by (apply N.ltb_ge; lia).
  assert (F3 : (240 + q3 <? 240) = false) by (apply N.ltb_ge; lia).
  rewrite F1, F2, F3. do 2 f_equal. lia.
Qed.

(** The encoding can be read back: it tells the code points apart. *)
Lemma encode_utf8_unique : forall s s',
  forallb encodable s = true -> forallb encodable s' = true ->
  encode_utf8 s = encode_utf8 s' -> s = s'.
Proof.
  induction s as [|n s IH]; intros [|n' s'] Hs Hs' E.
  - reflexivity.
  - exfalso. cbn [forallb] in Hs'. apply andb_true_iff in Hs' as [Hn _].
    apply (f_equal decode_point) in E. cbn [encode_utf8] in E.
    rewrite (decode_utf8_point _ _ Hn) in E. discriminate E.
  - exfalso. cbn [forallb] in Hs. apply andb_true_iff in Hs as [Hn _].
    apply (f_equal decode_point) in E. cbn [encode_utf8] in E.
    rewrite (decode_utf8_point _ _ Hn) in E. discriminate E.
  - cbn [forallb] in Hs, Hs'.
    apply andb_true_iff in Hs as [Hn Hs]. apply andb_true_iff in Hs' as [Hn' Hs'].
    apply (f_equal decode_point) in E as E'. cbn [encode_utf8] in E, E'.
    rewrite (decode_utf8_point _ _ Hn), (decode_utf8_point _ _ Hn') in E'.
    injection E' as -> E'. f_equal. now apply IH.
Qed.

Lemma encode_utf8_app : forall a b,
  encode_utf8 (a ++ b) = encode_utf8 a ++ encode_utf8 b.
Proof.
  induction a as [|n a IH]; intros b; [reflexivity|].
  cbn [app encode_utf8]. now rewrite IH, app_assoc.
Qed.

(** The surrogates leave no byte. *)
Lemma encode_utf8_without_surrogates : forall s,
  encode_utf8 (filter (fun n => negb (is_surrogate n)) s) = encode_utf8 s.
Proof.
  induction s as [|n s IH]; [reflexivity|].
  cbn [filter encode_utf8]. destruct (is_surrogate n) eqn:E; cbn [negb].
  - rewrite IH. unfold utf8_point. rewrite E.
    unfold is_surrogate, Str.between in E. apply andb_true_iff in E as [E1 E2].
    apply N.leb_le in E1.
    assert (F1 : (n <? 128) = false) by (apply N.ltb_ge; lia).
    assert (F2 : (n <? 2048) = false) by (apply N.ltb_ge; lia).
    now rewrite F1, F2.
  - cbn [encode_utf8]. now rewrite IH.
Qed.

Lemma field_bytes_hashed : forall p,
  encode_utf8 (strip (or_empty p)) ++ [sep_byte] = encode_utf8 (hashed p ++ [124]).
Proof.
  intros p. rewrite encode_utf8_app. unfold hashed.
  now rewrite encode_utf8_without_surrogates.
Qed.

Lemma hash_input_joined : forall parts,
  hash_input parts = encode_utf8 (joined (map hashed parts)).
Proof.
  induction parts as [|p parts IH]; [reflexivity|].
  unfold hash_input, joined in *. cbn [map concat].
  now rewrite encode_utf8_app, <- field_bytes_hashed, IH.
Qed.

Section Fold.

Variable H : list Byte.byte -> string.

Lemma fold_unicode_step : forall parts h,
  fold_left stable_hash_step parts h = h ++ hash_input parts.
Proof.
  induction parts as [|p parts IH]; intros h; cbn [fold_left].
  - unfold hash_input. cbn. now rewrite app_nil_r.
  - rewrite IH. unfold stable_hash_step, sha256_update, hash_input.
    cbn [map concat]. now rewrite <- !app_assoc.
Qed.

Lemma unicode_hash_input : forall parts,
  stable_hash H parts = H (hash_input parts).
Proof.
  intros parts. unfold stable_hash. now rewrite fold_unicode_step.
Qed.

End Fold.

(** *** Where the fields end *)

Lemma seps_sep_free : forall s, sep_free s = true -> seps s = 0%nat.
Proof.
  induction s as [|n s IH]; intros Hs; [reflexivity|].
  cbn [sep_free forallb] in Hs. apply andb_true_iff in Hs as [Hn Hs].
  unfold seps in *. cbn [count_occ].
  destruct (N.eq_dec n 124) as [->|_]; [discriminate Hn|]. now apply IH.
Qed.

Lemma seps_app : forall a b, seps (a ++ b) = (seps a + seps b)%nat.
Proof. intros a b. apply count_occ_app. Qed.

Lemma seps_joined_least : forall hs, (List.length hs <= seps (joined hs))%nat.
Proof.
  induction hs as [|h hs IH]; [apply le_n|].
  unfold joined in *. cbn [map concat List.length].
  rewrite !seps_app. change (seps [124]) with 1%nat. lia.
Qed.

Lemma seps_joined_sep_free : forall hs,
  forallb sep_free hs = true -> seps (joined hs) = List.length hs.
Proof.
  induction hs as [|h hs IH]; intros Hs; [reflexivity|].
  cbn [forallb] in Hs. apply andb_true_iff in Hs as [Hh Hs].
  unfold joined in *. cbn [map concat List.length].
  rewrite !seps_app, (seps_sep_free _ Hh), (IH Hs).
  change (seps [124]) with 1%nat. lia.
Qed.

(** A field without separator ends at the first separator. *)
Lemma first_field : forall h h' r r',
  sep_free h = true ->
  h ++ 124 :: r = h' ++ 124 :: r' ->
  (h = h' /\ r = r') \/ exists x, h' = h ++ 124 :: x /\ r = x ++ 124 :: r'.
Proof.
  induction h as [|n h IH]; intros [|n' h'] r r' Hh E; cbn [app] in E.
  - left. injection E as ->. auto.
  - right. injection E as <- ->. exists h'. auto.
  - exfalso. injection E as -> _. discriminate Hh.
  - injection E as <- E. cbn [sep_free forallb] in Hh.
    apply andb_true_iff in Hh as [_ Hh].
    destruct (IH h' r r' Hh E) as [[-> ->] | [x [-> ->]]].
    + left. auto.
    + right. exists x. auto.
Qed.

(** As many fields, none of them with a separator on one side: the
    joined string tells the fields. *)
Lemma joined_unique : forall hs hs',
  List.length hs = List.length hs' ->
  forallb sep_free hs = true ->
  joined hs = joined hs' -> hs = hs'.
Proof.
  induction hs as [|h hs IH]; intros [|h' hs'] Hl Hs E; try discriminate Hl.
  - reflexivity.
  - cbn [forallb] in Hs. apply andb_true_iff in Hs as [Hh Hs].
    injection Hl as Hl.
    unfold joined in E. cbn [map concat] in E. rewrite <- !app_assoc in E.
    cbn [app] in E. fold (joined hs) in E. fold (joined hs') in E.
    destruct (first_field _ _ _ _ Hh E) as [[-> Er] | [x [_ Er]]].
    + f_equal. now apply IH.
    + exfalso. change (124 :: joined hs') with ([124] ++ joined hs') in Er.
      apply (f_equal seps) in Er.
      rewrite (seps_joined_sep_free _ Hs), !seps_app in Er.
      change (seps [124]) with 1%nat in Er.
      pose proof (seps_joined_least hs') as Hm. lia.
Qed.

(** *** The hashed forms have an encoding *)

Lemma forallb_lstrip : forall P s, forallb P s = true -> forallb P (lstrip s) = true.
Proof.
  intros P. induction s as [|n s IH]; intros Hs; [reflexivity|].
  cbn [lstrip]. destruct (isspace_code n); [|exact Hs].
  cbn [forallb] in Hs. apply andb_true_iff in Hs as [_ Hs]. now apply IH.
Qed.

Lemma forallb_rstrip : forall P s, forallb P s = true -> forallb P (rstrip s) = true.
Proof.
  intros P. induction s as [|n s IH]; intros Hs; [reflexivity|].
  cbn [forallb] in Hs. apply andb_true_iff in Hs as [Hn Hs].
  cbn [rstrip]. specialize (IH Hs). destruct (rstrip s) as [|m r].
  - destruct (isspace_code n); [reflexivity|]. cbn [forallb]. now rewrite Hn.
  - cbn [forallb] in *. now rewrite Hn, IH.
Qed.

Lemma hashed_encodable : forall p,
  well_formed p = true -> forallb encodable (hashed p) = true.
Proof.
  intros p Hp. unfold hashed.
  assert (Hs : forallb is_code_point (strip (or_empty p)) = true).
  { unfold strip. apply forallb_rstrip, forallb_lstrip.
    destruct p as [s|]; [exact Hp|reflexivity]. }
  induction (strip (or_empty p)) as [|n s IH]; [reflexivity|].
  cbn [forallb] in Hs. apply andb_true_iff in Hs as [Hn Hs].
  cbn [filter]. destruct (is_surrogate n) eqn:E; cbn [negb]; [now apply IH|].
  cbn [forallb]. unfold encodable at 1. rewrite Hn, E. now apply IH.
Qed.

Lemma joined_encodable : forall parts,
  forallb well_formed parts = true ->
  forallb encodable (joined (map hashed parts)) = true.
Proof.
  induction parts as [|p parts IH]; intros Hp; [reflexivity|].
  cbn [forallb] in Hp. apply andb_true_iff in Hp as [Hp Hps].
  unfold joined in *. cbn [map concat]. rewrite !forallb_app.
  rewrite (hashed_encodable _ Hp), (IH Hps). reflexivity.
Qed.

(** The hashed bytes tell the hashed forms of the fields, when one of
    the two lists holds no separator. *)
Lemma unicode_hash_input_unique : forall ps qs,
  List.length ps = List.length qs ->
  forallb well_formed ps = true -> forallb well_formed qs = true ->
  forallb sep_free (map hashed ps) = true ->
  hash_input ps = hash_input qs ->
  map hashed ps = map hashed qs.
Proof.
  intros ps qs Hl Hp Hq Hs E. rewrite !hash_input_joined in E.
  apply encode_utf8_unique in E; try now apply joined_encodable.
  apply joined_unique; [now rewrite !length_map|exact Hs|exact E].
Qed.

End UnicodeFacts.

(** *** The strings of the model among the Python strings *)

Lemma utf8_point_code : forall c, Unicode.utf8_point (Str.code c) = utf8_char c.
Proof. intros c. destruct c as [[] [] [] [] [] [] [] []]; reflexivity. Qed.

Lemma encode_utf8_of_string : forall s,
  Unicode.encode_utf8 (Unicode.of_string s) = encode_utf8 s.
Proof.
  induction s as [|c s IH]; [reflexivity|].
  cbn [Unicode.of_string Unicode.encode_utf8 encode_utf8].
  now rewrite utf8_point_code, IH.
Qed.

Lemma isspace_code_code : forall c,
  Unicode.isspace_code (Str.code c) = Str.isspace c.
Proof. intros c. destruct c as [[] [] [] [] [] [] [] []]; reflexivity. Qed.

Lemma lstrip_of_string : forall s,
  Unicode.lstrip (Unicode.of_string s) = Unicode.of_string (Str.lstrip s).
Proof.
  induction s as [|c s IH]; [reflexivity|].
  cbn [Unicode.of_string Unicode.lstrip Str.lstrip]. rewrite isspace_code_code.
  destruct (Str.isspace c); [exact IH|reflexivity].
Qed.

Lemma rstrip_of_string : forall s,
  Unicode.rstrip (Unicode.of_string s) = Unicode.of_string (Str.rstrip s).
Proof.
  induction s as [|c s IH]; [reflexivity|].
  cbn [Unicode.of_string Unicode.rstrip Str.rstrip].
  rewrite IH, isspace_code_code.
  destruct (Str.rstrip s) as [|d r]; cbn [Unicode.of_string].
  - destruct (Str.isspace c); reflexivity.
  - reflexivity.
Qed.

Lemma strip_of_string : forall s,
  Unicode.strip (Unicode.of_string s) = Unicode.of_string (Str.strip s).
Proof.
  intros s. unfold Unicode.strip, Str.strip.
  now rewrite lstrip_of_string, rstrip_of_string.
Qed.

(** On the strings of the model the two embeddings of [stable_hash] feed
    the same bytes to the hash. *)
Lemma hash_input_of_field : forall parts,
  Unicode.hash_input (map Unicode.of_field parts) = hash_input parts.
Proof.
  induction parts as [|p parts IH]; [reflexivity|].
  unfold Unicode.hash_input, hash_input in *. cbn [map concat].
  rewrite IH. f_equal. unfold field_bytes. f_equal.
  destruct p as [s|]; cbn [Unicode.of_field option_map Unicode.or_empty Str.or_empty].
  - now rewrite strip_of_string, encode_utf8_of_string.
  - reflexivity.
Qed.

(** A string of the model holds no surrogate: the hashed form of a field
    is its trimmed form. *)
Lemma hashed_of_field : forall p : option string,
  Unicode.hashed (Unicode.of_field p) = Unicode.of_string (trimmed p).
Proof.
  intros p. unfold Unicode.hashed, trimmed.
  replace (Unicode.or_empty (Unicode.of_field p))
    with (Unicode.of_string (Str.or_empty p)) by now destruct p.
  rewrite strip_of_string.
  induction (Str.strip (Str.or_empty p)) as [|c s IH]; [reflexivity|].
  cbn [Unicode.of_string filter].
  replace (Unicode.is_surrogate (Str.code c)) with false
    by (destruct c as [[] [] [] [] [] [] [] []]; reflexivity).
  cbn [negb]. now rewrite IH.
Qed.

(** C1 (amended).  The fingerprint is the digest of the byte string
    [Unicode.hash_input], in which every field stands by the UTF-8 bytes
    of its hashed form followed by ["|"]; the hashed form is the string
    form (absent counts as empty) trimmed of the white space around it,
    without the surrogates, which have no encoding and are left out.
    Two tuples with the same hashed forms have the same fingerprint.  A
    tuple whose hashed forms hold no ["|"] is hashed from other bytes
    than every tuple with other hashed forms, whether these hold a
    ["|"] or not; the fields are Python strings, of code points up to
    U+10FFFF.  On the strings of the model (code points below 256) this
    is the fingerprint [upsert_appel] stores, and the hashed form of a
    field is its trimmed form. *)
Theorem fingerprint_of_hashed_fields :
  forall (H : list Byte.byte -> string)
         (t o u p d e t' o' u' p' d' e' : option Unicode.str),
    let f := [t; o; u; p; d; e] in
    let f' := [t'; o'; u'; p'; d'; e'] in
    Unicode.fingerprint H t o u p d e = H (Unicode.hash_input f)
    /\ (map Unicode.hashed f = map Unicode.hashed f' ->
        Unicode.fingerprint H t o u p d e = Unicode.fingerprint H t' o' u' p' d' e')
    /\ (forallb Unicode.well_formed f = true ->
        forallb Unicode.well_formed f' = true ->
        forallb Unicode.sep_free (map Unicode.hashed f) = true ->
        map Unicode.hashed f <> map Unicode.hashed f' ->
        Unicode.hash_input f <> Unicode.hash_input f')
    /\ (forall a b c x y z : option string,
          fingerprint H a b c x y z
          = Unicode.fingerprint H
              (Unicode.of_field a) (Unicode.of_field b) (Unicode.of_field c)
              (Unicode.of_field x) (Unicode.of_field y) (Unicode.of_field z))
    /\ (forall a : option string,
          Unicode.hashed (Unicode.of_field a) = Unicode.of_string (trimmed a)).
Proof.
  intros H t o u p d e t' o' u' p' d' e' f f'.
  split; [|split; [|split; [|split]]].
  - apply UnicodeFacts.unicode_hash_input.
  - intros E. unfold Unicode.fingerprint.
    rewrite !UnicodeFacts.unicode_hash_input. fold f f'.
    now rewrite !UnicodeFacts.hash_input_joined, E.
  - intros Hf Hf' Hs Hne E. apply Hne.
    now apply UnicodeFacts.unicode_hash_input_unique.
  - intros a b c x y z. unfold fingerprint, Unicode.fingerprint.
    rewrite stable_hash_hash_input, UnicodeFacts.unicode_hash_input.
    now rewrite <- hash_input_of_field.
  - exact hashed_of_field.
Qed.

Lemma fingerprint_of_hashed_fields_witness :
  (forall H : list Byte.byte -> string,
      Unicode.fingerprint H
        (Some (Unicode.of_string " Avis de march ")) None
        (Some (Unicode.of_string "https://example.nc/avis/1"))
        None None (Some [55296%N])
      = Unicode.fingerprint H
          (Some (Unicode.of_string "Avis de march")) (Some [])
          (Some (Unicode.of_string "https://example.nc/avis/1"))
          None None None)
  /\ Unicode.hash_input
       [Some (Unicode.of_string "Avis"); Some (Unicode.of_string "Mairie");
        Some (Unicode.of_string "u"); None; None; None]
     <> Unicode.hash_input
          [Some (Unicode.of_string "Avis"); Some (Unicode.of_string "Mairie|");
           Some (Unicode.of_string "u|v"); None; None; None].
Proof.
  split.
  - intros H.
    apply (proj1 (proj2 (fingerprint_of_hashed_fields H
             (Some (Unicode.of_string " Avis de march ")) None
             (Some (Unicode.of_string "https://example.nc/avis/1"))
             None None (Some [55296%N])
             (Some (Unicode.of_string "Avis de march")) (Some [])
             (Some (Unicode.of_string "https://example.nc/avis/1"))
             None None None))).
    reflexivity.
  - apply (proj1 (proj2 (proj2 (fingerprint_of_hashed_fields (fun _ => EmptyString)
             (Some (Unicode.of_string "Avis")) (Some (Unicode.of_string "Mairie"))
             (Some (Unicode.of_string "u")) None None None
             (Some (Unicode.of_string "Avis")) (Some (Unicode.of_string "Mairie|"))
             (Some (Unicode.of_string "u|v")) None None None)))).
    + reflexivity.
    + reflexivity.
    + reflexivity.
    + discriminate.
Defined.

(** C1 as stated fails: a field changed by a space, or from absent to
    empty, or by a surrogate, leaves the digest as it was, and so does
    moving a ["|"] from the end of one field to the start of the next;
    this whatever the hash function is. *)
Lemma fingerprint_collisions :
  Unicode.same_digest
    [Some (Unicode.of_string "Avis"); None;
     Some (Unicode.of_string "https://example.nc/avis/1"); None; None; None]
    [Some (Unicode.of_string "Avis "); None;
     Some (Unicode.of_string "https://example.nc/avis/1"); None; None; None]
  /\ Unicode.same_digest
       [Some (Unicode.of_string "Avis"); None;
        Some (Unicode.of_string "https://example.nc/avis/1"); None; None; None]
       [Some (Unicode.of_string "Avis"); Some [];
        Some (Unicode.of_string "https://example.nc/avis/1"); None; None; None]
  /\ Unicode.same_digest
       [Some (Unicode.of_string "Avis"); None;
        Some (Unicode.of_string "https://example.nc/avis/1"); None; None; None]
       [Some (Unicode.of_string "Avis" ++ [55296%N]); None;
        Some (Unicode.of_string "https://example.nc/avis/1"); None; None; None]
  /\ Unicode.same_digest
       [Some (Unicode.of_string "a|"); Some (Unicode.of_string "b");
        Some (Unicode.of_string "u"); None; None; None]
       [Some (Unicode.of_string "a"); Some (Unicode.of_string "|b");
        Some (Unicode.of_string "u"); None; None; None].
Proof.
  repeat split; intros H; rewrite !UnicodeFacts.unicode_hash_input; reflexivity.
Qed.


(** ** Dates and their ISO form *)

Module DateFacts.

Import Datetime.
Local Open Scope Z_scope.

Lemma date_eq : forall y m d (H1 H2 : valid_ymd y m d = true),
  mkdate y m d H1 = mkdate y m d H2.
Proof.
  intros. f_equal. apply UIP_dec. apply Bool.bool_dec.
Qed.

Lemma date_ext : forall a b : date,
  year a = year b -> month a = month b -> day a = day b -> a = b.
Proof.
  intros [y m d H1] [y' m' d' H2]; simpl; intros -> -> ->. apply date_eq.
Qed.

Lemma make_date_if_valid : forall y m d b (E : valid_ymd y m d = b)
    (H : valid_ymd y m d = true),
  make_date_if y m d b E = Some (mkdate y m d H).
Proof.
  intros y m d b E H. destruct b; simpl.
  - f_equal. apply date_eq.
  - congruence.
Qed.

Lemma make_date_of_date : forall dt : date,
  make_date (year dt) (month dt) (day dt) = Some dt.
Proof.
  intros [y m d H]. simpl. unfold make_date. apply make_date_if_valid.
Qed.

Lemma make_date_if_fields : forall y m d b (E : valid_ymd y m d = b) dt,
  make_date_if y m d b E = Some dt -> year dt = y /\ month dt = m /\ day dt = d.
Proof.
  intros y m d b E dt. destruct b; simpl; [|discriminate].
  intros [= <-]. simpl. auto.
Qed.

Lemma make_date_fields : forall y m d dt,
  make_date y m d = Some dt -> year dt = y /\ month dt = m /\ day dt = d.
Proof.
  intros y m d dt. unfold make_date. apply make_date_if_fields.
Qed.

(** The bounds a date gives on its fields. *)
Lemma date_bounds : forall dt : date,
  1 <= year dt <= 9999 /\ 1 <= month dt <= 12 /\ 1 <= day dt <= 31.
Proof.
  intros [y m d H]. simpl. unfold valid_ymd in H.
  repeat (apply andb_true_iff in H; destruct H as [H ?]).
  assert (days_in_month y m <= 31).
  { unfold days_in_month.
    repeat match goal with |- context [if ?b then _ else _] => destruct b end; lia. }
  lia.
Qed.

(** [date_leb] is the order of the triples. *)
Lemma date_leb_compare : forall a b,
  date_leb a b = match date_compare a b with Gt => false | _ => true end.
Proof.
  intros a b. unfold date_leb, date_compare.
  destruct (Z.compare_spec (year a) (year b));
    destruct (Z.compare_spec (month a) (month b));
    destruct (Z.compare_spec (day a) (day b));
    repeat match goal with
           | |- context [?x <? ?y] => destruct (Z.ltb_spec x y)
           | |- context [?x =? ?y] => destruct (Z.eqb_spec x y)
           | |- context [?x <=? ?y] => destruct (Z.leb_spec x y)
           end; simpl; try reflexivity; lia.
Qed.

Lemma date_leb_refl : forall a, date_leb a a = true.
Proof.
  intros a. rewrite date_leb_compare. unfold date_compare.
  now rewrite !Z.compare_refl.
Qed.

Lemma date_leb_antisym : forall a b,
  date_leb a b = true -> date_leb b a = true -> a = b.
Proof.
  intros a b. unfold date_leb. intros H1 H2. apply date_ext;
    repeat match goal with
           | H : context [?x <? ?y] |- _ => destruct (Z.ltb_spec x y)
           | H : context [?x =? ?y] |- _ => destruct (Z.eqb_spec x y)
           | H : context [?x <=? ?y] |- _ => destruct (Z.leb_spec x y)
           end; simpl in *; try discriminate; lia.
Qed.

(** One decimal digit as a character. *)
Lemma digit_compare : forall a b,
  0 <= a <= 9 -> 0 <= b <= 9 ->
  Ascii.compare (digit_char a) (digit_char b) = (a ?= b).
Proof.
  intros a b Ha Hb.
  assert (A : a = 0 \/ a = 1 \/ a = 2 \/ a = 3 \/ a = 4 \/ a = 5 \/ a = 6
              \/ a = 7 \/ a = 8 \/ a = 9) by lia.
  assert (B : b = 0 \/ b = 1 \/ b = 2 \/ b = 3 \/ b = 4 \/ b = 5 \/ b = 6
              \/ b = 7 \/ b = 8 \/ b = 9) by lia.
  repeat (destruct A as [->|A]); try subst a;
    repeat (destruct B as [->|B]); try subst b; reflexivity.
Qed.

Lemma digit_val_char : forall a, 0 <= a <= 9 -> digit_val (digit_char a) = Some a.
Proof.
  intros a Ha.
  assert (A : a = 0 \/ a = 1 \/ a = 2 \/ a = 3 \/ a = 4 \/ a = 5 \/ a = 6
              \/ a = 7 \/ a = 8 \/ a = 9) by lia.
  repeat (destruct A as [->|A]); try subst a; reflexivity.
Qed.

Lemma digit_range : forall n, 0 <= n mod 10 <= 9.
Proof. intros n. pose proof (Z.mod_pos_bound n 10). lia. Qed.

Lemma digits4_value : forall y, 0 <= y <= 9999 ->
  1000 * (y / 1000 mod 10) + 100 * (y / 100 mod 10) + 10 * (y / 10 mod 10) + y mod 10 = y.
Proof. intros y Hy. Z.div_mod_to_equations. lia. Qed.

Lemma digits2_value : forall n, 0 <= n <= 99 ->
  10 * (n / 10 mod 10) + n mod 10 = n.
Proof. intros n Hn. Z.div_mod_to_equations. lia. Qed.

Ltac split_compare :=
  repeat match goal with
         | |- context [?x ?= ?y] => destruct (Z.compare_spec x y)
         end;
  try reflexivity; exfalso; lia.

Lemma lex_digits2 : forall a1 a0 b1 b0 (K : comparison),
  0 <= a1 <= 9 -> 0 <= a0 <= 9 -> 0 <= b1 <= 9 -> 0 <= b0 <= 9 ->
  match a1 ?= b1 with
  | Eq => match a0 ?= b0 with Eq => K | c => c end
  | c => c
  end
  = match 10 * a1 + a0 ?= 10 * b1 + b0 with Eq => K | c => c end.
Proof.
  intros a1 a0 b1 b0 K H1 H2 H3 H4. split_compare.
Qed.

Lemma lex_digits4 : forall a3 a2 a1 a0 b3 b2 b1 b0 (K : comparison),
  0 <= a3 <= 9 -> 0 <= a2 <= 9 -> 0 <= a1 <= 9 -> 0 <= a0 <= 9 ->
  0 <= b3 <= 9 -> 0 <= b2 <= 9 -> 0 <= b1 <= 9 -> 0 <= b0 <= 9 ->
  match a3 ?= b3 with
  | Eq => match a2 ?= b2 with
          | Eq => match a1 ?= b1 with
                  | Eq => match a0 ?= b0 with Eq => K | c => c end
                  | c => c
                  end
          | c => c
          end
  | c => c
  end
  = match 1000 * a3 + 100 * a2 + 10 * a1 + a0
          ?= 1000 * b3 + 100 * b2 + 10 * b1 + b0 with
    | Eq => K
    | c => c
    end.
Proof.
  intros a3 a2 a1 a0 b3 b2 b1 b0 K H1 H2 H3 H4 H5 H6 H7 H8.
  rewrite (lex_digits2 a1 a0 b1 b0 K) by assumption. split_compare.
Qed.

(** The ten characters of an ISO date. *)
Lemma isoformat_chars : forall dt,
  isoformat dt =
  String (digit_char (year dt / 1000 mod 10))
   (String (digit_char (year dt / 100 mod 10))
    (String (digit_char (year dt / 10 mod 10))
     (String (digit_char (year dt mod 10))
      (String "-"%char
       (String (digit_char (month dt / 10 mod 10))
        (String (digit_char (month dt mod 10))
         (String "-"%char
          (String (digit_char (day dt / 10 mod 10))
           (String (digit_char (day dt mod 10)) EmptyString))))))))).
Proof. reflexivity. Qed.

(** Strings of ISO dates compare as the dates do. *)
Lemma isoformat_compare : forall a b,
  String.compare (isoformat a) (isoformat b) = date_compare a b.
Proof.
  intros a b. rewrite !isoformat_chars.
  pose proof (date_bounds a) as Ba. pose proof (date_bounds b) as Bb.
  cbn [String.compare].
  rewrite !digit_compare by apply digit_range.
  change (Ascii.compare "-" "-") with Eq. cbv iota.
  rewrite lex_digits4 by apply digit_range.
  rewrite !digits4_value by lia.
  unfold date_compare.
  destruct (year a ?= year b); try reflexivity.
  rewrite lex_digits2 by apply digit_range.
  rewrite !digits2_value by lia.
  destruct (month a ?= month b); try reflexivity.
  rewrite (lex_digits2 _ _ _ _ Eq) by apply digit_range.
  rewrite !digits2_value by lia.
  destruct (day a ?= day b); reflexivity.
Qed.

Lemma isoformat_leb : forall a b,
  String.leb (isoformat a) (isoformat b) = date_leb a b.
Proof.
  intros a b. unfold String.leb. rewrite isoformat_compare.
  now rewrite date_leb_compare.
Qed.

Lemma isoformat_inj : forall a b, isoformat a = isoformat b -> a = b.
Proof.
  intros a b E. apply date_leb_antisym; rewrite <- isoformat_leb, E;
    rewrite isoformat_leb; apply date_leb_refl.
Qed.

Lemma isoformat_truthy : forall dt, Str.truthy (isoformat dt) = true.
Proof. intros dt. now rewrite isoformat_chars. Qed.

(** Reading an ISO date back gives the date. *)
Lemma fromisoformat_isoformat : forall dt, fromisoformat (isoformat dt) = Some dt.
Proof.
  intros dt. rewrite isoformat_chars.
  pose proof (date_bounds dt) as B.
  unfold fromisoformat. change (Str.code "-" =? 45)%N with true. cbv iota.
  cbn [andb]. unfold number4, number2.
  rewrite !digit_val_char by apply digit_range.
  replace (100 * (10 * (year dt / 1000 mod 10) + year dt / 100 mod 10)
           + (10 * (year dt / 10 mod 10) + year dt mod 10)) with (year dt)
    by (rewrite <- (digits4_value (year dt)) at 1 by lia; ring).
  rewrite !digits2_value by lia.
  apply make_date_of_date.
Qed.

End DateFacts.

(** ** Sorting strings *)

Module SortFacts.

Lemma leb_trans : forall s1 s2 s3,
  String.leb s1 s2 = true -> String.leb s2 s3 = true -> String.leb s1 s3 = true.
Proof.
  unfold String.leb.
  induction s1 as [|c1 s1 IH]; intros [|c2 s2] [|c3 s3]; simpl; try easy.
  unfold Ascii.compare.
  destruct (N.compare_spec (N_of_ascii c1) (N_of_ascii c2)) as [E12|L12|G12];
    destruct (N.compare_spec (N_of_ascii c2) (N_of_ascii c3)) as [E23|L23|G23];
    destruct (N.compare_spec (N_of_ascii c1) (N_of_ascii c3)) as [E13|L13|G13];
    try easy; try lia.
  apply IH.
Qed.

Lemma leb_refl : forall s, String.leb s s = true.
Proof.
  intros s. destruct (String.leb_total s s); assumption.
Qed.

Lemma insert_sorted_perm : forall x l, Permutation (insert_sorted x l) (x :: l).
Proof.
  induction l as [|y l IH]; simpl.
  - apply Permutation_refl.
  - destruct (String.leb x y).
    + apply Permutation_refl.
    + apply Permutation_trans with (y :: x :: l).
      * now apply perm_skip.
      * apply perm_swap.
Qed.

Lemma list_sort_perm : forall l, Permutation (list_sort l) l.
Proof.
  induction l as [|x l IH]; simpl.
  - apply perm_nil.
  - apply Permutation_trans with (x :: list_sort l).
    + apply insert_sorted_perm.
    + now apply perm_skip.
Qed.

Lemma insert_sorted_sorted : forall x l,
  StronglySorted le_string l -> StronglySorted le_string (insert_sorted x l).
Proof.
  induction l as [|y l IH]; intros Hs; simpl.
  - constructor; constructor.
  - inversion Hs as [|? ? Hl Hy]; subst.
    destruct (String.leb x y) eqn:E.
    + constructor; [assumption|]. constructor; [exact E|].
      eapply Forall_impl; [|exact Hy]. intros z Hz.
      unfold le_string in *. eapply leb_trans; eassumption.
    + constructor; [now apply IH|].
      assert (Hyx : le_string y x).
      { unfold le_string. destruct (String.leb_total x y); congruence. }
      apply (Permutation_Forall (Permutation_sym (insert_sorted_perm x l))).
      constructor; assumption.
Qed.

Lemma list_sort_sorted : forall l, StronglySorted le_string (list_sort l).
Proof.
  induction l as [|x l IH]; simpl.
  - constructor.
  - now apply insert_sorted_sorted.
Qed.

Lemma hd_in : forall (l : list string) d, l <> [] -> In (hd d l) l.
Proof. intros [|x l] d H; [congruence|now left]. Qed.

Lemma last_in : forall (l : list string) d, l <> [] -> In (last l d) l.
Proof.
  intros l d H. destruct (exists_last H) as [l' [a E]]. rewrite E, last_last.
  apply in_or_app. right. now left.
Qed.

(** In a sorted list the head is below everything and the last element
    above everything. *)
Lemma sorted_hd_least : forall l d x,
  StronglySorted le_string l -> In x l -> le_string (hd d l) x.
Proof.
  intros [|y l] d x Hs Hx; [contradiction|]. simpl.
  inversion Hs as [|? ? _ Hy]; subst. destruct Hx as [<-|Hx].
  - apply leb_refl.
  - rewrite Forall_forall in Hy. now apply Hy.
Qed.

Lemma sorted_last_greatest : forall l d x,
  StronglySorted le_string l -> In x l -> le_string x (last l d).
Proof.
  induction l as [|y l IH]; intros d x Hs Hx; [contradiction|].
  inversion Hs as [|? ? Hl Hy]; subst.
  destruct l as [|z l].
  - destruct Hx as [<-|[]]. apply leb_refl.
  - change (last (y :: z :: l) d) with (last (z :: l) d).
    destruct Hx as [<-|Hx].
    + rewrite Forall_forall in Hy. apply Hy. apply last_in. discriminate.
    + now apply IH.
Qed.

Lemma list_sort_length : forall l, List.length (list_sort l) = List.length l.
Proof. intros l. apply Permutation_length, list_sort_perm. Qed.

End SortFacts.

(** ** The date extractor *)

Section DateExtractorFacts.

Variable dateparse : string -> option Datetime.date.

Lemma parsed_dates_values : forall patt,
  parsed_dates dateparse patt = map Datetime.isoformat (parsed_values dateparse patt).
Proof.
  induction patt as [|d patt IH]; simpl; [reflexivity|].
  destruct (dateparse d); simpl; now rewrite IH.
Qed.

(** What the first branch of [parse_dates_from_text] returns, in terms of
    the dates that parsed. *)
Lemma sorted_extremes : forall ds : list Datetime.date,
  ds <> [] ->
  let l := list_sort (map Datetime.isoformat ds) in
  exists dmin dmax,
    In dmin ds /\ In dmax ds
    /\ hd EmptyString l = Datetime.isoformat dmin
    /\ last l EmptyString = Datetime.isoformat dmax
    /\ (forall d, In d ds ->
          Datetime.date_leb dmin d = true /\ Datetime.date_leb d dmax = true).
Proof.
  intros ds Hne l.
  assert (Hl : l <> []).
  { intros E. apply (f_equal (@List.length string)) in E.
    unfold l in E. rewrite SortFacts.list_sort_length, length_map in E.
    destruct ds; [congruence|discriminate]. }
  assert (Hin : forall x, In x l -> exists d, Datetime.isoformat d = x /\ In d ds).
  { intros x Hx. apply in_map_iff.
    apply (Permutation_in _ (SortFacts.list_sort_perm _)). exact Hx. }
  destruct (Hin _ (SortFacts.hd_in l EmptyString Hl)) as [dmin [Emin Imin]].
  destruct (Hin _ (SortFacts.last_in l EmptyString Hl)) as [dmax [Emax Imax]].
  exists dmin, dmax. repeat split; auto.
  - rewrite <- DateFacts.isoformat_leb, Emin.
    apply SortFacts.sorted_hd_least; [apply SortFacts.list_sort_sorted|].
    apply (Permutation_in _ (Permutation_sym (SortFacts.list_sort_perm _))).
    now apply in_map.
  - rewrite <- DateFacts.isoformat_leb, Emax.
    apply SortFacts.sorted_last_greatest; [apply SortFacts.list_sort_sorted|].
    apply (Permutation_in _ (Permutation_sym (SortFacts.list_sort_perm _))).
    now apply in_map.
Qed.

Lemma first_branch_shape : forall (parsed : list string)
    (fallback : option string * option string),
  parsed <> [] ->
  match parsed with
  | _ :: _ =>
      let parsed := list_sort parsed in
      let pub := hd EmptyString parsed in
      let lim := if Nat.ltb 1 (List.length parsed)
                 then Some (last parsed EmptyString) else None in
      (Some pub, lim)
  | [] => fallback
  end
  = (Some (hd EmptyString (list_sort parsed)),
     if Nat.ltb 1 (List.length parsed)
     then Some (last (list_sort parsed) EmptyString) else None).
Proof.
  intros parsed fallback Hne. destruct parsed as [|x parsed]; [congruence|].
  cbv zeta. now rewrite SortFacts.list_sort_length.
Qed.

Lemma parse_dates_first_branch : forall text,
  parsed_values dateparse (Re.findall true DATE_PATTERN text) <> [] ->
  parse_dates_from_text dateparse text
  = (Some (hd EmptyString
             (list_sort (map Datetime.isoformat
                (parsed_values dateparse (Re.findall true DATE_PATTERN text))))),
     if Nat.ltb 1 (List.length
                     (parsed_values dateparse (Re.findall true DATE_PATTERN text)))
     then Some (last (list_sort (map Datetime.isoformat
                  (parsed_values dateparse (Re.findall true DATE_PATTERN text))))
                  EmptyString)
     else None).
Proof.
  intros text Hne. unfold parse_dates_from_text. cbv zeta.
  rewrite parsed_dates_values, first_branch_shape.
  - now rewrite length_map.
  - intros E. apply map_eq_nil in E. contradiction.
Qed.

Lemma parse_dates_second_branch : forall text,
  parsed_values dateparse (Re.findall true DATE_PATTERN text) = [] ->
  parse_dates_from_text dateparse text = labeled_deadline dateparse text.
Proof.
  intros text E. unfold parse_dates_from_text.
  now rewrite parsed_dates_values, E.
Qed.

End DateExtractorFacts.

(** C2 (amended).  When one or more date-shaped substrings parse, the
    publication date is the earliest of the parsed dates in calendar
    order, and the deadline is the latest of them when more than one
    substring parsed, whether or not their dates differ, else absent: one
    parsed substring gives no deadline, and a date written several times
    is returned as publication date and as deadline. *)
Theorem parse_dates_earliest_latest :
  forall (dateparse : string -> option Datetime.date) (text : string),
    let ds := parsed_values dateparse (Re.findall true DATE_PATTERN text) in
    ds <> [] ->
    (exists dmin dmax,
        In dmin ds /\ In dmax ds
        /\ (forall d, In d ds ->
              Datetime.date_leb dmin d = true /\ Datetime.date_leb d dmax = true)
        /\ parse_dates_from_text dateparse text
           = (Some (Datetime.isoformat dmin),
              if Nat.ltb 1 (List.length ds)
              then Some (Datetime.isoformat dmax) else None))
    /\ (List.length ds = 1%nat ->
        snd (parse_dates_from_text dateparse text) = None)
    /\ (forall d, (forall x, In x ds -> x = d) -> (1 < List.length ds)%nat ->
        parse_dates_from_text dateparse text
        = (Some (Datetime.isoformat d), Some (Datetime.isoformat d))).
Proof.
  intros dateparse text ds Hne.
  pose proof (parse_dates_first_branch dateparse text Hne) as E. fold ds in E.
  destruct (sorted_extremes ds Hne) as [dmin [dmax [Imin [Imax [Ehd [Elast Hall]]]]]].
  cbv zeta in Ehd, Elast. rewrite Ehd, Elast in E.
  split; [|split].
  - exists dmin, dmax. auto.
  - intros Hlen. rewrite E, Hlen. reflexivity.
  - intros d Hd Hlen. rewrite E.
    rewrite (Hd dmin Imin), (Hd dmax Imax).
    apply Nat.ltb_lt in Hlen. now rewrite Hlen.
Qed.

Lemma parse_dates_earliest_latest_witness :
  exists dmin dmax,
    Datetime.date_leb dmin dmax = true
    /\ parse_dates_from_text (Dateutil.dateparse a_day)
         "Limite 05/03/2024, avis du 10/01/2024"
       = (Some (Datetime.isoformat dmin), Some (Datetime.isoformat dmax)).
Proof.
  destruct (proj1 (parse_dates_earliest_latest (Dateutil.dateparse a_day)
              "Limite 05/03/2024, avis du 10/01/2024"
              ltac:(vm_compute; discriminate)))
    as [dmin [dmax [_ [Imax [Hall E]]]]].
  exists dmin, dmax. split.
  - apply (Hall dmax Imax).
  - exact E.
Defined.

(** C2 as stated fails: a text that gives the same date twice gets that
    date as its deadline, on whatever day the program runs. *)
Lemma same_date_twice_is_deadline :
  Re.findall true DATE_PATTERN "Avis du 10/01/2024, affiche le 10/01/2024"
  = ["10/01/2024"; "10/01/2024"]
  /\ every_day (fun today =>
       parse_dates_from_text (Dateutil.dateparse today)
         "Avis du 10/01/2024, affiche le 10/01/2024"
       = (Some "2024-01-10", Some "2024-01-10")).
Proof.
  split; [reflexivity|]. intros today. vm_compute. reflexivity.
Qed.

(** ** What a match of the backtracking matcher is

    The matcher only ever returns strings of the form it was asked for
    ([run_sound]). *)

Module ReFacts.

Import Re.

Lemma append_nil_r : forall s : string, (s ++ "")%string = s.
Proof. induction s as [|c s IH]; simpl; [reflexivity|now rewrite IH]. Qed.

Lemma append_assoc : forall a b c : string,
  ((a ++ b) ++ c)%string = (a ++ (b ++ c))%string.
Proof. induction a as [|x a IH]; intros; simpl; [reflexivity|now rewrite IH]. Qed.

Lemma length_append : forall a b : string,
  String.length (a ++ b) = String.length a + String.length b.
Proof. induction a as [|x a IH]; intros; simpl; [reflexivity|now rewrite IH]. Qed.

Lemma take_length_append : forall a b : string,
  Str.take (String.length a) (a ++ b) = a.
Proof.
  unfold Str.take. induction a as [|x a IH]; intros b; simpl.
  - destruct b; reflexivity.
  - now rewrite IH.
Qed.

Lemma take_consumed : forall a b : string,
  Str.take (String.length (a ++ b) - String.length b) (a ++ b) = a.
Proof.
  intros a b. rewrite length_append.
  replace (String.length a + String.length b - String.length b)
    with (String.length a) by lia.
  apply take_length_append.
Qed.

Lemma eat_sound : forall ok st k out,
  eat ok st k = Some out ->
  exists c st', rest st = String c (rest st') /\ ok c = true /\ k st' = Some out.
Proof.
  intros ok st k out. unfold eat.
  destruct (rest st) as [|c s'] eqn:E; [discriminate|].
  destruct (ok c) eqn:Hc; [|discriminate].
  intros Hk. eexists c, _. split; [|split; [exact Hc|exact Hk]]. reflexivity.
Qed.

(** The loop of a repetition, from the [n]-th turn on. *)
Lemma repeat_loop_sound : forall ic a lo hi k out,
  sound ic a ->
  forall fuel n st,
    bounded n hi ->
    repeat_loop (run ic a) lo hi k fuel n st = Some out ->
    exists m s st',
      rest st = (s ++ rest st')%string /\ Times ic a m s
      /\ lo <= n + m /\ bounded (n + m) hi /\ k st' = Some out.
Proof.
  intros ic a lo hi k out Ha.
  assert (Hstop : forall n st, bounded n hi ->
            (if Nat.leb lo n then k st else None) = Some out ->
            exists m s st',
              rest st = (s ++ rest st')%string /\ Times ic a m s
              /\ lo <= n + m /\ bounded (n + m) hi /\ k st' = Some out).
  { intros n st Hb H. destruct (Nat.leb lo n) eqn:E; [|discriminate].
    apply Nat.leb_le in E. exists 0, EmptyString, st.
    rewrite Nat.add_0_r. repeat split; auto. constructor. }
  induction fuel as [|fuel IH]; intros n st Hb H; cbn [repeat_loop] in H.
  - now apply Hstop.
  - destruct (below n hi) eqn:Hbelow; [|now apply Hstop].
    match type of H with
    | match ?x with _ => _ end = _ => destruct x as [out'|] eqn:Hrun
    end; [|now apply Hstop].
    injection H as ->.
    destruct (Ha _ _ _ Hrun) as [s1 [st1 [E1 [L1 [Hk _]]]]].
    destruct (Nat.ltb (String.length (rest st1)) (String.length (rest st)));
      [|discriminate].
    assert (Hb' : bounded (S n) hi).
    { destruct hi as [h|]; simpl in *; [|exact I].
      apply Nat.ltb_lt in Hbelow. lia. }
    destruct (IH (S n) st1 Hb' Hk) as [m [s2 [st' [E2 [T2 [Hlo [Hhi Hk']]]]]]].
    exists (S m), (s1 ++ s2)%string, st'.
    rewrite append_assoc, <- E2, <- E1.
    replace (n + S m) with (S n + m) by lia.
    repeat split; auto. now constructor.
Qed.

Theorem run_sound : forall ic r, sound ic r.
Proof.
  intros ic. induction r as [|p|negate items| |a IHa b IHb|a IHa b IHb|lo hi a IHa|n a IHa];
    intros st k out H; cbn [run] in H.
  - exists EmptyString, st. repeat split; auto. constructor.
  - destruct (eat_sound _ _ _ _ H) as [c [st' [E [Hc Hk]]]].
    exists (String c EmptyString), st'. repeat split; auto. now constructor.
  - destruct (eat_sound _ _ _ _ H) as [c [st' [E [Hc Hk]]]].
    exists (String c EmptyString), st'. repeat split; auto. now constructor.
  - destruct (at_boundary st); [|discriminate].
    exists EmptyString, st. repeat split; auto. constructor.
  - destruct (IHa _ _ _ H) as [s1 [st1 [E1 [L1 [H1 _]]]]].
    destruct (IHb _ _ _ H1) as [s2 [st2 [E2 [L2 [H2 _]]]]].
    exists (s1 ++ s2)%string, st2. rewrite append_assoc, <- E2, <- E1.
    repeat split; auto. now constructor.
  - destruct (run ic a st k) as [out'|] eqn:Ha.
    + injection H as ->.
      destruct (IHa _ _ _ Ha) as [s [st' [E [L [Hk _]]]]].
      exists s, st'. repeat split; auto. now apply L_Alt_l.
    + destruct (IHb _ _ _ H) as [s [st' [E [L [Hk _]]]]].
      exists s, st'. repeat split; auto. now apply L_Alt_r.
  - destruct (repeat_loop_sound ic a lo hi k out IHa
                (String.length (rest st)) 0 st) as
      [m [s [st' [E [T [Hlo [Hhi Hk]]]]]]].
    + destruct hi; simpl; [lia|exact I].
    + exact H.
    + exists s, st'. repeat split; auto. simpl in Hlo, Hhi.
      now apply L_Repeat with (n := m).
  - destruct (IHa _ _ _ H) as [s [st1 [E [L [Hk _]]]]].
    exists s, (close_group n st st1). simpl. repeat split; auto.
    + now constructor.
    + rewrite Nat.eqb_refl. f_equal. rewrite E. apply take_consumed.
Qed.

Lemma lang_group_inv : forall ic n a s, Lang ic (Group n a) s -> Lang ic a s.
Proof. intros ic n a s L. now inversion L. Qed.

(** A match found by [search] is a piece of the text. *)
Lemma search_from_sound : forall ic r s prev pos m,
  search_from ic r prev s pos = Some m ->
  exists pre suffix prev' pos',
    s = (pre ++ suffix)%string /\ match_at ic r prev' suffix pos' = Some m.
Proof.
  intros ic r. induction s as [|c s IH]; intros prev pos m H; simpl in H.
  - destruct (match_at ic r prev EmptyString pos) eqn:E; [|discriminate].
    injection H as ->. now exists EmptyString, EmptyString, prev, pos.
  - destruct (match_at ic r prev (String c s) pos) eqn:E.
    + injection H as ->. now exists EmptyString, (String c s), prev, pos.
    + destruct (IH _ _ _ H) as [pre [suffix [prev' [pos' [E1 E2]]]]].
      exists (String c pre), suffix, prev', pos'. simpl. now rewrite E1.
Qed.

(** The characters of a repeated class. *)
Lemma times_class : forall ic negate items n s,
  Times ic (Class negate items) n s ->
  String.length s = n
  /\ Dateutil.all_chars (class_matches ic negate items) s = true.
Proof.
  intros ic negate items. induction n as [|n IH]; intros s T.
  - inversion T; subst. split; reflexivity.
  - inversion T as [|a n' s1 s2 L T']; subst.
    inversion L as [| |? ? c Hc| | | | | |]; subst.
    destruct (IH _ T') as [El Ea].
    simpl. rewrite El, Ea, Hc. split; reflexivity.
Qed.

(** A literal under IGNORECASE: the same text up to the case. *)
Lemma lang_lits : forall t s,
  Lang true (lits t) s -> Str.lower s = Str.lower t.
Proof.
  induction t as [|c t IH]; intros s L; simpl in L.
  - inversion L. reflexivity.
  - inversion L as [| | | |a b s1 s2 L1 L2| | | |]; subst.
    inversion L1 as [|p c' Hc| | | | | | |]; subst. simpl.
    rewrite (IH _ L2). f_equal.
    unfold lit_matches in Hc. apply N.eqb_eq in Hc.
    unfold Str.lower_char. now rewrite Hc.
Qed.

Lemma lang_alt_lits : forall texts s,
  Lang true (alt (map lits texts)) s ->
  exists t, In t texts /\ Str.lower s = Str.lower t.
Proof.
  induction texts as [|t texts IH]; intros s L.
  - simpl in L. inversion L as [| |negate items c Hc| | | | | |]; subst.
    discriminate Hc.
  - destruct texts as [|t' texts].
    + simpl in L. exists t. split; [now left|]. now apply lang_lits.
    + change (alt (map lits (t :: t' :: texts)))
        with (Alt (lits t) (alt (map lits (t' :: texts)))) in L.
      inversion L as [| | | | |? ? ? La|? ? ? Lb| |]; subst.
      * exists t. split; [now left|]. now apply lang_lits.
      * destruct (IH _ Lb) as [u [Hu Eu]]. exists u. split; [now right|exact Eu].
Qed.

End ReFacts.

(** ** The labelled deadline *)

Lemma not_line_break : forall c,
  Re.class_matches true true [Re.Chr 10; Re.Chr 13] c
  = negb (Str.code c =? 10)%N && negb (Str.code c =? 13)%N.
Proof. intros c. destruct c as [[] [] [] [] [] [] [] []]; reflexivity. Qed.

Lemma all_chars_ext : forall p q s,
  (forall c, p c = q c) -> Dateutil.all_chars p s = Dateutil.all_chars q s.
Proof.
  intros p q s E. induction s as [|c s IH]; simpl; [reflexivity|].
  now rewrite E, IH.
Qed.

Lemma same_line_120_lang : forall gap,
  Re.Lang true same_line_120 gap ->
  String.length gap <= 120 /\ one_line gap = true.
Proof.
  intros gap L. unfold same_line_120 in L.
  inversion L as [| | | | | | |lo hi a n s Hlo Hhi T|]; subst.
  destruct (ReFacts.times_class _ _ _ _ _ T) as [El Ea]. simpl in Hhi.
  split; [lia|]. unfold one_line.
  rewrite <- Ea. apply all_chars_ext. intros c. symmetry. apply not_line_break.
Qed.

Lemma deadline_label_lower : forall t,
  In t DEADLINE_LABEL_TEXTS -> Str.lower t = t.
Proof.
  intros t H. simpl in H.
  repeat (destruct H as [<-|H]; [reflexivity|]). contradiction.
Qed.

(** Three parts in a row, the third a group: the pieces of the text. *)
Lemma run_three_parts : forall ic A B n C st out,
  Re.run ic (Re.Cat A (Re.Cat B (Re.Group n C))) st Some = Some out ->
  exists s1 s2 s3,
    Re.rest st = (s1 ++ s2 ++ s3 ++ Re.rest out)%string
    /\ Re.Lang ic A s1 /\ Re.Lang ic B s2 /\ Re.Lang ic C s3
    /\ Re.lookup_group n (Re.groups out) = Some s3.
Proof.
  intros ic A B n C st out H.
  change (Re.run ic A st
            (fun st1 => Re.run ic B st1
               (fun st2 => Re.run ic (Re.Group n C) st2 Some)) = Some out) in H.
  destruct (ReFacts.run_sound ic A _ _ _ H) as [s1 [st1 [E1 [L1 [H1 _]]]]].
  destruct (ReFacts.run_sound ic B _ _ _ H1) as [s2 [st2 [E2 [L2 [H2 _]]]]].
  destruct (ReFacts.run_sound ic (Re.Group n C) _ _ _ H2)
    as [s3 [st3 [E3 [L3 [H3 Hg]]]]].
  injection H3 as ->. simpl in Hg.
  exists s1, s2, s3. rewrite E1, E2, E3.
  apply ReFacts.lang_group_inv in L3. repeat split; auto.
Qed.

(** What a match of the deadline pattern looks like in the text. *)
Lemma deadline_match_shape : forall text m,
  Re.search true DEADLINE_PATTERN text = Some m ->
  exists pre label gap,
    text = (pre ++ label ++ gap ++ Re.group 2 m ++ Re.m_rest m)%string
    /\ In (Str.lower label) DEADLINE_LABEL_TEXTS
    /\ String.length gap <= 120 /\ one_line gap = true
    /\ Re.Lang true DEADLINE_DATE (Re.group 2 m).
Proof.
  intros text m H. unfold Re.search in H.
  destruct (ReFacts.search_from_sound _ _ _ _ _ _ H)
    as [pre [suffix [prev [pos [Et Hm]]]]].
  unfold Re.match_at in Hm.
  match type of Hm with
  | match ?x with _ => _ end = _ => destruct x as [st|] eqn:Hrun
  end; [|discriminate].
  injection Hm as <-.
  change DEADLINE_PATTERN
    with (Re.Cat (Re.Group 1 (Re.alt DEADLINE_LABELS))
            (Re.Cat same_line_120 (Re.Group 2 DEADLINE_DATE))) in Hrun.
  destruct (run_three_parts _ _ _ _ _ _ _ Hrun)
    as [s1 [s2 [s3 [E [L1 [L2 [L3 Hg]]]]]]].
  simpl in E. apply ReFacts.lang_group_inv in L1.
  destruct (ReFacts.lang_alt_lits DEADLINE_LABEL_TEXTS _ L1) as [t [Ht El]].
  destruct (same_line_120_lang _ L2) as [Hlen Hline].
  exists pre, s1, s2. unfold Re.group. simpl. rewrite Hg.
  repeat split; auto.
  - now rewrite Et, E.
  - rewrite El, (deadline_label_lower t Ht). exact Ht.
Qed.

(** C3 (amended).  [parse_dates_from_text] falls back to the labelled
    deadline exactly when no generic match parsed (none matched, or none
    of the matches parsed).  The fallback takes the first match of a label
    among "date limite", "clôture", "date de dépôt", "délais" (whatever the
    case), then at most 120 characters without a line break, then a
    substring of shape D sep M sep Y, D month Y or YYYY-MM-DD; when that
    substring parses the result is (absent, that date), otherwise, and
    when there is no such match, (absent, absent). *)
Theorem labeled_deadline_fallback :
  forall (dateparse : string -> option Datetime.date) (text : string),
    let ds := parsed_values dateparse (Re.findall true DATE_PATTERN text) in
    (ds = [] ->
     parse_dates_from_text dateparse text = labeled_deadline dateparse text)
    /\ (ds <> [] ->
        exists pub, fst (parse_dates_from_text dateparse text) = Some pub)
    /\ fst (labeled_deadline dateparse text) = None
    /\ (Re.search true DEADLINE_PATTERN text = None ->
        labeled_deadline dateparse text = (None, None))
    /\ (forall m, Re.search true DEADLINE_PATTERN text = Some m ->
        labeled_deadline dateparse text
        = match dateparse (Re.group 2 m) with
          | Some dt => (None, Some (Datetime.isoformat dt))
          | None => (None, None)
          end
        /\ exists pre label gap,
             text = (pre ++ label ++ gap ++ Re.group 2 m ++ Re.m_rest m)%string
             /\ In (Str.lower label) DEADLINE_LABEL_TEXTS
             /\ String.length gap <= 120 /\ one_line gap = true
             /\ Re.Lang true DEADLINE_DATE (Re.group 2 m)).
Proof.
  intros dateparse text ds. repeat split.
  - apply parse_dates_second_branch.
  - intros Hne. rewrite (parse_dates_first_branch dateparse text Hne).
    eexists. reflexivity.
  - unfold labeled_deadline.
    destruct (Re.search true DEADLINE_PATTERN text) as [m|]; [|reflexivity].
    destruct (dateparse (Re.group 2 m)); reflexivity.
  - intros E. unfold labeled_deadline. now rewrite E.
  - unfold labeled_deadline. now rewrite H.
  - now apply deadline_match_shape.
Qed.

Lemma labeled_deadline_fallback_witness :
  parse_dates_from_text (Dateutil.dateparse a_day) "Date limite : le 5/04/2024h"
  = labeled_deadline (Dateutil.dateparse a_day) "Date limite : le 5/04/2024h"
  /\ labeled_deadline (Dateutil.dateparse a_day) "Date limite : le 5/04/2024h"
     = (None, Some "2024-04-05")
  /\ exists pub,
       fst (parse_dates_from_text (Dateutil.dateparse a_day) "Avis du 10/01/2024")
       = Some pub.
Proof.
  split; [|split].
  - apply (proj1 (labeled_deadline_fallback (Dateutil.dateparse a_day)
                    "Date limite : le 5/04/2024h")).
    vm_compute. reflexivity.
  - vm_compute. reflexivity.
  - apply (proj1 (proj2 (labeled_deadline_fallback (Dateutil.dateparse a_day)
                           "Avis du 10/01/2024"))).
    vm_compute. discriminate.
Defined.

(** C3 as stated fails.  In the first text a generic date pattern
    matches ("31/31/2024", which does not parse), and the result still
    comes from the labelled search.  In the second the label is followed
    by a substring of the generic year-first shape, which the labelled
    search does not look for. *)
Lemma fallback_although_pattern_matched :
  Re.findall true DATE_PATTERN "31/31/2024 date limite: 5/04/2024h" = ["31/31/2024"]
  /\ every_day (fun today =>
       Dateutil.parse today "31/31/2024" = Raise
       /\ parse_dates_from_text (Dateutil.dateparse today)
            "31/31/2024 date limite: 5/04/2024h"
          = (None, Some "2024-04-05"))
  /\ Re.search true DEADLINE_PATTERN "date limite: 2024/4/5x" = None
  /\ option_map (Re.group 2)
       (Re.search true
          (Re.seq [Re.Group 1 (Re.alt DEADLINE_LABELS); same_line_120;
                   Re.Group 2 (Re.alt [shape_dmy; shape_ymd; shape_named])])
          "date limite: 2024/4/5x")
     = Some "2024/4/5".
Proof.
  split; [reflexivity|]. split; [|split; reflexivity].
  intros today. split; vm_compute; reflexivity.
Qed.

(** ** Link discovery *)

Section LinkFacts.

Variable urljoin : string -> string -> option string.
Variable urlparse_path : string -> option string.

Lemma mem_string_in : forall x l, mem_string x l = true <-> In x l.
Proof.
  intros x l. unfold mem_string. rewrite existsb_exists. split.
  - intros [y [Hy E]]. apply String.eqb_eq in E. now subst.
  - intros H. exists x. split; [exact H|apply String.eqb_refl].
Qed.

Lemma http_not_mailto : forall u,
  http_url u = true ->
  Str.startswith u "mailto:" || Str.startswith u "tel:" = false.
Proof.
  intros u. unfold http_url, Str.startswith. destruct u as [|c u].
  - discriminate.
  - cbn [String.prefix]. destruct (ascii_dec "h" c) as [<-|Hc]; intros H.
    + reflexivity.
    + discriminate H.
Qed.

(** One turn of the loop adds the accepted URL, if any and if new. *)
Lemma link_step_accepted : forall base st a st',
  link_step urljoin urlparse_path base st a = Some st' ->
  st' = match accepted urljoin urlparse_path base a with
        | Some u => add_candidate st u
        | None => st
        end.
Proof.
  intros base st a st'. unfold link_step, accepted.
  destruct (urljoin base (Str.strip (a_href a))) as [u|]; [|discriminate].
  destruct (http_url u) eqn:Hh; simpl.
  - rewrite (http_not_mailto u Hh).
    destruct (urlparse_path u) as [path|]; [|discriminate].
    destruct (keyword_rule u (a_text a) || path_rule path) eqn:Hk; simpl.
    + now intros [= <-].
    + destruct (pdf_rule u (a_text a)); now intros [= <-].
  - intros [= <-]. now destruct (urlparse_path u).
Qed.

Lemma filter_filter : forall (p q : string -> bool) l,
  filter p (filter q l) = filter (fun y => q y && p y) l.
Proof.
  induction l as [|x l IH]; simpl; [reflexivity|].
  destruct (q x); simpl; [destruct (p x)|]; now rewrite IH.
Qed.

Lemma filter_ext_string : forall (p q : string -> bool) l,
  (forall y, p y = q y) -> filter p l = filter q l.
Proof.
  intros p q l E. induction l as [|x l IH]; simpl; [reflexivity|].
  now rewrite E, IH.
Qed.

Lemma filter_true : forall l : list string, filter (fun _ => true) l = l.
Proof. induction l as [|x l IH]; simpl; [reflexivity|now rewrite IH]. Qed.

(** The loop, from any state whose [seen] holds the candidates so far. *)
Lemma link_loop_first_seen : forall base anchors c s c' s',
  (forall u, mem_string u s = true <-> In u c) ->
  link_loop urljoin urlparse_path base anchors (c, s) = Some (c', s') ->
  c' = c ++ filter (unseen c)
              (first_seen (accepted_urls urljoin urlparse_path base anchors)).
Proof.
  intros base. induction anchors as [|a anchors IH]; intros c s c' s' Hinv H.
  - simpl in H. injection H as <- <-. simpl. now rewrite app_nil_r.
  - simpl in H.
    destruct (link_step urljoin urlparse_path base (c, s) a) as [st1|] eqn:Hs;
      [|discriminate].
    apply link_step_accepted in Hs. simpl.
    destruct (accepted urljoin urlparse_path base a) as [u|].
    + unfold add_candidate in Hs. destruct (mem_string u s) eqn:Hu.
      * subst st1. rewrite (IH _ _ _ _ Hinv H). f_equal. simpl.
        assert (Huc : unseen c u = false).
        { unfold unseen. apply Hinv in Hu. apply mem_string_in in Hu.
          now rewrite Hu. }
        rewrite Huc, filter_filter. apply filter_ext_string. intros y.
        destruct (String.eqb_spec y u) as [->|]; simpl; [now rewrite Huc|reflexivity].
      * subst st1.
        assert (Hinv' : forall v, mem_string v (u :: s) = true <-> In v (c ++ [u])).
        { intros v. simpl. rewrite in_app_iff, orb_true_iff, <- Hinv. simpl.
          rewrite String.eqb_eq. split; intros [E|E]; auto.
          destruct E as [E|[]]. auto. }
        rewrite (IH _ _ _ _ Hinv' H), <- app_assoc. f_equal. simpl.
        assert (Huc : unseen c u = true).
        { unfold unseen. destruct (mem_string u c) eqn:E; [|reflexivity].
          apply mem_string_in, Hinv in E. congruence. }
        rewrite Huc. f_equal. rewrite filter_filter.
        apply filter_ext_string. intros y. unfold unseen, mem_string.
        rewrite existsb_app. simpl. rewrite orb_false_r, negb_orb.
        apply andb_comm.
    + subst st1. exact (IH c s c' s' Hinv H).
Qed.

(** The loop does not fail when the two library calls do not. *)
Lemma link_loop_total : forall base anchors st,
  (forall a, In a anchors ->
     exists u, urljoin base (Str.strip (a_href a)) = Some u
               /\ exists p, urlparse_path u = Some p) ->
  exists st', link_loop urljoin urlparse_path base anchors st = Some st'.
Proof.
  intros base. induction anchors as [|a anchors IH]; intros st H.
  - now exists st.
  - simpl. destruct (H a (or_introl eq_refl)) as [u [Eu [p Ep]]].
    assert (Hs : exists st1, link_step urljoin urlparse_path base st a = Some st1).
    { unfold link_step. rewrite Eu.
      destruct (negb (http_url u)); [eauto|].
      destruct (Str.startswith u "mailto:" || Str.startswith u "tel:"); [eauto|].
      rewrite Ep.
      destruct (keyword_rule u (a_text a) || path_rule p); [eauto|].
      destruct (pdf_rule u (a_text a)); eauto. }
    destruct Hs as [st1 Hs]. rewrite Hs. apply IH.
    intros b Hb. apply H. now right.
Qed.

Lemma candidate_links_first_seen : forall base anchors out,
  candidate_links urljoin urlparse_path base anchors = Some out ->
  out = firstn MAX_DETAIL_PER_SITE
          (first_seen (accepted_urls urljoin urlparse_path base anchors)).
Proof.
  intros base anchors out. unfold candidate_links.
  generalize MAX_DETAIL_PER_SITE. intros n.
  destruct (link_loop urljoin urlparse_path base anchors ([], []))
    as [[c s]|] eqn:H; [|discriminate].
  intros [= <-]. f_equal.
  assert (Hinv : forall u, mem_string u [] = true <-> In u []).
  { intros u. simpl. split; [discriminate|contradiction]. }
  rewrite (link_loop_first_seen base anchors [] [] c s Hinv H).
  cbn [app]. rewrite (filter_ext_string _ (fun _ => true)) by reflexivity.
  apply filter_true.
Qed.

Lemma accepted_urls_in : forall base anchors u,
  In u (accepted_urls urljoin urlparse_path base anchors) <->
  exists a, In a anchors /\ accepted urljoin urlparse_path base a = Some u.
Proof.
  intros base anchors u. induction anchors as [|a anchors IH]; simpl.
  - split; [contradiction|]. intros [a [[] _]].
  - destruct (accepted urljoin urlparse_path base a) as [v|] eqn:E; simpl;
      rewrite IH; split.
    + intros [<-|[b [Hb Eb]]]; [exists a|exists b]; auto.
    + intros [b [[<-|Hb] Eb]]; [left; congruence|right; eauto].
    + intros [b [Hb Eb]]. exists b. auto.
    + intros [b [[<-|Hb] Eb]]; [congruence|eauto].
Qed.

(** Why an anchor is accepted. *)
Lemma accepted_rules : forall base a u,
  accepted urljoin urlparse_path base a = Some u ->
  urljoin base (Str.strip (a_href a)) = Some u
  /\ http_url u = true
  /\ exists path,
       urlparse_path u = Some path
       /\ (keyword_rule u (a_text a) = true \/ path_rule path = true
           \/ (Str.endswith (Str.lower u) ".pdf" = true
               /\ keyword_rule u (a_text a) = true)).
Proof.
  intros base a u. unfold accepted.
  destruct (urljoin base (Str.strip (a_href a))) as [v|]; [|discriminate].
  destruct (urlparse_path v) as [path|] eqn:Ep; [|discriminate].
  destruct (http_url v) eqn:Hh; simpl; [|discriminate].
  destruct (keyword_rule v (a_text a)) eqn:Hk; simpl.
  - intros [= <-]. repeat split; auto. exists path. auto.
  - destruct (path_rule path) eqn:Hp; simpl.
    + intros [= <-]. repeat split; auto. exists path. auto.
    + unfold pdf_rule, keyword_rule in *. rewrite Hk, andb_false_r. discriminate.
Qed.

(** The branch of line 142 never adds anything. *)
Lemma link_step_no_pdf_same : forall base st a,
  link_step urljoin urlparse_path base st a
  = link_step_no_pdf urljoin urlparse_path base st a.
Proof.
  intros base st a. unfold link_step, link_step_no_pdf.
  destruct (urljoin base (Str.strip (a_href a))) as [u|]; [|reflexivity].
  destruct (negb (http_url u)); [reflexivity|].
  destruct (Str.startswith u "mailto:" || Str.startswith u "tel:"); [reflexivity|].
  destruct (urlparse_path u) as [path|]; [|reflexivity].
  destruct (keyword_rule u (a_text a)) eqn:Hk; simpl; [reflexivity|].
  destruct (path_rule path); [reflexivity|].
  unfold pdf_rule, keyword_rule in *. now rewrite Hk, andb_false_r.
Qed.

Lemma link_loop_no_pdf_same : forall base anchors st,
  link_loop urljoin urlparse_path base anchors st
  = link_loop_no_pdf urljoin urlparse_path base anchors st.
Proof.
  intros base. induction anchors as [|a anchors IH]; intros st; simpl.
  - reflexivity.
  - rewrite link_step_no_pdf_same.
    destruct (link_step_no_pdf urljoin urlparse_path base st a); [apply IH|reflexivity].
Qed.

End LinkFacts.

Lemma first_seen_in : forall l u, In u (first_seen l) <-> In u l.
Proof.
  induction l as [|x l IH]; intros u; simpl; [tauto|].
  rewrite filter_In, IH, negb_true_iff, String.eqb_neq.
  destruct (String.string_dec x u) as [->|Hne]; [tauto|].
  split.
  - intros [E|[E _]]; auto.
  - intros [E|E]; [contradiction|]. right. split; [exact E|congruence].
Qed.

Lemma first_seen_nodup : forall l, NoDup (first_seen l).
Proof.
  induction l as [|x l IH]; simpl; constructor.
  - rewrite filter_In, String.eqb_refl. intros [_ E]. discriminate.
  - now apply NoDup_filter.
Qed.

Lemma firstn_in : forall (n : nat) (l : list string) x, In x (firstn n l) -> In x l.
Proof.
  intros n l x H. rewrite <- (firstn_skipn n l). apply in_or_app. now left.
Qed.

Lemma firstn_nodup : forall (n : nat) (l : list string), NoDup l -> NoDup (firstn n l).
Proof.
  induction n as [|n IH]; intros [|x l] H; simpl; try constructor.
  - inversion H as [|? ? Hx Hl]; subst. intros Hin. apply Hx.
    now apply (firstn_in n l).
  - inversion H; subst. now apply IH.
Qed.

(** The properties of the list the loop computes. *)
Lemma discovered_list_properties :
  forall (urljoin : string -> string -> option string)
         (urlparse_path : string -> option string)
         (base : string) (anchors : list anchor),
    let out := firstn MAX_DETAIL_PER_SITE
                 (first_seen (accepted_urls urljoin urlparse_path base anchors)) in
    (forall u, In u out ->
       http_url u = true
       /\ exists a path,
            In a anchors
            /\ urljoin base (Str.strip (a_href a)) = Some u
            /\ urlparse_path u = Some path
            /\ (keyword_rule u (a_text a) = true \/ path_rule path = true
                \/ (Str.endswith (Str.lower u) ".pdf" = true
                    /\ keyword_rule u (a_text a) = true)))
    /\ NoDup out
    /\ List.length out <= 200.
Proof.
  intros urljoin urlparse_path base anchors out. split; [|split].
  - intros u Hu. apply firstn_in, first_seen_in, accepted_urls_in in Hu.
    destruct Hu as [a [Ha Eacc]].
    destruct (accepted_rules _ _ _ _ _ Eacc) as [Ej [Hh [path [Ep Hr]]]].
    split; [exact Hh|]. exists a, path. auto.
  - apply firstn_nodup, first_seen_nodup.
  - apply firstn_le_length.
Qed.

(** C4.  [find_candidate_links] returns the first 200 of the accepted
    URLs of the page's anchors, in the order of their first appearance
    and without repetition.  Every one of them is an absolute http or
    https URL, joined from an anchor of the page, and kept because the
    lower-cased URL and anchor text hold a keyword, or the path holds one
    of the six path words, or it ends in .pdf and the keyword rule holds.
    The function returns whenever [urljoin] and [urlparse] do not raise.
    On the two anchors of the example it returns the one notice link. *)
Theorem discover_candidates :
  (forall (w : world) (listing_url : string) (out : list string),
      find_candidate_links w listing_url = Some out ->
      out = firstn MAX_DETAIL_PER_SITE
              (first_seen (accepted_urls (urljoin w) (urlparse_path w) listing_url
                             (listing_anchors w listing_url)))
      /\ (forall u, In u out ->
            http_url u = true
            /\ exists a path,
                 In a (listing_anchors w listing_url)
                 /\ urljoin w listing_url (Str.strip (a_href a)) = Some u
                 /\ urlparse_path w u = Some path
                 /\ (keyword_rule u (a_text a) = true \/ path_rule path = true
                     \/ (Str.endswith (Str.lower u) ".pdf" = true
                         /\ keyword_rule u (a_text a) = true)))
      /\ NoDup out
      /\ List.length out <= 200)
  /\ (forall (w : world) (listing_url : string),
        (forall a, In a (listing_anchors w listing_url) ->
           exists u, urljoin w listing_url (Str.strip (a_href a)) = Some u
                     /\ exists p, urlparse_path w u = Some p) ->
        exists out, find_candidate_links w listing_url = Some out)
  /\ candidate_links model_urljoin model_urlparse_path
       "https://example.nc/list" example_anchors
     = Some ["https://example.nc/avis/123"].
Proof.
  split; [|split].
  - intros w listing_url out H.
    assert (E : out = firstn MAX_DETAIL_PER_SITE
                        (first_seen (accepted_urls (urljoin w) (urlparse_path w)
                           listing_url (listing_anchors w listing_url)))).
    { unfold find_candidate_links in H. unfold listing_anchors.
      destruct (safe_get (session_get w listing_url) default_retries) as [r|].
      - now apply candidate_links_first_seen.
      - injection H as <-. cbn [accepted_urls first_seen]. now rewrite firstn_nil. }
    split; [exact E|]. rewrite E. apply discovered_list_properties.
  - intros w listing_url Htot. unfold find_candidate_links.
    unfold listing_anchors in Htot.
    destruct (safe_get (session_get w listing_url) default_retries) as [r|];
      [|now exists []].
    unfold candidate_links.
    destruct (link_loop_total (urljoin w) (urlparse_path w) listing_url
                (doc_anchors (BeautifulSoup w (text r))) ([], []) Htot)
      as [[c s] Hl].
    rewrite Hl. eauto.
  - vm_compute. reflexivity.
Qed.

Lemma discover_candidates_witness :
  find_candidate_links (world_listing example_anchors a_day) "https://example.nc/list"
  = Some ["https://example.nc/avis/123"]
  /\ NoDup ["https://example.nc/avis/123"]
  /\ forall u, In u ["https://example.nc/avis/123"] -> http_url u = true.
Proof.
  assert (E : find_candidate_links (world_listing example_anchors a_day)
                "https://example.nc/list"
              = Some ["https://example.nc/avis/123"])
    by (vm_compute; reflexivity).
  destruct (proj1 discover_candidates (world_listing example_anchors a_day)
              "https://example.nc/list" ["https://example.nc/avis/123"] E)
    as [_ [Hrules [Hnodup _]]].
  split; [exact E|]. split; [exact Hnodup|].
  intros u Hu. exact (proj1 (Hrules u Hu)).
Defined.

(** C10.  The branch of line 142 adds nothing: an anchor that reaches it
    fails the keyword rule, which the branch asks for again; so a turn of
    the loop, and with it the list of candidates, is the same with the
    branch and without it. *)
Theorem pdf_branch_redundant :
  (forall u t, pdf_rule u t = true -> keyword_rule u t = true)
  /\ (forall urljoin urlparse_path base st a,
        link_step urljoin urlparse_path base st a
        = link_step_no_pdf urljoin urlparse_path base st a)
  /\ (forall (w : world) (listing_url : string),
        find_candidate_links w listing_url
        = find_candidate_links_no_pdf w listing_url).
Proof.
  split; [|split].
  - intros u t H. unfold pdf_rule in H. apply andb_true_iff in H. apply H.
  - apply link_step_no_pdf_same.
  - intros w listing_url. unfold find_candidate_links, find_candidate_links_no_pdf.
    destruct (safe_get (session_get w listing_url) default_retries); [|reflexivity].
    unfold candidate_links, candidate_links_no_pdf.
    now rewrite link_loop_no_pdf_same.
Qed.

Lemma pdf_branch_redundant_witness :
  keyword_rule "https://example.nc/docs/avis-12.pdf" "PDF" = true.
Proof.
  apply (proj1 pdf_branch_redundant "https://example.nc/docs/avis-12.pdf" "PDF").
  vm_compute. reflexivity.
Defined.

(** ** The detail extractor *)

Lemma safe_get_loop_none : forall get n attempt,
  (forall k, attempt <= k < attempt + n -> attempt_fails (get k)) ->
  safe_get_loop get attempt n = None.
Proof.
  intros get. induction n as [|n IH]; intros attempt H; simpl; [reflexivity|].
  assert (Hk := H attempt ltac:(lia)).
  assert (Hrest : safe_get_loop get (S attempt) n = None).
  { apply IH. intros k Hk'. apply H. lia. }
  destruct (get attempt) as [|r]; [exact Hrest|].
  simpl in Hk. destruct (Z.eqb_spec (status_code r) 200); [contradiction|exact Hrest].
Qed.

Lemma safe_get_none : forall get retries,
  (forall k, k <= retries -> attempt_fails (get k)) ->
  safe_get get retries = None.
Proof.
  intros get retries H. unfold safe_get. apply safe_get_loop_none.
  intros k Hk. apply H. lia.
Qed.

(** The deadline of the date extractor is always an ISO date. *)
Lemma parse_dates_lim_iso : forall dateparse text pub s,
  parse_dates_from_text dateparse text = (pub, Some s) ->
  exists d, s = Datetime.isoformat d.
Proof.
  intros dateparse text pub s H.
  destruct (parsed_values dateparse (Re.findall true DATE_PATTERN text))
    as [|d0 ds] eqn:E.
  - rewrite (parse_dates_second_branch dateparse text E) in H.
    unfold labeled_deadline in H.
    destruct (Re.search true DEADLINE_PATTERN text) as [m|]; [|discriminate].
    destruct (dateparse (Re.group 2 m)) as [dt|]; [|discriminate].
    injection H as _ <-. now exists dt.
  - assert (Hne : parsed_values dateparse (Re.findall true DATE_PATTERN text) <> [])
      by (rewrite E; discriminate).
    rewrite (parse_dates_first_branch dateparse text Hne) in H.
    destruct (sorted_extremes _ Hne) as [dmin [dmax [_ [_ [_ [Elast _]]]]]].
    cbv zeta in Elast. rewrite Elast in H.
    destruct (Nat.ltb 1 _); [|discriminate].
    injection H as _ <-. now exists dmax.
Qed.

(** C8.  When none of the three attempts to fetch the page is answered
    with status 200, [parse_detail] returns the record of line 179: the
    URL, status "unknown", every other field absent. *)
Theorem parse_detail_failed_fetch :
  forall (w : world) (url : string),
    (forall k, k <= default_retries -> attempt_fails (session_get w url k)) ->
    safe_get (session_get w url) default_retries = None
    /\ parse_detail w url
       = {| detail_url := url; titre := None; organisme := None; reference := None;
            date_publication := None; date_limite := None; extrait := None;
            statut := "unknown" |}.
Proof.
  intros w url H. pose proof (safe_get_none _ _ H) as E.
  split; [exact E|]. unfold parse_detail. now rewrite E.
Qed.

Lemma parse_detail_failed_fetch_witness :
  parse_detail (world_offline a_day) "https://example.nc/avis/123"
  = {| detail_url := "https://example.nc/avis/123"; titre := None;
       organisme := None; reference := None; date_publication := None;
       date_limite := None; extrait := None; statut := "unknown" |}.
Proof.
  apply (proj2 (parse_detail_failed_fetch (world_offline a_day)
                  "https://example.nc/avis/123" (fun k _ => I))).
Defined.

(** C6.  When the page is fetched and its content type holds
    "application/pdf" or the URL ends in ".pdf" (both whatever the case),
    [parse_detail] returns the URL with the two PDF texts as title and
    excerpt, status "unknown" and every other field absent; the body and
    the HTML parser have no part in the result. *)
Theorem pdf_short_circuit :
  forall (w : world) (url : string) (r : response),
    safe_get (session_get w url) default_retries = Some r ->
    Str.contains "application/pdf" (Str.lower (Str.or_empty (content_type r))) = true
    \/ Str.endswith (Str.lower url) ".pdf" = true ->
    parse_detail w url
    = {| detail_url := url; titre := Some PDF_TITRE; organisme := None;
         reference := None; date_publication := None; date_limite := None;
         extrait := Some PDF_EXTRAIT; statut := "unknown" |}.
Proof.
  intros w url r Hget Hpdf. unfold parse_detail. rewrite Hget.
  assert (E : is_pdf r url = true).
  { unfold is_pdf. apply orb_true_iff. exact Hpdf. }
  now rewrite E.
Qed.

Lemma pdf_short_circuit_witness :
  parse_detail (world_answering pdf_response a_day) "https://example.nc/doc/7"
  = {| detail_url := "https://example.nc/doc/7"; titre := Some PDF_TITRE;
       organisme := None; reference := None; date_publication := None;
       date_limite := None; extrait := Some PDF_EXTRAIT; statut := "unknown" |}.
Proof.
  apply (pdf_short_circuit (world_answering pdf_response a_day)
           "https://example.nc/doc/7" pdf_response).
  - reflexivity.
  - left. reflexivity.
Defined.

(** C5.  For a page that was fetched and is not a PDF: a resolved
    deadline is the ISO form of a date, and the status is "open" when that
    date is on or after the current day and "closed" when it is before; no
    deadline gives "published".  The comparison can only fail on a
    deadline that is not an ISO date, and then the status set before
    stays. *)
Theorem status_from_deadline :
  forall (w : world) (url : string) (r : response),
    safe_get (session_get w url) default_retries = Some r ->
    is_pdf r url = false ->
    (forall s, date_limite (parse_detail w url) = Some s ->
       exists d,
         s = Datetime.isoformat d
         /\ statut (parse_detail w url)
            = if Datetime.date_leb (today w) d then "open" else "closed")
    /\ (date_limite (parse_detail w url) = None ->
        statut (parse_detail w url) = "published")
    /\ statut (parse_detail w url)
       = basic_status (today w) (date_limite (parse_detail w url)) "unknown"
    /\ (forall s previous,
          Str.truthy s = true -> Datetime.fromisoformat s = None ->
          basic_status (today w) (Some s) previous = previous).
Proof.
  intros w url r Hget Hpdf. unfold parse_detail. rewrite Hget, Hpdf.
  unfold parse_html.
  destruct (parse_dates_from_text (dateparse w) (doc_text (BeautifulSoup w (text r))))
    as [pub lim] eqn:E.
  cbn [date_limite statut default_detail].
  split; [|split; [|split]].
  - intros s ->. destruct (parse_dates_lim_iso _ _ _ _ E) as [d ->].
    exists d. split; [reflexivity|]. unfold basic_status.
    now rewrite DateFacts.isoformat_truthy, DateFacts.fromisoformat_isoformat.
  - now intros ->.
  - reflexivity.
  - intros s previous Hs Hf. unfold basic_status. now rewrite Hs, Hf.
Qed.

Lemma status_from_deadline_witness :
  (date_limite (parse_detail (world_answering page_closed a_day) "https://example.nc/a")
   = Some "2024-03-05"
   /\ statut (parse_detail (world_answering page_closed a_day) "https://example.nc/a")
      = "closed")
  /\ (date_limite (parse_detail (world_answering page_open a_day) "https://example.nc/a")
      = Some "2999-03-05"
      /\ statut (parse_detail (world_answering page_open a_day) "https://example.nc/a")
         = "open").
Proof.
  split.
  - destruct (proj1 (status_from_deadline (world_answering page_closed a_day)
                       "https://example.nc/a" page_closed eq_refl eq_refl)
                "2024-03-05" ltac:(vm_compute; reflexivity)) as [d [Ed Es]].
    split; [vm_compute; reflexivity|].
    apply (DateFacts.isoformat_inj (Datetime.mkdate 2024 3 5 eq_refl)) in Ed.
    rewrite Es, <- Ed. reflexivity.
  - destruct (proj1 (status_from_deadline (world_answering page_open a_day)
                       "https://example.nc/a" page_open eq_refl eq_refl)
                "2999-03-05" ltac:(vm_compute; reflexivity)) as [d [Ed Es]].
    split; [vm_compute; reflexivity|].
    apply (DateFacts.isoformat_inj (Datetime.mkdate 2999 3 5 eq_refl)) in Ed.
    rewrite Es, <- Ed. reflexivity.
Defined.

(** ** French month names *)

(** The letters of a month name are accepted whatever their case. *)
Lemma month_letters_any_case : forall c,
  Re.class_matches true false month_letters c
  = Re.class_matches true false month_letters (Str.lower_char c).
Proof. intros c. destruct c as [[] [] [] [] [] [] [] []]; reflexivity. Qed.

(** C7, on the code.  The pattern finds "15 mars 2024" in either case,
    but the parser, which knows the English month names only, skips the
    word "mars", reads 15 as a month and raises; there is no labelled
    deadline either, so the result is (absent, absent) and not
    ("2024-03-15", absent).  With the English "mar" the same text gives
    15 March 2024. *)
Theorem french_month_name_is_not_parsed :
  Re.findall true DATE_PATTERN "15 mars 2024" = ["15 mars 2024"]
  /\ Re.findall true DATE_PATTERN "Le 15 MARS 2024." = ["15 MARS 2024"]
  /\ Dateutil.split "15 mars 2024" = ["15"; " "; "mars"; " "; "2024"]
  /\ Dateutil.month "mars" = None
  /\ Re.search true DEADLINE_PATTERN "15 mars 2024" = None
  /\ every_day (fun today =>
       Dateutil.parse today "15 mars 2024" = Raise
       /\ parse_dates_from_text (Dateutil.dateparse today) "15 mars 2024"
          = (None, None)
       /\ parse_dates_from_text (Dateutil.dateparse today) "15 mar 2024"
          = (Some "2024-03-15", None)).
Proof.
  repeat split; try reflexivity; vm_compute; reflexivity.
Qed.

(** ** The examples of the specification *)

(** Two dates written day first, in either order. *)
Example two_dates_either_order :
  every_day (fun today =>
    parse_dates_from_text (Dateutil.dateparse today)
      "Avis du 10/01/2024, offres avant le 05/03/2024"
    = (Some "2024-01-10", Some "2024-03-05")
    /\ parse_dates_from_text (Dateutil.dateparse today)
         "Offres avant le 05/03/2024 (avis du 10/01/2024)"
       = (Some "2024-01-10", Some "2024-03-05")).
Proof. intros today. split; vm_compute; reflexivity. Qed.

(** The same dates written year first come out with day and month
    exchanged: the parser is asked to read the day first. *)
Example iso_dates_day_first :
  every_day (fun today =>
    Dateutil.parse today "2024-01-10"
    = Ok (Datetime.mkdate 2024 10 1 eq_refl)).
Proof. intros today. vm_compute. reflexivity. Qed.

(** A text with the label and no generic date shape: the gap of the
    labelled pattern is greedy and takes the first digit of the day. *)
Example labelled_deadline_greedy_gap :
  Re.findall true DATE_PATTERN "date limite: 20/04/2024h" = []
  /\ option_map (Re.group 2) (Re.search true DEADLINE_PATTERN "date limite: 20/04/2024h")
     = Some "0/04/2024"
  /\ every_day (fun today =>
       parse_dates_from_text (Dateutil.dateparse today) "date limite: 20/04/2024h"
       = (None, None)).
Proof.
  split; [reflexivity|]. split; [reflexivity|].
  intros today. vm_compute. reflexivity.
Qed.

(** * Further properties *)

(** ** The fetch *)

Lemma safe_get_loop_some : forall get n attempt r,
  safe_get_loop get attempt n = Some r <->
  exists k, attempt <= k < attempt + n /\ get k = Answered r
            /\ status_code r = 200%Z
            /\ forall j, attempt <= j < k -> attempt_fails (get j).
Proof.
  intros get. induction n as [|n IH]; intros attempt r; simpl.
  - split; [discriminate|]. intros [k [Hk _]]. lia.
  - split.
    + intros H.
      assert (Hlater : safe_get_loop get (S attempt) n = Some r ->
                       attempt_fails (get attempt) ->
                       exists k, attempt <= k < attempt + S n /\ get k = Answered r
                                 /\ status_code r = 200%Z
                                 /\ forall j, attempt <= j < k -> attempt_fails (get j)).
      { intros E Hf. apply IH in E. destruct E as [k [Hk [Eg [Es Hb]]]].
        exists k. split; [lia|]. split; [exact Eg|]. split; [exact Es|].
        intros j Hj. destruct (Nat.eq_dec j attempt) as [->|Hne]; [exact Hf|].
        apply Hb. lia. }
      destruct (get attempt) as [|r0] eqn:Eg.
      * apply Hlater; [exact H|exact I].
      * destruct (Z.eqb_spec (status_code r0) 200) as [E200|N200].
        -- injection H as <-. exists attempt. split; [lia|].
           split; [exact Eg|]. split; [exact E200|]. intros j Hj. lia.
        -- apply Hlater; [exact H|exact N200].
    + intros [k [Hk [Eg [Es Hb]]]].
      destruct (Nat.eq_dec k attempt) as [->|Hne].
      * rewrite Eg. apply Z.eqb_eq in Es. now rewrite Es.
      * assert (Hf := Hb attempt ltac:(lia)).
        assert (E : safe_get_loop get (S attempt) n = Some r).
        { apply IH. exists k. split; [lia|]. split; [exact Eg|].
          split; [exact Es|]. intros j Hj. apply Hb. lia. }
        destruct (get attempt) as [|r0]; [exact E|]. simpl in Hf.
        destruct (Z.eqb_spec (status_code r0) 200); [contradiction|exact E].
Qed.

Lemma safe_get_loop_none_inv : forall get n attempt,
  safe_get_loop get attempt n = None ->
  forall k, attempt <= k < attempt + n -> attempt_fails (get k).
Proof.
  intros get. induction n as [|n IH]; intros attempt H k Hk; [lia|].
  simpl in H.
  destruct (Nat.eq_dec k attempt) as [->|Hne].
  - destruct (get attempt) as [|r0]; [exact I|]. simpl.
    destruct (Z.eqb_spec (status_code r0) 200); [discriminate|assumption].
  - assert (E : safe_get_loop get (S attempt) n = None).
    { destruct (get attempt) as [|r0]; [exact H|].
      destruct (status_code r0 =? 200)%Z; [discriminate|exact H]. }
    apply (IH _ E). lia.
Qed.

(** X1.  [safe_get] answers with the response of the first attempt
    whose status is 200, every attempt before it having raised or
    answered with another status; it answers [None] exactly when all
    [retries + 1] attempts fail. *)
Theorem safe_get_first_success :
  forall (get : nat -> get_outcome) (retries : nat),
    (forall r,
        safe_get get retries = Some r <->
        exists k, k <= retries /\ get k = Answered r /\ status_code r = 200%Z
                  /\ forall j, j < k -> attempt_fails (get j))
    /\ (safe_get get retries = None <->
        forall k, k <= retries -> attempt_fails (get k)).
Proof.
  intros get retries. unfold safe_get. split.
  - intros r. rewrite safe_get_loop_some. split.
    + intros [k [Hk [Eg [Es Hb]]]]. exists k. split; [lia|].
      split; [exact Eg|]. split; [exact Es|]. intros j Hj. apply Hb. lia.
    + intros [k [Hk [Eg [Es Hb]]]]. exists k. split; [lia|].
      split; [exact Eg|]. split; [exact Es|]. intros j Hj. apply Hb. lia.
  - split.
    + intros H k Hk. apply (safe_get_loop_none_inv _ _ _ H). lia.
    + intros H. apply safe_get_loop_none. intros k Hk. apply H. lia.
Qed.

Lemma safe_get_actions_result : forall get n attempt,
  fst (safe_get_actions get attempt n) = safe_get_loop get attempt n.
Proof.
  intros get. induction n as [|n IH]; intros attempt; simpl; [reflexivity|].
  specialize (IH (S attempt)).
  destruct (safe_get_actions get (S attempt) n) as [r acts]. simpl in IH.
  destruct (get attempt) as [|r0]; [exact IH|].
  destruct (status_code r0 =? 200)%Z; [reflexivity|exact IH].
Qed.

Lemma failed_attempts_app : forall n m attempt,
  failed_attempts attempt (n + m)
  = failed_attempts attempt n ++ failed_attempts (attempt + n) m.
Proof.
  induction n as [|n IH]; intros m attempt; simpl.
  - now rewrite Nat.add_0_r.
  - rewrite IH. now rewrite Nat.add_succ_comm.
Qed.

Lemma slept_app : forall a b, slept (a ++ b) = slept a + slept b.
Proof.
  induction a as [|[k|s] a IH]; intros b; simpl; [reflexivity|apply IH|].
  rewrite IH. lia.
Qed.

Lemma slept_failed_attempts : forall n attempt,
  2 * slept (failed_attempts attempt n) = n * (2 * attempt + n + 1).
Proof.
  induction n as [|n IH]; intros attempt; [reflexivity|].
  cbn [failed_attempts slept]. specialize (IH (S attempt)). nia.
Qed.

Lemma safe_get_actions_shape : forall get n attempt,
  match safe_get_actions get attempt n with
  | (None, acts) => acts = failed_attempts attempt n
  | (Some r, acts) =>
      exists k, k < n /\ get (attempt + k) = Answered r
                /\ acts = failed_attempts attempt k ++ [Get_call (attempt + k)]
  end.
Proof.
  intros get. induction n as [|n IH]; intros attempt; simpl; [reflexivity|].
  specialize (IH (S attempt)).
  assert (Hagain :
    match (let '(r, acts) := safe_get_actions get (S attempt) n in
           (r, Get_call attempt :: Sleep_for (S attempt) :: acts)) with
    | (None, acts) =>
        acts = Get_call attempt :: Sleep_for (S attempt) :: failed_attempts (S attempt) n
    | (Some r, acts) =>
        exists k, k < S n /\ get (attempt + k) = Answered r
                  /\ acts = failed_attempts attempt k ++ [Get_call (attempt + k)]
    end).
  { destruct (safe_get_actions get (S attempt) n) as [[r|] acts].
    - destruct IH as [k [Hk [Eg ->]]]. exists (S k). split; [lia|].
      rewrite <- Nat.add_succ_comm. split; [exact Eg|]. reflexivity.
    - now rewrite IH. }
  destruct (get attempt) as [|r0] eqn:Eg; [exact Hagain|].
  destruct (status_code r0 =? 200)%Z; [|exact Hagain].
  exists 0. rewrite Nat.add_0_r. split; [lia|]. split; [exact Eg|]. reflexivity.
Qed.

(** X2.  Besides answering as [safe_get] does, the loop pauses after
    every attempt it does not return, [1 + attempt] seconds each time and
    after the last attempt too, and never after the one it returns: a
    fetch that fails altogether has called [session.get] [retries + 1]
    times and slept [(retries + 1) (retries + 2) / 2] seconds, six with
    the default of two retries; one that succeeds at attempt [k] has
    slept [k (k + 1) / 2] seconds. *)
Theorem safe_get_pauses :
  forall (get : nat -> get_outcome) (retries : nat),
    let run := safe_get_actions get 0 (retries + 1) in
    fst run = safe_get get retries
    /\ (safe_get get retries = None ->
        snd run = failed_attempts 0 (retries + 1)
        /\ 2 * slept (snd run) = (retries + 1) * (retries + 2))
    /\ (forall r, safe_get get retries = Some r ->
        exists k, k <= retries /\ get k = Answered r
                  /\ snd run = failed_attempts 0 k ++ [Get_call k]
                  /\ 2 * slept (snd run) = k * (k + 1))
    /\ slept (failed_attempts 0 (default_retries + 1)) = 6.
Proof.
  intros get retries run.
  pose proof (safe_get_actions_result get (retries + 1) 0) as Er.
  pose proof (safe_get_actions_shape get (retries + 1) 0) as Hs.
  fold run in Er, Hs. unfold safe_get.
  destruct run as [res acts]. cbn [fst snd] in *. subst res.
  split; [reflexivity|]. split; [|split].
  - intros E. rewrite E in Hs. subst acts. split; [reflexivity|].
    rewrite slept_failed_attempts. lia.
  - intros r E. rewrite E in Hs. destruct Hs as [k [Hk [Eg ->]]].
    exists k. split; [lia|]. split; [exact Eg|]. split; [reflexivity|].
    rewrite slept_app, Nat.mul_add_distr_l, slept_failed_attempts. simpl. lia.
  - reflexivity.
Qed.

Lemma safe_get_pauses_witness :
  snd (safe_get_actions (fun _ => Raised) 0 (default_retries + 1))
  = [Get_call 0; Sleep_for 1; Get_call 1; Sleep_for 2; Get_call 2; Sleep_for 3]
  /\ 2 * slept (snd (safe_get_actions (fun _ => Raised) 0 (default_retries + 1)))
     = (default_retries + 1) * (default_retries + 2).
Proof.
  exact (proj1 (proj2 (safe_get_pauses (fun _ => Raised) default_retries)) eq_refl).
Defined.

(** ** Cleaning a text *)

Module CleanFacts.

Lemma space_is_space : Str.isspace " "%char = true.
Proof. reflexivity. Qed.

Lemma code_32 : forall c, (Str.code c =? 32)%N = true -> c = " "%char.
Proof.
  intros c H. apply N.eqb_eq in H. unfold Str.code in H.
  rewrite <- (ascii_N_embedding c), H. reflexivity.
Qed.

Lemma collapse_after_space : forall s, no_space_first (collapse_spaces true s) = true.
Proof.
  induction s as [|c s IH]; simpl; [reflexivity|].
  destruct (Str.isspace c) eqn:E; [exact IH|]. simpl. now rewrite E.
Qed.

Lemma collapse_loose : forall s b, loose (collapse_spaces b s) = true.
Proof.
  induction s as [|c s IH]; intros b; simpl; [reflexivity|].
  destruct (Str.isspace c) eqn:E.
  - destruct b; [apply IH|].
    cbn [loose]. rewrite space_is_space, IH, andb_true_r.
    pose proof (collapse_after_space s) as Hn.
    destruct (collapse_spaces true s); [reflexivity|exact Hn].
  - cbn [loose]. now rewrite E, IH.
Qed.

Lemma loose_tail : forall c s, loose (String c s) = true -> loose s = true.
Proof. intros c s H. simpl in H. apply andb_true_iff in H. apply H. Qed.

Lemma lstrip_loose : forall s, loose s = true -> loose (Str.lstrip s) = true.
Proof.
  induction s as [|c s IH]; intros H; simpl; [reflexivity|].
  destruct (Str.isspace c); [apply IH; now apply loose_tail with c|exact H].
Qed.

Lemma lstrip_first : forall s, no_space_first (Str.lstrip s) = true.
Proof.
  induction s as [|c s IH]; simpl; [reflexivity|].
  destruct (Str.isspace c) eqn:E; [exact IH|]. simpl. now rewrite E.
Qed.

(** [rstrip] keeps the first character, or leaves nothing. *)
Lemma rstrip_head : forall c s,
  Str.rstrip (String c s) = EmptyString
  \/ exists r, Str.rstrip (String c s) = String c r.
Proof.
  intros c s. simpl. destruct (Str.rstrip s) as [|c' r].
  - destruct (Str.isspace c); [now left|right; now exists EmptyString].
  - right. now exists (String c' r).
Qed.

Lemma rstrip_first : forall s,
  no_space_first s = true -> no_space_first (Str.rstrip s) = true.
Proof.
  intros [|c s] H; [reflexivity|].
  destruct (rstrip_head c s) as [->|[r ->]]; [reflexivity|exact H].
Qed.

Lemma rstrip_single_spaced : forall s,
  loose s = true -> single_spaced (Str.rstrip s) = true.
Proof.
  induction s as [|c s IH]; intros H; [reflexivity|].
  pose proof (IH (loose_tail _ _ H)) as Hr.
  cbn [Str.rstrip]. destruct (Str.rstrip s) as [|c' r] eqn:Er.
  - destruct (Str.isspace c) eqn:E; [reflexivity|]. simpl. now rewrite E.
  - cbn [single_spaced]. cbn [single_spaced] in Hr. rewrite Hr, andb_true_r.
    destruct (Str.isspace c) eqn:E; [|reflexivity].
    simpl in H. rewrite E in H. apply andb_true_iff in H. destruct H as [H _].
    apply andb_true_iff in H. destruct H as [H32 Hnext]. rewrite H32. simpl.
    destruct s as [|c2 s2]; [discriminate|].
    destruct (rstrip_head c2 s2) as [E0|[r2 E2]]; rewrite Er in *; [discriminate|].
    injection E2 as -> _. exact Hnext.
Qed.

Lemma clean_text_strip : forall s,
  clean_text (Some s) = Str.strip (collapse_spaces false s).
Proof. intros [|c s]; reflexivity. Qed.

Lemma single_spaced_loose : forall s, single_spaced s = true -> loose s = true.
Proof.
  induction s as [|c s IH]; intros H; [reflexivity|].
  cbn [single_spaced] in H. apply andb_true_iff in H. destruct H as [Hc Hs].
  cbn [loose]. rewrite (IH Hs), andb_true_r.
  destruct (Str.isspace c); [|reflexivity].
  apply andb_true_iff in Hc. destruct Hc as [-> Hn].
  destruct s; [discriminate|exact Hn].
Qed.

Lemma collapse_fixed : forall s,
  loose s = true -> collapse_spaces false s = s.
Proof.
  assert (G : forall s b, loose s = true ->
              (b = true -> no_space_first s = true) -> collapse_spaces b s = s).
  { induction s as [|c s IH]; intros b H Hb; [reflexivity|].
    cbn [collapse_spaces]. cbn [loose] in H. apply andb_true_iff in H.
    destruct H as [Hc Hs].
    destruct (Str.isspace c) eqn:E.
    - apply andb_true_iff in Hc. destruct Hc as [H32 Hn].
      destruct b.
      + specialize (Hb eq_refl). simpl in Hb. rewrite E in Hb. discriminate.
      + rewrite (code_32 c H32). f_equal. apply IH; [exact Hs|].
        intros _. destruct s; [reflexivity|exact Hn].
    - f_equal. apply IH; [exact Hs|discriminate]. }
  intros s H. apply G; [exact H|discriminate].
Qed.

Lemma lstrip_fixed : forall s, no_space_first s = true -> Str.lstrip s = s.
Proof.
  intros [|c s] H; [reflexivity|]. simpl in *.
  now destruct (Str.isspace c).
Qed.

Lemma rstrip_fixed : forall s, single_spaced s = true -> Str.rstrip s = s.
Proof.
  induction s as [|c s IH]; intros H; [reflexivity|].
  cbn [single_spaced] in H. apply andb_true_iff in H. destruct H as [Hc Hs].
  cbn [Str.rstrip]. rewrite (IH Hs).
  destruct s as [|c' s']; [|reflexivity].
  destruct (Str.isspace c); [|reflexivity].
  apply andb_true_iff in Hc. destruct Hc as [_ Hc]. discriminate.
Qed.

Lemma unspaced_collapse : forall s b, unspaced (collapse_spaces b s) = unspaced s.
Proof.
  induction s as [|c s IH]; intros b; simpl; [reflexivity|].
  destruct (Str.isspace c) eqn:E.
  - destruct b; [apply IH|]. cbn [unspaced]. rewrite space_is_space. apply IH.
  - cbn [unspaced]. now rewrite E, IH.
Qed.

Lemma unspaced_lstrip : forall s, unspaced (Str.lstrip s) = unspaced s.
Proof.
  induction s as [|c s IH]; simpl; [reflexivity|].
  destruct (Str.isspace c) eqn:E; [exact IH|]. simpl. now rewrite E.
Qed.

Lemma unspaced_rstrip : forall s, unspaced (Str.rstrip s) = unspaced s.
Proof.
  induction s as [|c s IH]; [reflexivity|].
  cbn [Str.rstrip]. destruct (Str.rstrip s) as [|c' r] eqn:Er.
  - cbn [unspaced] in *. rewrite <- IH.
    destruct (Str.isspace c) eqn:E; [reflexivity|]. simpl. now rewrite E.
  - cbn [unspaced] in *. now rewrite <- IH.
Qed.

Lemma tidy_clean : forall s, tidy (clean_text s) = true.
Proof.
  intros [s|]; [|reflexivity]. rewrite clean_text_strip. unfold Str.strip, tidy.
  apply andb_true_iff. split.
  - apply (rstrip_first (Str.lstrip (collapse_spaces false s))), lstrip_first.
  - apply rstrip_single_spaced, lstrip_loose, collapse_loose.
Qed.

Lemma clean_fixed : forall s, tidy s = true -> clean_text (Some s) = s.
Proof.
  intros s H. unfold tidy in H. apply andb_true_iff in H. destruct H as [Hf Hs].
  rewrite clean_text_strip. unfold Str.strip.
  rewrite (collapse_fixed s (single_spaced_loose s Hs)).
  rewrite (lstrip_fixed s Hf). now apply rstrip_fixed.
Qed.

Lemma strip_fixed : forall s, tidy s = true -> Str.strip s = s.
Proof.
  intros s H. unfold tidy in H. apply andb_true_iff in H. destruct H as [Hf Hs].
  unfold Str.strip. rewrite (lstrip_fixed s Hf). now apply rstrip_fixed.
Qed.

End CleanFacts.

(** X3.  What [clean_text] returns has no white space at either end,
    and its words are one plain space apart: tabs, line breaks and
    no-break spaces are gone.  The characters that are not white space
    are those of the argument, in their order; an absent or empty
    argument gives the empty string. *)
Theorem clean_text_tidy :
  (forall s : option string, tidy (clean_text s) = true)
  /\ (forall s : string, unspaced (clean_text (Some s)) = unspaced s)
  /\ clean_text None = EmptyString
  /\ clean_text (Some EmptyString) = EmptyString.
Proof.
  split; [exact CleanFacts.tidy_clean|]. split; [|split; reflexivity].
  intros s. rewrite CleanFacts.clean_text_strip. unfold Str.strip.
  now rewrite CleanFacts.unspaced_rstrip, CleanFacts.unspaced_lstrip,
    CleanFacts.unspaced_collapse.
Qed.

(** X4.  [clean_text] changes nothing in a text that is tidy already,
    so cleaning twice is cleaning once; and [stable_hash], which trims
    its fields, hashes a cleaned text as it stands. *)
Theorem clean_text_idempotent :
  (forall s : string, tidy s = true -> clean_text (Some s) = s)
  /\ (forall s : option string, clean_text (Some (clean_text s)) = clean_text s)
  /\ (forall s : option string, trimmed (Some (clean_text s)) = clean_text s).
Proof.
  split; [exact CleanFacts.clean_fixed|]. split.
  - intros s. apply CleanFacts.clean_fixed, CleanFacts.tidy_clean.
  - intros s. unfold trimmed. cbn [Str.or_empty].
    apply CleanFacts.strip_fixed, CleanFacts.tidy_clean.
Qed.

Lemma clean_text_idempotent_witness :
  clean_text (Some "Avis de march") = "Avis de march".
Proof.
  apply (proj1 clean_text_idempotent "Avis de march"). reflexivity.
Defined.

(** ** Substrings *)

Module SubFacts.

Lemma prefix_app : forall p s,
  String.prefix p s = true <-> exists post, s = (p ++ post)%string.
Proof.
  induction p as [|c p IH]; intros s.
  - split; [intros _; now exists s|]. now destruct s.
  - destruct s as [|d s]; simpl.
    + split; [discriminate|]. intros [post E]. discriminate.
    + destruct (ascii_dec c d) as [->|Hne].
      * rewrite IH. split; intros [post E]; exists post.
        -- now rewrite E.
        -- now injection E.
      * split; [discriminate|]. intros [post E]. injection E as E _.
        now elim Hne.
Qed.

Lemma contains_app : forall sub s,
  Str.contains sub s = true <->
  exists pre post, s = (pre ++ sub ++ post)%string.
Proof.
  intros sub. induction s as [|c s IH].
  - cbn [Str.contains]. rewrite orb_false_r, prefix_app. split.
    + intros [post E]. now exists EmptyString, post.
    + intros [[|d pre] [post E]]; [now exists post|discriminate].
  - cbn [Str.contains]. rewrite orb_true_iff, prefix_app, IH. split.
    + intros [[post E]|[pre [post E]]].
      * now exists EmptyString, post.
      * exists (String c pre), post. now rewrite E.
    + intros [[|d pre] [post E]].
      * left. now exists post.
      * right. injection E as _ E. now exists pre, post.
Qed.

Lemma contains_trans : forall a b c,
  Str.contains a b = true -> Str.contains b c = true -> Str.contains a c = true.
Proof.
  intros a b c Hab Hbc. apply contains_app in Hab. apply contains_app in Hbc.
  destruct Hab as [p1 [q1 ->]]. destruct Hbc as [p2 [q2 ->]].
  apply contains_app. exists (p2 ++ p1)%string, (q1 ++ q2)%string.
  now rewrite !ReFacts.append_assoc.
Qed.

Lemma contains_prefix_part : forall a b s,
  Str.contains (a ++ b) s = true -> Str.contains a s = true.
Proof.
  intros a b s H. apply contains_app in H. destruct H as [pre [post ->]].
  apply contains_app. exists pre, (b ++ post)%string. now rewrite ReFacts.append_assoc.
Qed.

Lemma lower_app : forall a b,
  Str.lower (a ++ b) = (Str.lower a ++ Str.lower b)%string.
Proof. induction a as [|c a IH]; intros b; simpl; [reflexivity|now rewrite IH]. Qed.

Lemma contains_lower : forall a b,
  Str.contains a b = true -> Str.contains (Str.lower a) (Str.lower b) = true.
Proof.
  intros a b H. apply contains_app in H. destruct H as [pre [post ->]].
  apply contains_app. exists (Str.lower pre), (Str.lower post).
  now rewrite !lower_app.
Qed.

Lemma contains_left : forall k a b,
  Str.contains k a = true -> Str.contains k (a ++ b) = true.
Proof.
  intros k a b H. apply contains_app in H. destruct H as [pre [post ->]].
  apply contains_app. exists pre, (post ++ b)%string. now rewrite !ReFacts.append_assoc.
Qed.

Lemma contains_right : forall k a b,
  Str.contains k b = true -> Str.contains k (a ++ b) = true.
Proof.
  intros k a b H. apply contains_app in H. destruct H as [pre [post ->]].
  apply contains_app. exists (a ++ pre)%string, post. now rewrite !ReFacts.append_assoc.
Qed.

(** A word without a space does not reach across a space. *)
Lemma prefix_before_space : forall k a b,
  space_free k = true ->
  String.prefix k (a ++ String " " b) = String.prefix k a.
Proof.
  induction k as [|c k IH]; intros a b Hk.
  - now destruct a.
  - cbn [space_free] in Hk. apply andb_true_iff in Hk. destruct Hk as [Hc Hk].
    destruct a as [|d a]; simpl.
    + destruct (ascii_dec c " ") as [->|_]; [discriminate|reflexivity].
    + destruct (ascii_dec c d); [now apply IH|reflexivity].
Qed.

Lemma contains_across_space : forall k a b,
  space_free k = true -> Str.truthy k = true ->
  Str.contains k (a ++ String " " b) = Str.contains k a || Str.contains k b.
Proof.
  intros k a b Hk Hne. induction a as [|d a IH].
  - cbn [append Str.contains]. destruct k as [|c k]; [discriminate|].
    cbn [space_free] in Hk. apply andb_true_iff in Hk. destruct Hk as [Hc _].
    cbn [String.prefix]. destruct (ascii_dec c " ") as [->|_]; [discriminate|].
    reflexivity.
  - cbn [append Str.contains]. rewrite IH.
    change (String d (a ++ String " " b)) with (String d a ++ String " " b)%string.
    rewrite (prefix_before_space k (String d a) b Hk).
    now rewrite orb_assoc.
Qed.

(** The words of the path test are keywords. *)
Lemma path_word_keyword : forall abs_url path text,
  Str.contains path abs_url = true ->
  path_rule path = true ->
  keyword_rule abs_url text = true.
Proof.
  intros abs_url path text Hin Hp. unfold keyword_rule, likely_offer_link.
  unfold path_rule in Hp. apply existsb_exists in Hp.
  destruct Hp as [k [Hk Hc]]. apply existsb_exists. exists k. split.
  - unfold PATH_WORDS in Hk. unfold LINK_KEYWORDS. simpl in Hk |- *.
    intuition.
  - rewrite lower_app. apply contains_left.
    apply (contains_trans k (Str.lower path)); [exact Hc|].
    now apply contains_lower.
Qed.

End SubFacts.

(** ** The keyword test *)

(** X5.  [likely_offer_link] looks at the address and at the anchor text
    apart: it holds exactly when a keyword stands in the lower-cased
    address or in the lower-cased text, and no keyword is found across
    the space that joins the two. *)
Theorem likely_offer_link_either_part :
  forall href text : string,
    likely_offer_link href text = has_keyword href || has_keyword text.
Proof.
  intros href text. unfold likely_offer_link, has_keyword.
  rewrite SubFacts.lower_app.
  change (Str.lower (" " ++ text)) with (String " " (Str.lower text)).
  assert (G : forall ks,
             forallb (fun k => space_free k && Str.truthy k) ks = true ->
             existsb (fun k => Str.contains k
                                 (Str.lower href ++ String " " (Str.lower text))) ks
             = existsb (fun k => Str.contains k (Str.lower href)) ks
               || existsb (fun k => Str.contains k (Str.lower text)) ks).
  { induction ks as [|k ks IH]; intros Hks; [reflexivity|].
    cbn [forallb] in Hks. apply andb_true_iff in Hks. destruct Hks as [Hk Hks].
    apply andb_true_iff in Hk. destruct Hk as [Hs Hn].
    cbn [existsb]. rewrite (IH Hks), (SubFacts.contains_across_space k _ _ Hs Hn).
    destruct (Str.contains k (Str.lower href)),
             (Str.contains k (Str.lower text)),
             (existsb (fun k0 => Str.contains k0 (Str.lower href)) ks);
      reflexivity. }
  apply G. reflexivity.
Qed.

(** X6.  Two of the twelve keywords never decide: a text that holds
    "aops" holds "aop", and one that holds "consultation" holds
    "consult"; the test is the same with the ten others alone. *)
Theorem likely_offer_link_ten_keywords :
  forall href text : string,
    likely_offer_link href text
    = existsb (fun k => Str.contains k (Str.lower (href ++ " " ++ text)))
        SHORT_KEYWORDS.
Proof.
  intros href text. unfold likely_offer_link.
  set (l := Str.lower (href ++ " " ++ text)).
  unfold LINK_KEYWORDS, SHORT_KEYWORDS. cbn [existsb].
  assert (H1 : Str.contains "aops" l = true -> Str.contains "aop" l = true)
    by apply (SubFacts.contains_prefix_part "aop" "s").
  assert (H2 : Str.contains "consultation" l = true -> Str.contains "consult" l = true)
    by apply (SubFacts.contains_prefix_part "consult" "ation").
  destruct (Str.contains "aops" l); [rewrite (H1 eq_refl)|];
    destruct (Str.contains "consultation" l); try rewrite (H2 eq_refl);
    repeat match goal with
           | |- context [Str.contains ?k l] =>
               destruct (Str.contains k l); cbn [orb]; try reflexivity
           end.
Qed.

(** X7.  Every word of the path test is a keyword: when the parsed path
    is a part of the address (as it is whenever [urlparse] drops no
    character), a link that passes the path test of line 138 passes
    [likely_offer_link] already, whatever the anchor text. *)
Theorem path_rule_implies_keyword_rule :
  forall abs_url path text : string,
    Str.contains path abs_url = true ->
    path_rule path = true ->
    keyword_rule abs_url text = true.
Proof. exact SubFacts.path_word_keyword. Qed.

Lemma path_rule_implies_keyword_rule_witness :
  keyword_rule "https://example.nc/fiche/12" "Voir" = true.
Proof.
  apply (path_rule_implies_keyword_rule "https://example.nc/fiche/12" "/fiche/12" "Voir");
    reflexivity.
Defined.

(** ** More on link discovery *)

(** X8.  The test of line 135 never fires: an address that passed the
    test of line 133 starts with "http://" or "https://", so it starts
    with neither "mailto:" nor "tel:", and the loop with the test and
    the loop without it go through the same states. *)
Theorem mailto_test_never_fires :
  (forall u : string,
      http_url u = true ->
      Str.startswith u "mailto:" || Str.startswith u "tel:" = false)
  /\ (forall urljoin urlparse_path base anchors st,
        link_loop urljoin urlparse_path base anchors st
        = link_loop_no_mailto urljoin urlparse_path base anchors st).
Proof.
  split; [exact http_not_mailto|].
  intros urljoin urlparse_path base anchors.
  induction anchors as [|a rest IH]; intros st; [reflexivity|].
  cbn [link_loop link_loop_no_mailto].
  assert (E : link_step urljoin urlparse_path base st a
              = link_step_no_mailto urljoin urlparse_path base st a).
  { unfold link_step, link_step_no_mailto.
    destruct (urljoin base (Str.strip (a_href a))) as [abs_url|]; [|reflexivity].
    destruct (http_url abs_url) eqn:Eh; [|reflexivity].
    now rewrite (http_not_mailto abs_url Eh). }
  rewrite E. destruct (link_step_no_mailto urljoin urlparse_path base st a);
    [apply IH|reflexivity].
Qed.

Lemma mailto_test_never_fires_witness :
  Str.startswith "https://example.nc/tel:12" "mailto:"
  || Str.startswith "https://example.nc/tel:12" "tel:" = false.
Proof.
  apply (proj1 mailto_test_never_fires "https://example.nc/tel:12"). reflexivity.
Defined.

(** X9.  A listing page that cannot be fetched gives the empty list of
    candidates, not an error: neither the parser nor [urljoin] is
    reached. *)
Theorem find_candidate_links_failed_fetch :
  forall (w : world) (listing_url : string),
    (forall k, k <= default_retries -> attempt_fails (session_get w listing_url k)) ->
    find_candidate_links w listing_url = Some [].
Proof.
  intros w listing_url H. unfold find_candidate_links.
  now rewrite (safe_get_none _ _ H).
Qed.

Lemma find_candidate_links_failed_fetch_witness :
  find_candidate_links (world_offline a_day) "https://example.nc/list" = Some [].
Proof.
  apply (find_candidate_links_failed_fetch (world_offline a_day)
           "https://example.nc/list" (fun k _ => I)).
Defined.

Module UrlFacts.

Import Urllib.

Lemma break_at_app : forall p s a b,
  break_at p s = (a, b) -> s = (a ++ b)%string.
Proof.
  intros p. induction s as [|c s IH]; intros a b H; simpl in H.
  - now injection H as <- <-.
  - destruct (p c).
    + now injection H as <- <-.
    + destruct (break_at p s) as [a' b'] eqn:E. injection H as <- <-.
      simpl. f_equal. now apply IH.
Qed.

Lemma tail_suffix : forall s, exists pre, s = (pre ++ tail s)%string.
Proof.
  intros [|c s]; [now exists EmptyString|]. now exists (String c EmptyString).
Qed.

Lemma cut_prefix : forall n s a b, cut n s = (a, b) -> exists post, s = (a ++ post)%string.
Proof.
  intros n s a b H. unfold cut in H.
  destruct (break_at (is_char n) s) as [a' b'] eqn:E. injection H as <- <-.
  exists b'. now apply break_at_app with (is_char n).
Qed.

Lemma splitparams_prefix : forall s a b,
  splitparams s = (a, b) -> exists post, s = (a ++ post)%string.
Proof.
  induction s as [|c s IH]; intros a b H; simpl in H.
  - injection H as <- <-. now exists EmptyString.
  - destruct (any_char (is_char 47) s).
    + destruct (splitparams s) as [a' b'] eqn:E. injection H as <- <-.
      destruct (IH a' b' eq_refl) as [post Ep]. exists post. simpl. now f_equal.
    + destruct (is_char 59 c || any_char (is_char 59) s).
      * now apply cut_prefix in H.
      * injection H as <- <-. exists EmptyString. now rewrite ReFacts.append_nil_r.
Qed.

Lemma part_refl : forall s, part s s.
Proof. intros s. exists EmptyString, EmptyString. simpl. now rewrite ReFacts.append_nil_r. Qed.

Lemma part_suffix : forall p pre s, part p s -> part p (pre ++ s)%string.
Proof.
  intros p pre s [a [b ->]]. exists (pre ++ a)%string, b.
  now rewrite ReFacts.append_assoc.
Qed.

Lemma part_prefix : forall p q post, part p q -> part p (q ++ post)%string.
Proof.
  intros p q post [a [b ->]]. exists a, (b ++ post)%string.
  now rewrite !ReFacts.append_assoc.
Qed.

Lemma part_of_prefix : forall a post, part a (a ++ post)%string.
Proof. intros a post. exists EmptyString, post. reflexivity. Qed.

Lemma part_trans : forall a b c, part a b -> part b c -> part a c.
Proof.
  intros a b c [p1 [q1 ->]] [p2 [q2 ->]].
  exists (p2 ++ p1)%string, (q1 ++ q2)%string. now rewrite !ReFacts.append_assoc.
Qed.

Lemma take_scheme_part : forall url scheme sch rest,
  take_scheme url scheme = (sch, rest) -> part rest url.
Proof.
  intros url scheme sch rest H. unfold take_scheme in H.
  destruct (break_at (is_char 58) url) as [a b] eqn:E.
  pose proof (break_at_app _ _ _ _ E) as Eu.
  destruct a as [|c a']; [injection H as _ <-; apply part_refl|].
  destruct b as [|d b']; [injection H as _ <-; apply part_refl|].
  destruct (ascii_letter c && all_char scheme_char (String c a')).
  - injection H as _ <-. rewrite Eu.
    apply part_suffix. apply (part_suffix b' (String d EmptyString) b'), part_refl.
  - injection H as _ <-. apply part_refl.
Qed.

Lemma urlsplit_path_part : forall url scheme r,
  urlsplit url scheme = Ok r -> part (u_path r) url.
Proof.
  intros url scheme r H. unfold urlsplit in H.
  destruct (negb (in_scope url && in_scope scheme)); [discriminate|].
  destruct (take_scheme url scheme) as [sch u1] eqn:E1.
  pose proof (take_scheme_part _ _ _ _ E1) as P1.
  destruct (if String.prefix "//" u1
            then break_at (fun c => is_char 47 c || is_char 63 c || is_char 35 c)
                          (tail (tail u1))
            else (EmptyString, u1)) as [netloc u2] eqn:E2.
  assert (P2 : part u2 u1).
  { destruct (String.prefix "//" u1).
    - apply break_at_app in E2.
      destruct (tail_suffix u1) as [p1 Ep1].
      destruct (tail_suffix (tail u1)) as [p2 Ep2].
      rewrite Ep1, Ep2, E2. apply part_suffix, part_suffix, part_suffix, part_refl.
    - injection E2 as _ <-. apply part_refl. }
  destruct (any_char _ netloc); [discriminate|].
  destruct (if any_char (is_char 35) u2 then cut 35 u2 else (u2, EmptyString))
    as [u3 fragment] eqn:E3.
  assert (P3 : part u3 u2).
  { destruct (any_char (is_char 35) u2).
    - destruct (cut_prefix _ _ _ _ E3) as [post ->]. apply part_of_prefix.
    - injection E3 as <- _. apply part_refl. }
  destruct (if any_char (is_char 63) u3 then cut 63 u3 else (u3, EmptyString))
    as [u4 query] eqn:E4.
  assert (P4 : part u4 u3).
  { destruct (any_char (is_char 63) u3).
    - destruct (cut_prefix _ _ _ _ E4) as [post ->]. apply part_of_prefix.
    - injection E4 as <- _. apply part_refl. }
  injection H as <-. cbn [u_path].
  apply (part_trans _ _ _ P4), (part_trans _ _ _ P3), (part_trans _ _ _ P2), P1.
Qed.

Lemma path_of_part : forall url p, path_of url = Ok p -> part p url.
Proof.
  intros url p H. unfold path_of, urlparse in H.
  destruct (urlsplit url EmptyString) as [r| |] eqn:E; try discriminate.
  pose proof (urlsplit_path_part _ _ _ E) as P. cbn [bind] in H.
  destruct (mem (u_scheme r) uses_params && any_char (is_char 59) (u_path r)).
  - destruct (splitparams (u_path r)) as [path params] eqn:Es.
    cbn [bind] in H. injection H as <-. cbn [u_path].
    destruct (splitparams_prefix _ _ _ Es) as [post Ep].
    apply (part_trans _ (u_path r)); [|exact P]. rewrite Ep. apply part_of_prefix.
  - cbn [bind] in H. injection H as <-. exact P.
Qed.

End UrlFacts.

(** When the path [urlparse] answers with is a part of the address, for
    every address the loop meets, the path test decides nothing. *)
Lemma link_loop_keyword_only_same :
  forall urljoin urlparse_path base anchors st,
    (forall a abs_url path,
        In a anchors ->
        urljoin base (Str.strip (a_href a)) = Some abs_url ->
        urlparse_path abs_url = Some path ->
        Str.contains path abs_url = true) ->
    link_loop urljoin urlparse_path base anchors st
    = link_loop_keyword_only urljoin urlparse_path base anchors st.
Proof.
  intros urljoin urlparse_path base anchors.
  induction anchors as [|a rest IH]; intros st Hin; [reflexivity|].
  cbn [link_loop link_loop_keyword_only].
  assert (E : link_step urljoin urlparse_path base st a
              = link_step_keyword_only urljoin urlparse_path base st a).
  { unfold link_step, link_step_keyword_only.
    destruct (urljoin base (Str.strip (a_href a))) as [abs_url|] eqn:Ej;
      [|reflexivity].
    destruct (negb (http_url abs_url)); [reflexivity|].
    destruct (Str.startswith abs_url "mailto:" || Str.startswith abs_url "tel:");
      [reflexivity|].
    destruct (urlparse_path abs_url) as [path|] eqn:Ep; [|reflexivity].
    destruct (keyword_rule abs_url (a_text a)) eqn:Ek; [reflexivity|].
    cbn [orb].
    assert (Hp : path_rule path = false).
    { destruct (path_rule path) eqn:Er; [|reflexivity].
      assert (Hk : keyword_rule abs_url (a_text a) = true).
      { apply (SubFacts.path_word_keyword abs_url path); [|exact Er].
        exact (Hin a abs_url path (or_introl eq_refl) Ej Ep). }
      congruence. }
    rewrite Hp. unfold pdf_rule. unfold keyword_rule in Ek. rewrite Ek.
    now rewrite andb_false_r. }
  rewrite E. destruct (link_step_keyword_only urljoin urlparse_path base st a);
    [|reflexivity].
  apply IH. intros a' abs_url path Ha'. apply Hin. now right.
Qed.

(** X10.  Where urllib's [urlparse] is modelled here (an address without
    white space or control character), the path it answers with is a
    part of the address.  For a listing on which every path [urlparse]
    answers with is a part of the address it was asked about, the path
    test of line 138 adds no link: the loop chooses the links that
    [likely_offer_link] accepts, no other.  The condition is needed: the
    model does not answer on an address that holds a tab, and when
    [urlparse] leaves the tab out of the path, the path test alone keeps
    a link that [likely_offer_link] refuses. *)
Theorem path_test_adds_nothing :
  (forall url p : string,
      Urllib.path_of url = Ok p -> Str.contains p url = true)
  /\ (forall urljoin urlparse_path base anchors st,
        (forall a abs_url path,
            In a anchors ->
            urljoin base (Str.strip (a_href a)) = Some abs_url ->
            urlparse_path abs_url = Some path ->
            Str.contains path abs_url = true) ->
        link_loop urljoin urlparse_path base anchors st
        = link_loop_keyword_only urljoin urlparse_path base anchors st)
  /\ (Urllib.path_of tabbed_address = Unmodelled
      /\ likely_offer_link tabbed_address "Voir" = false
      /\ link_loop (fun _ href => Some href) (fun _ => Some "/detail")
           "https://example.nc/list" [tabbed_anchor] ([], [])
         = Some ([tabbed_address], [tabbed_address])
      /\ link_loop_keyword_only (fun _ href => Some href) (fun _ => Some "/detail")
           "https://example.nc/list" [tabbed_anchor] ([], [])
         = Some ([], [])).
Proof.
  split; [|split; [exact link_loop_keyword_only_same|]].
  - intros url p H. apply SubFacts.contains_app. exact (UrlFacts.path_of_part _ _ H).
  - repeat split; vm_compute; reflexivity.
Qed.

Lemma path_test_adds_nothing_witness :
  Str.contains "/fiche/12" "https://example.nc/fiche/12;v=2?lang=fr#haut" = true
  /\ link_loop model_urljoin model_urlparse_path
       "https://example.nc/list" example_anchors ([], [])
     = link_loop_keyword_only model_urljoin model_urlparse_path
         "https://example.nc/list" example_anchors ([], []).
Proof.
  split.
  - apply (proj1 path_test_adds_nothing
             "https://example.nc/fiche/12;v=2?lang=fr#haut" "/fiche/12").
    vm_compute. reflexivity.
  - apply (proj1 (proj2 path_test_adds_nothing)).
    intros a abs_url path [<- | [<- | []]] Ej Ep;
      vm_compute in Ej; injection Ej as <-;
      vm_compute in Ep; injection Ep as <-;
      vm_compute; reflexivity.
Defined.

(** ** More on the detail extractor *)

Lemma basic_status_iso : forall today d previous,
  basic_status today (Some (Datetime.isoformat d)) previous
  = if Datetime.date_leb today d then "open" else "closed".
Proof.
  intros today d previous. unfold basic_status.
  now rewrite DateFacts.isoformat_truthy, DateFacts.fromisoformat_isoformat.
Qed.

Lemma find_titre_tidy : forall soup t, find_titre soup = Some t -> tidy t = true.
Proof.
  intros soup t H.
  assert (Hf : forall t, title_fallback soup = Some t -> tidy t = true).
  { intros t0 H0. unfold title_fallback in H0.
    assert (Ht : forall t1, option_map (fun x => clean_text (Some x)) (doc_title soup)
                            = Some t1 -> tidy t1 = true).
    { intros t1 H1. destruct (doc_title soup) as [s|]; [|discriminate].
      injection H1 as <-. exact (CleanFacts.tidy_clean (Some s)). }
    destruct (doc_og_title soup) as [[content|]|]; try (now apply Ht).
    destruct (Str.truthy content); [|now apply Ht].
    injection H0 as <-. exact (CleanFacts.tidy_clean (Some content)). }
  unfold find_titre in H.
  destruct (doc_h1 soup) as [[stripped spaced]|]; [|now apply Hf].
  destruct (Str.truthy stripped); [|now apply Hf].
  injection H as <-. exact (CleanFacts.tidy_clean (Some spaced)).
Qed.

Lemma find_organisme_tidy : forall ps text o,
  find_organisme ps text = Some o -> tidy o = true.
Proof.
  induction ps as [|p ps IH]; intros text o H; simpl in H; [discriminate|].
  destruct (Re.search true p text) as [m|]; [|now apply (IH text)].
  injection H as <-. exact (CleanFacts.tidy_clean (Some (Re.group 1 m))).
Qed.

(** X11.  Whatever the page, [parse_detail] returns a record for the
    address it was given, with one of the four statuses.  The status is
    "unknown" exactly when no HTML page was read (the fetch failed, or
    the answer was taken for a PDF); it is "open" or "closed" exactly
    when there is a deadline, and "published" when an HTML page was read
    and gave none.  A title and an organisation, when present, are tidy
    texts. *)
Theorem parse_detail_invariants :
  forall (w : world) (url : string),
    let d := parse_detail w url in
    detail_url d = url
    /\ In (statut d) ["open"; "closed"; "published"; "unknown"]
    /\ (statut d = "unknown" <-> html_page w url = None)
    /\ (statut d = "open" \/ statut d = "closed" <-> date_limite d <> None)
    /\ (statut d = "published" <->
        html_page w url <> None /\ date_limite d = None)
    /\ (forall t, titre d = Some t -> tidy t = true)
    /\ (forall o, organisme d = Some o -> tidy o = true).
Proof.
  intros w url d. subst d. unfold parse_detail, html_page.
  destruct (safe_get (session_get w url) default_retries) as [r|].
  2:{ cbn. repeat split; try tauto; try discriminate; intuition discriminate. }
  destruct (is_pdf r url).
  { cbn -[PDF_TITRE tidy]. repeat split; try tauto; try discriminate;
      try (intuition discriminate).
    intros t E. injection E as <-. reflexivity. }
  unfold parse_html.
  destruct (parse_dates_from_text (dateparse w) (doc_text (BeautifulSoup w (text r))))
    as [pub lim] eqn:E.
  cbn [detail_url titre organisme date_limite statut default_detail].
  assert (Hs : match lim with
               | Some s => exists d0, s = Datetime.isoformat d0
               | None => True
               end).
  { destruct lim as [s|]; [|exact I]. exact (parse_dates_lim_iso _ _ _ _ E). }
  split; [reflexivity|].
  destruct lim as [s|].
  - destruct Hs as [d0 ->]. rewrite basic_status_iso.
    destruct (Datetime.date_leb (today w) d0); cbn;
      repeat split; try tauto; try discriminate; try (intuition discriminate);
      try (intros; now apply find_titre_tidy with (BeautifulSoup w (text r)));
      try (intros; now apply find_organisme_tidy with ORGANISME_PATTERNS
                     (doc_text (BeautifulSoup w (text r)))).
  - cbn. repeat split; try tauto; try discriminate; try (intuition discriminate);
      try (intros; now apply find_titre_tidy with (BeautifulSoup w (text r)));
      try (intros; now apply find_organisme_tidy with ORGANISME_PATTERNS
                     (doc_text (BeautifulSoup w (text r)))).
Qed.

Lemma take_length : forall n s,
  String.length (Str.take n s) = Nat.min n (String.length s).
Proof.
  unfold Str.take. induction n as [|n IH]; intros [|c s]; simpl; auto.
Qed.

(** X12.  The excerpt is the first 600 characters of the first
    paragraph or block whose cleaned text is longer than 60 characters:
    it has from 61 to 600 characters, every block before it is shorter,
    and there is no excerpt when every block is. *)
Theorem find_extrait_first_long_block :
  forall blocks : list string,
    match find_extrait blocks with
    | Some e =>
        exists before p after,
          blocks = before ++ p :: after
          /\ Forall (fun b => String.length (clean_text (Some b)) <= 60) before
          /\ 60 < String.length (clean_text (Some p))
          /\ e = Str.take 600 (clean_text (Some p))
          /\ 61 <= String.length e <= 600
    | None =>
        Forall (fun b => String.length (clean_text (Some b)) <= 60) blocks
    end.
Proof.
  induction blocks as [|p rest IH]; [constructor|].
  cbn [find_extrait].
  destruct (Nat.ltb 60 (String.length (clean_text (Some p)))) eqn:El.
  - apply Nat.ltb_lt in El.
    assert (Ht : Str.truthy (clean_text (Some p)) = true).
    { destruct (clean_text (Some p)); [simpl in El; lia|reflexivity]. }
    rewrite Ht. cbn [andb].
    exists [], p, rest. split; [reflexivity|]. split; [constructor|].
    split; [exact El|]. split; [reflexivity|]. rewrite take_length. lia.
  - rewrite andb_false_r. apply Nat.ltb_ge in El.
    destruct (find_extrait rest) as [e|].
    + destruct IH as [before [q [after [Eb [Hb [Hq [Ee Hl]]]]]]].
      exists (p :: before), q, after. rewrite Eb.
      split; [reflexivity|]. split; [now constructor|]. auto.
    + now constructor.
Qed.

(** ** Names and references found by a pattern *)

Module GroupFacts.

Import Re.













End GroupFacts.





(** ** The run *)

Lemma or_default_truthy : forall p d,
  Str.truthy d = true -> Str.truthy (Str.or_default p d) = true.
Proof.
  intros [s|] d Hd; simpl; [|exact Hd].
  destruct (Str.truthy s) eqn:E; [exact E|exact Hd].
Qed.

Lemma or_default_fixed : forall s d,
  Str.truthy s = true -> Str.or_default (Some s) d = s.
Proof. intros s d H. simpl. now rewrite H. Qed.

Lemma parse_detail_statut : forall w u,
  In (statut (parse_detail w u)) ["open"; "closed"; "published"; "unknown"].
Proof.
  intros w u. unfold parse_detail.
  destruct (safe_get (session_get w u) default_retries) as [r|];
    [|cbn; tauto].
  destruct (is_pdf r u); [cbn; tauto|]. unfold parse_html.
  destruct (parse_dates_from_text (dateparse w) (doc_text (BeautifulSoup w (text r))))
    as [pub [s|]] eqn:E; cbn [statut default_detail].
  - destruct (parse_dates_lim_iso _ _ _ _ E) as [d0 ->].
    rewrite basic_status_iso. destruct (Datetime.date_leb (today w) d0); cbn; tauto.
  - cbn; tauto.
Qed.

(** X15.  The row [main] sends for a candidate carries the candidate's
    address and the source's identifier, a title that is never empty
    ("(Sans titre)" when the page gave none) and one of the four
    statuses; and its content hash is the fingerprint of the fields the
    row itself holds.  That last point rests on [main] filling in the
    title before the call: [upsert_appel] given an empty title stores
    "(Sans titre)" and hashes the empty title. *)
Theorem stored_row_consistent :
  forall (H : list Byte.byte -> string) (w : world) (source u : string),
    let row := detail_row H w source u in
    rec_detail_url row = u
    /\ rec_url_source_id row = source
    /\ Str.truthy (rec_titre row) = true
    /\ rec_titre row = Str.or_default (titre (parse_detail w u)) "(Sans titre)"
    /\ In (rec_statut row) ["open"; "closed"; "published"; "unknown"]
    /\ rec_content_hash row
       = fingerprint H (Some (rec_titre row)) (rec_organisme row)
           (Some (rec_detail_url row)) (rec_date_publication row)
           (rec_date_limite row) (rec_extrait row)
    /\ (forall o r p l st e,
          let direct := upsert_appel H source u "" o r p l st e in
          rec_titre direct = "(Sans titre)"
          /\ rec_content_hash direct = fingerprint H (Some "") o (Some u) p l e
          /\ hash_input [Some ""; o; Some u; p; l; e]
             <> hash_input [Some (rec_titre direct); o; Some u; p; l; e]).
Proof.
  intros H w source u row. subst row. unfold detail_row, upsert_appel.
  cbn [rec_detail_url rec_url_source_id rec_titre rec_statut rec_content_hash
       rec_organisme rec_date_publication rec_date_limite rec_extrait].
  assert (Ht : Str.truthy (Str.or_default (titre (parse_detail w u)) "(Sans titre)")
               = true) by now apply or_default_truthy.
  rewrite (or_default_fixed _ "(Sans titre)" Ht).
  split; [reflexivity|]. split; [reflexivity|]. split; [exact Ht|].
  split; [reflexivity|]. split.
  - pose proof (parse_detail_statut w u) as Hs.
    assert (Hn : Str.truthy (statut (parse_detail w u)) = true).
    { cbn [In] in Hs. destruct Hs as [<-|[<-|[<-|[<-|[]]]]]; reflexivity. }
    now rewrite (or_default_fixed _ "unknown" Hn).
  - split; [reflexivity|]. intros o r p l st e. cbv zeta.
    split; [reflexivity|]. split; [reflexivity|].
    cbn. discriminate.
Qed.

(** X16.  A candidate whose page cannot be fetched is sent to the store
    all the same, as a row titled "(Sans titre)" with status "unknown"
    and every other field of the page absent: the loop of [main] does
    not look at whether the fetch succeeded. *)
Theorem unfetched_page_is_stored :
  forall (H : list Byte.byte -> string) (w : world) (db : client)
         (source u : string) (rest : list string),
    (forall k, k <= default_retries -> attempt_fails (session_get w u k)) ->
    let row :=
      {| rec_url_source_id := source; rec_detail_url := u;
         rec_titre := "(Sans titre)"; rec_organisme := None;
         rec_reference := None; rec_date_publication := None;
         rec_date_limite := None; rec_statut := "unknown"; rec_extrait := None;
         rec_content_hash :=
           fingerprint H (Some "(Sans titre)") None (Some u) None None None |} in
    detail_row H w source u = row
    /\ exists more, candidates_loop H w db source (u :: rest) = Row_sent row :: more.
Proof.
  intros H w db source u rest Hf row.
  assert (E : detail_row H w source u = row).
  { unfold detail_row, parse_detail. now rewrite (safe_get_none _ _ Hf). }
  split; [exact E|]. cbn [candidates_loop]. rewrite E.
  destruct (upsert_row db row); eexists; reflexivity.
Qed.

Lemma unfetched_page_is_stored_witness :
  detail_row (fun _ => "digest") (world_offline a_day) "source-1"
    "https://example.nc/avis/1"
  = {| rec_url_source_id := "source-1";
       rec_detail_url := "https://example.nc/avis/1";
       rec_titre := "(Sans titre)"; rec_organisme := None;
       rec_reference := None; rec_date_publication := None;
       rec_date_limite := None; rec_statut := "unknown"; rec_extrait := None;
       rec_content_hash := "digest" |}.
Proof.
  exact (proj1 (unfetched_page_is_stored (fun _ => "digest") (world_offline a_day)
                  store_accepting "source-1" "https://example.nc/avis/1" []
                  (fun k _ => I))).
Defined.

Lemma candidates_loop_projections : forall H w db source cand,
  rows_sent (candidates_loop H w db source cand) = map (detail_row H w source) cand
  /\ pauses (candidates_loop H w db source cand) = List.length cand
  /\ errors_printed (candidates_loop H w db source cand)
     = filter (fun u => match upsert_row db (detail_row H w source u) with
                        | Some _ => false
                        | None => true
                        end) cand
  /\ sources_sent (candidates_loop H w db source cand) = [].
Proof.
  intros H w db source. induction cand as [|u rest [IH1 [IH2 [IH3 IH4]]]];
    [repeat split|].
  cbn [candidates_loop map filter List.length].
  destruct (upsert_row db (detail_row H w source u));
    cbn [rows_sent pauses errors_printed sources_sent];
    rewrite IH1, IH2, IH3, IH4; repeat split.
Qed.

(** X17.  In the loop over the candidates of a source, every candidate
    has its row sent once and is followed by one pause, in the order of
    the list, whatever the store answers: an upsert that raises prints
    an error for that address and stops nothing. *)
Theorem candidates_loop_sends_every_row :
  forall (H : list Byte.byte -> string) (w : world) (db : client)
         (source : string) (cand : list string),
    rows_sent (candidates_loop H w db source cand) = map (detail_row H w source) cand
    /\ pauses (candidates_loop H w db source cand) = List.length cand
    /\ errors_printed (candidates_loop H w db source cand)
       = filter (fun u => match upsert_row db (detail_row H w source u) with
                          | Some _ => false
                          | None => true
                          end) cand
    /\ rows_sent (candidates_loop H w store_refusing source cand)
       = rows_sent (candidates_loop H w store_accepting source cand).
Proof.
  intros H w db source cand.
  destruct (candidates_loop_projections H w db source cand) as [E1 [E2 [E3 _]]].
  split; [exact E1|]. split; [exact E2|]. split; [exact E3|].
  rewrite (proj1 (candidates_loop_projections H w store_refusing source cand)).
  now rewrite (proj1 (candidates_loop_projections H w store_accepting source cand)).
Qed.

Lemma rows_sent_app : forall a b, rows_sent (a ++ b) = rows_sent a ++ rows_sent b.
Proof.
  induction a as [|[s|r|u|] a IH]; intros b; simpl; auto. now rewrite IH.
Qed.

Lemma sources_sent_app : forall a b,
  sources_sent (a ++ b) = sources_sent a ++ sources_sent b.
Proof.
  induction a as [|[s|r|u|] a IH]; intros b; simpl; auto. now rewrite IH.
Qed.

Lemma find_candidate_links_length : forall w url out,
  find_candidate_links w url = Some out -> List.length out <= MAX_DETAIL_PER_SITE.
Proof.
  intros w url out H. unfold find_candidate_links in H.
  destruct (safe_get (session_get w url) default_retries) as [r|].
  - unfold candidate_links in H. revert H.
    generalize MAX_DETAIL_PER_SITE. intros n H.
    destruct (link_loop _ _ _ _ _) as [[c s]|]; [|discriminate].
    injection H as <-. apply firstn_le_length.
  - injection H as <-. simpl. lia.
Qed.

Lemma sources_loop_prefix : forall H w db sources ok evs,
  sources_loop H w db sources = (ok, evs) ->
  exists n,
    n <= List.length sources
    /\ sources_sent evs = firstn n (map source_row sources)
    /\ (ok = true -> n = List.length sources)
    /\ (ok = false -> 0 < n
        /\ (upsert_source db (nth (n - 1) (map source_row sources)
                                (source_row (EmptyString, EmptyString))) = None
            \/ find_candidate_links w
                 (snd (nth (n - 1) sources (EmptyString, EmptyString))) = None))
    /\ List.length (rows_sent evs) <= MAX_DETAIL_PER_SITE * n.
Proof.
  intros H w db. induction sources as [|[nom url] rest IH]; intros ok evs E.
  - injection E as <- <-. exists 0. repeat split; auto; discriminate.
  - cbn [sources_loop] in E. unfold upsert_url_source in E.
    change {| src_nom := nom; src_url := url; src_actif := true |}
      with (source_row (nom, url)) in E.
    destruct (upsert_source db (source_row (nom, url))) as [source_id|] eqn:Eu.
    + destruct (find_candidate_links w url) as [cand|] eqn:Ec.
      * destruct (sources_loop H w db rest) as [ok' evs'] eqn:El.
        injection E as <- <-.
        destruct (IH _ _ eq_refl) as [n [Hn [Hs [Hok [Hfail Hr]]]]].
        exists (S n). cbn [List.length map firstn sources_sent rows_sent].
        rewrite sources_sent_app, rows_sent_app, length_app.
        destruct (candidates_loop_projections H w db source_id cand)
          as [E1 [_ [_ E4]]].
        rewrite E4, E1, length_map. cbn [app rows_sent].
        pose proof (find_candidate_links_length _ _ _ Ec) as Hc.
        split; [lia|]. split; [now rewrite Hs|]. split; [intros Ht; now rewrite Hok|].
        split; [|lia].
        intros Hf. destruct (Hfail Hf) as [Hpos Hwhy]. split; [lia|].
        replace (S n - 1) with (S (n - 1)) by lia. exact Hwhy.
      * injection E as <- <-. exists 1. cbn. split; [lia|]. split; [reflexivity|].
        split; [discriminate|]. split; [|lia]. intros _. split; [lia|now right].
    + injection E as <- <-. exists 1. cbn. split; [lia|]. split; [reflexivity|].
      split; [discriminate|]. split; [|lia]. intros _. split; [lia|now left].
Qed.

(** X18.  A run does nothing when a setting of the store is absent or
    empty, or when [create_client] raises: no source is sent.  When the
    client is made, the run takes the sources in order with that client:
    the sources sent to the store are the first [n] of the list, all of
    them when the run ends normally, and when it does not, the [n]-th is
    the one whose upsert (or whose listing, in [urljoin] or [urlparse])
    raised: the sources after it are not visited.  At most 200 rows are
    sent for a source. *)
Theorem main_visits_sources_in_order :
  (forall H w create_client env_url env_key,
      Str.truthy (Str.or_empty env_url) = false
      \/ Str.truthy (Str.or_empty env_key) = false
      \/ create_client (Str.or_empty env_url) (Str.or_empty env_key) = None ->
      main H w create_client env_url env_key = (false, []))
  /\ (forall H w create_client env_url env_key sb ok evs,
        Str.truthy (Str.or_empty env_url) = true ->
        Str.truthy (Str.or_empty env_key) = true ->
        create_client (Str.or_empty env_url) (Str.or_empty env_key) = Some sb ->
        main H w create_client env_url env_key = (ok, evs) ->
        exists n,
          n <= List.length START_SOURCES
          /\ sources_sent evs = firstn n (map source_row START_SOURCES)
          /\ (ok = true -> n = List.length START_SOURCES)
          /\ (ok = false -> 0 < n
              /\ (upsert_source sb (nth (n - 1) (map source_row START_SOURCES)
                                      (source_row (EmptyString, EmptyString))) = None
                  \/ find_candidate_links w
                       (snd (nth (n - 1) START_SOURCES (EmptyString, EmptyString)))
                     = None))
          /\ List.length (rows_sent evs) <= 200 * n)
  /\ (forall H w create_client env_url env_key ok evs,
        main H w create_client env_url env_key = (ok, evs) ->
        exists n,
          n <= List.length START_SOURCES
          /\ sources_sent evs = firstn n (map source_row START_SOURCES)
          /\ (ok = true -> n = List.length START_SOURCES)
          /\ List.length (rows_sent evs) <= 200 * n)
  /\ (forall H w db sources ok evs,
        sources_loop H w db sources = (ok, evs) ->
        exists n,
          n <= List.length sources
          /\ sources_sent evs = firstn n (map source_row sources)
          /\ (ok = true -> n = List.length sources)
          /\ (ok = false -> 0 < n
              /\ (upsert_source db (nth (n - 1) (map source_row sources)
                                      (source_row (EmptyString, EmptyString))) = None
                  \/ find_candidate_links w
                       (snd (nth (n - 1) sources (EmptyString, EmptyString))) = None))
          /\ List.length (rows_sent evs) <= 200 * n).
Proof.
  split; [|split; [|split]].
  - intros H w create_client env_url env_key Hm. unfold main, get_supabase.
    destruct Hm as [-> | [-> | Hc]]; [reflexivity|now rewrite orb_true_r|].
    rewrite Hc.
    now destruct (negb (Str.truthy (Str.or_empty env_url))
                  || negb (Str.truthy (Str.or_empty env_key))).
  - intros H w create_client env_url env_key sb ok evs Hu Hk Hc E.
    unfold main, get_supabase in E. rewrite Hu, Hk, Hc in E. cbn [negb orb] in E.
    exact (sources_loop_prefix _ _ _ _ _ _ E).
  - intros H w create_client env_url env_key ok evs E. unfold main in E.
    destruct (get_supabase create_client env_url env_key) as [sb|].
    + destruct (sources_loop_prefix _ _ _ _ _ _ E) as [n [Hn [Hs [Hok [_ Hr]]]]].
      exists n. auto.
    + injection E as <- <-. exists 0.
      split; [lia|]. split; [reflexivity|]. split; [discriminate|]. cbn. lia.
  - exact sources_loop_prefix.
Qed.

Lemma main_visits_sources_in_order_witness :
  main (fun _ => "digest") (world_offline a_day) (fun _ _ => None)
       (Some "https://example.supabase.co") (Some "key")
  = (false, [])
  /\ exists n,
       n <= List.length START_SOURCES
       /\ sources_sent
            (snd (main (fun _ => "digest") (world_offline a_day)
                       (fun _ _ => Some store_accepting)
                       (Some "https://example.supabase.co") (Some "key")))
          = firstn n (map source_row START_SOURCES)
       /\ n = List.length START_SOURCES.
Proof.
  split.
  - apply (proj1 main_visits_sources_in_order). right. right. reflexivity.
  - destruct (proj1 (proj2 main_visits_sources_in_order)
                (fun _ => "digest") (world_offline a_day)
                (fun _ _ => Some store_accepting)
                (Some "https://example.supabase.co") (Some "key")
                store_accepting true
                (snd (main (fun _ => "digest") (world_offline a_day)
                           (fun _ _ => Some store_accepting)
                           (Some "https://example.supabase.co") (Some "key")))
                eq_refl eq_refl eq_refl ltac:(vm_compute; reflexivity))
      as [n [Hn [Hs [Hok _]]]].
    exists n. split; [exact Hn|]. split; [exact Hs|]. exact (Hok eq_refl).
Defined.

(** ** Dates need digits *)

Module DigitFacts.

Import Re.

Lemma digit_class : forall c,
  class_matches true false [Digit] c = Str.isdecimal c.
Proof. intros c. destruct c as [[] [] [] [] [] [] [] []]; reflexivity. Qed.

Lemma has_digit_app : forall a b,
  has_digit (a ++ b) = has_digit a || has_digit b.
Proof.
  induction a as [|c a IH]; intros b; simpl; [reflexivity|].
  now rewrite IH, orb_assoc.
Qed.

Lemma starts_has_digit : forall s, starts_with_digit s = true -> has_digit s = true.
Proof. intros [|c s] H; [discriminate|]. simpl in *. now rewrite H. Qed.

Lemma starts_app : forall a b,
  starts_with_digit a = true -> starts_with_digit (a ++ b) = true.
Proof. intros [|c a] b H; [discriminate|exact H]. Qed.

(** One digit or more: the text starts with a digit. *)
Lemma lang_digits_start : forall ic lo hi s,
  1 <= lo -> Lang ic (digits lo hi) s ->
  ic = true -> starts_with_digit s = true.
Proof.
  intros ic lo hi s Hlo L ->. unfold digits in L.
  inversion L as [| | | | | | |lo' hi' a n s' Hn Hhi T|]; subst.
  destruct n as [|n]; [lia|].
  inversion T as [|a n' s1 s2 L1 T']; subst.
  inversion L1 as [| |negate items c Hc| | | | | |]; subst.
  simpl. now rewrite <- digit_class.
Qed.

Lemma lang_cat_start : forall a b s,
  (forall s1, Lang true a s1 -> starts_with_digit s1 = true) ->
  Lang true (Cat a b) s -> starts_with_digit s = true.
Proof.
  intros a b s Ha L. inversion L as [| | | |a' b' s1 s2 L1 L2| | | |]; subst.
  apply starts_app. now apply Ha.
Qed.

Lemma shape_dmy_start : forall s, Lang true shape_dmy s -> starts_with_digit s = true.
Proof.
  intros s L. unfold shape_dmy in L. cbn [seq] in L.
  apply (lang_cat_start _ _ _ (fun s1 L1 =>
           lang_digits_start true 1 2 s1 (le_n 1) L1 eq_refl) L).
Qed.

Lemma shape_ymd_start : forall s, Lang true shape_ymd s -> starts_with_digit s = true.
Proof.
  intros s L. unfold shape_ymd in L. cbn [seq] in L.
  apply (lang_cat_start _ _ _ (fun s1 L1 =>
           lang_digits_start true 4 4 s1 ltac:(lia) L1 eq_refl) L).
Qed.

Lemma shape_named_start : forall s, Lang true shape_named s -> starts_with_digit s = true.
Proof.
  intros s L. unfold shape_named in L. cbn [seq] in L.
  apply (lang_cat_start _ _ _ (fun s1 L1 =>
           lang_digits_start true 1 2 s1 (le_n 1) L1 eq_refl) L).
Qed.

Lemma shape_iso_start : forall s, Lang true shape_iso s -> starts_with_digit s = true.
Proof.
  intros s L. unfold shape_iso in L. cbn [seq] in L.
  apply (lang_cat_start _ _ _ (fun s1 L1 =>
           lang_digits_start true 4 4 s1 ltac:(lia) L1 eq_refl) L).
Qed.

Lemma date_pattern_start : forall s,
  Lang true DATE_PATTERN s -> starts_with_digit s = true.
Proof.
  intros s L. unfold DATE_PATTERN in L. cbn [seq alt] in L.
  inversion L as [| | | |a b s1 s2 L1 L2| | | |]; subst.
  inversion L1; subst. cbn [append].
  inversion L2 as [| | | |a b s3 s4 L3 L4| | | |]; subst.
  apply starts_app.
  inversion L3 as [| | | | |? ? ? La|? ? ? Lb| |]; subst;
    [now apply shape_dmy_start|].
  inversion Lb as [| | | | |? ? ? Lc|? ? ? Ld| |]; subst;
    [now apply shape_ymd_start|now apply shape_named_start].
Qed.

Lemma deadline_date_start : forall s,
  Lang true DEADLINE_DATE s -> starts_with_digit s = true.
Proof.
  intros s L. unfold DEADLINE_DATE in L. cbn [alt] in L.
  inversion L as [| | | | |? ? ? La|? ? ? Lb| |]; subst;
    [now apply shape_dmy_start|].
  inversion Lb as [| | | | |? ? ? Lc|? ? ? Ld| |]; subst;
    [now apply shape_named_start|now apply shape_iso_start].
Qed.

(** The date pattern finds nothing in a text without a digit. *)
Lemma search_no_digit : forall s prev pos,
  has_digit s = false -> search_from true DATE_PATTERN prev s pos = None.
Proof.
  intros s prev pos Hs.
  destruct (search_from true DATE_PATTERN prev s pos) as [m|] eqn:E; [|reflexivity].
  destruct (ReFacts.search_from_sound _ _ _ _ _ _ E)
    as [pre [suffix [prev' [pos' [Es Hm]]]]].
  unfold match_at in Hm.
  match type of Hm with
  | match ?x with _ => _ end = _ => destruct x as [st|] eqn:Hrun
  end; [|discriminate].
  destruct (ReFacts.run_sound true DATE_PATTERN _ _ _ Hrun)
    as [s1 [st' [E1 [L _]]]].
  cbn [rest] in E1. apply date_pattern_start, starts_has_digit in L.
  rewrite Es, E1, !has_digit_app, L in Hs. rewrite orb_true_r in Hs. discriminate.
Qed.

Lemma findall_no_digit : forall s,
  has_digit s = false -> findall true DATE_PATTERN s = [].
Proof.
  intros s Hs. unfold findall. cbn [finditer_from].
  now rewrite (search_no_digit s None 0 Hs).
Qed.

Lemma deadline_no_digit : forall s,
  has_digit s = false -> search true DEADLINE_PATTERN s = None.
Proof.
  intros s Hs.
  destruct (search true DEADLINE_PATTERN s) as [m|] eqn:E; [|reflexivity].
  destruct (deadline_match_shape _ _ E) as [pre [label [gap [Et [_ [_ [_ L]]]]]]].
  apply deadline_date_start, starts_has_digit in L.
  rewrite Et, !has_digit_app, L in Hs. rewrite !orb_true_r in Hs. discriminate.
Qed.

End DigitFacts.

(** X19.  A text without a decimal digit holds no date for the program:
    neither pattern finds anything (each of their alternatives starts
    with a digit), the parser is never called, and the result is
    (absent, absent). *)
Theorem no_digit_no_date :
  forall (dateparse : string -> option Datetime.date) (text : string),
    has_digit text = false ->
    Re.findall true DATE_PATTERN text = []
    /\ Re.search true DEADLINE_PATTERN text = None
    /\ parse_dates_from_text dateparse text = (None, None).
Proof.
  intros dateparse text H.
  pose proof (DigitFacts.findall_no_digit text H) as E1.
  pose proof (DigitFacts.deadline_no_digit text H) as E2.
  split; [exact E1|]. split; [exact E2|].
  unfold parse_dates_from_text. rewrite E1. cbn [parsed_dates].
  unfold labeled_deadline. now rewrite E2.
Qed.

Lemma no_digit_no_date_witness :
  parse_dates_from_text (fun _ => None) "Date limite : fin mars" = (None, None).
Proof.
  apply (proj2 (proj2 (no_digit_no_date (fun _ => None) "Date limite : fin mars"
                         eq_refl))).
Defined.

(** ** The matcher does not tell one digit from another *)

Module BlurFacts.

Import Re.

Lemma in_all_ascii : forall c, In c all_ascii.
Proof.
  intros c. unfold all_ascii. apply in_map_iff. exists (nat_of_ascii c).
  split; [apply ascii_nat_embedding|]. apply in_seq.
  pose proof (nat_ascii_bounded c). lia.
Qed.

Lemma blur_word : forall c, is_word (Some (blur c)) = is_word (Some c).
Proof. intros c. destruct c as [[] [] [] [] [] [] [] []]; reflexivity. Qed.

Lemma blur_length : forall s, String.length (blur_string s) = String.length s.
Proof. induction s as [|c s IH]; simpl; [reflexivity|now rewrite IH]. Qed.

Lemma blur_take : forall n s,
  blur_string (Str.take n s) = Str.take n (blur_string s).
Proof.
  unfold Str.take. induction n as [|n IH]; intros [|c s]; simpl; try reflexivity.
  now rewrite IH.
Qed.

Lemma blur_is_word : forall o, is_word (option_map blur o) = is_word o.
Proof. intros [c|]; [apply blur_word|reflexivity]. Qed.

Lemma blur_boundary : forall st, at_boundary (blur_state st) = at_boundary st.
Proof.
  intros st. unfold at_boundary, next_char. cbn [blur_state before rest].
  rewrite blur_is_word. f_equal.
  destruct (rest st) as [|c s]; [reflexivity|]. cbn [blur_string]. apply blur_word.
Qed.

Lemma blur_close_group : forall n st st',
  close_group n (blur_state st) (blur_state st') = blur_state (close_group n st st').
Proof.
  intros n st st'. unfold close_group, blur_state. cbn [before rest groups map fst snd].
  now rewrite !blur_length, blur_take.
Qed.

Lemma eat_blur : forall ok st k k',
  (forall c, ok (blur c) = ok c) -> agree k k' ->
  eat ok (blur_state st) k' = option_map blur_state (eat ok st k).
Proof.
  intros ok st k k' Hok Hk. unfold eat. cbn [blur_state rest groups].
  destruct (rest st) as [|c s]; [reflexivity|]. cbn [blur_string].
  rewrite Hok. destruct (ok c); [|reflexivity].
  exact (Hk {| before := Some c; rest := s; groups := groups st |}).
Qed.

Lemma forallb_all : forall p, forallb p all_ascii = true -> forall c, p c = true.
Proof. intros p H c. exact (proj1 (forallb_forall p all_ascii) H c (in_all_ascii c)). Qed.

Lemma repeat_loop_blur : forall ma ma' lo hi k k',
  (forall st k k', agree k k' -> ma' (blur_state st) k' = option_map blur_state (ma st k)) ->
  agree k k' ->
  forall fuel n st,
    repeat_loop ma' lo hi k' fuel n (blur_state st)
    = option_map blur_state (repeat_loop ma lo hi k fuel n st).
Proof.
  intros ma ma' lo hi k k' Hma Hk. induction fuel as [|fuel IH]; intros n st;
    cbn [repeat_loop].
  - destruct (Nat.leb lo n); [apply Hk|reflexivity].
  - destruct (below n hi).
    + rewrite (Hma st
                 (fun st' => if Nat.ltb (String.length (rest st')) (String.length (rest st))
                             then repeat_loop ma lo hi k fuel (S n) st' else None)).
      * destruct (ma st _); [reflexivity|].
        cbn [option_map]. destruct (Nat.leb lo n); [apply Hk|reflexivity].
      * intros st'. cbn [blur_state rest]. rewrite !blur_length.
        destruct (Nat.ltb _ _); [apply IH|reflexivity].
    + destruct (Nat.leb lo n); [apply Hk|reflexivity].
Qed.

Lemma run_blur : forall ic r,
  digit_blind ic r = true ->
  forall st k k', agree k k' ->
    run ic r (blur_state st) k' = option_map blur_state (run ic r st k).
Proof.
  intros ic. induction r as [|p|negate items| |a IHa b IHb|a IHa b IHb|lo hi a IHa|n a IHa];
    intros Hb st k k' Hk; cbn [run]; cbn [digit_blind] in Hb.
  - apply Hk.
  - apply eat_blur; [|exact Hk]. intros c.
    apply eqb_prop. exact (forallb_all _ Hb c).
  - apply eat_blur; [|exact Hk]. intros c.
    apply eqb_prop. exact (forallb_all _ Hb c).
  - rewrite blur_boundary. destruct (at_boundary st); [apply Hk|reflexivity].
  - apply andb_true_iff in Hb. destruct Hb as [Ha Hb'].
    apply (IHa Ha). intros st'. now apply (IHb Hb').
  - apply andb_true_iff in Hb. destruct Hb as [Ha Hb'].
    rewrite (IHa Ha st k k' Hk). destruct (run ic a st k); [reflexivity|].
    cbn [option_map]. now apply (IHb Hb').
  - cbn [blur_state rest]. rewrite blur_length.
    change {| before := option_map blur (before st); rest := blur_string (rest st);
              groups := map (fun g => (fst g, blur_string (snd g))) (groups st) |}
      with (blur_state st).
    apply repeat_loop_blur; [|exact Hk]. intros st0 k0 k0' Hk0. now apply (IHa Hb).
  - apply (IHa Hb). intros st'. rewrite blur_close_group. apply Hk.
Qed.

Lemma match_at_blur : forall r prev s pos,
  digit_blind true r = true ->
  match_at true r (option_map blur prev) (blur_string s) pos
  = option_map blur_match (match_at true r prev s pos).
Proof.
  intros r prev s pos Hb. unfold match_at.
  change {| before := option_map blur prev; rest := blur_string s; groups := [] |}
    with (blur_state {| before := prev; rest := s; groups := [] |}).
  rewrite (run_blur true r Hb _ Some Some) by (intros st; reflexivity).
  destruct (run true r _ Some) as [st|]; [|reflexivity].
  cbn [option_map]. unfold blur_match. cbn [blur_state rest groups before
    m_start m_text m_groups m_before_rest m_rest].
  now rewrite !blur_length, blur_take.
Qed.

Lemma search_from_blur : forall r s prev pos,
  digit_blind true r = true ->
  search_from true r (option_map blur prev) (blur_string s) pos
  = option_map blur_match (search_from true r prev s pos).
Proof.
  intros r s. induction s as [|c s IH]; intros prev pos Hb.
  - pose proof (match_at_blur r prev EmptyString pos Hb) as E.
    cbn [blur_string] in E. cbn [blur_string search_from]. rewrite E.
    destruct (match_at true r prev EmptyString pos); reflexivity.
  - pose proof (match_at_blur r prev (String c s) pos Hb) as E.
    cbn [blur_string] in E. cbn [blur_string search_from]. rewrite E.
    destruct (match_at true r prev (String c s) pos); [reflexivity|].
    exact (IH (Some c) (S pos) Hb).
Qed.

Lemma finditer_from_blur : forall r fuel s prev pos,
  digit_blind true r = true ->
  finditer_from fuel true r (option_map blur prev) (blur_string s) pos
  = map blur_match (finditer_from fuel true r prev s pos).
Proof.
  intros r. induction fuel as [|fuel IH]; intros s prev pos Hb; [reflexivity|].
  cbn [finditer_from]. rewrite (search_from_blur r s prev pos Hb).
  destruct (search_from true r prev s pos) as [m|]; [|reflexivity].
  cbn [option_map map]. f_equal.
  destruct m as [st tx gs br rs].
  cbn [blur_match m_text m_rest m_start m_before_rest].
  rewrite blur_length.
  destruct tx as [|c t]; destruct rs as [|d u];
    cbn [blur_string]; try reflexivity.
  - exact (IH u (Some d) _ Hb).
  - exact (IH EmptyString br _ Hb).
  - exact (IH (String d u) br _ Hb).
Qed.

(** Where a match lies in the text. *)
Lemma match_at_place : forall r prev s pos m,
  match_at true r prev s pos = Some m ->
  s = (m_text m ++ m_rest m)%string /\ m_start m = pos.
Proof.
  intros r prev s pos m E. unfold match_at in E.
  destruct (run true r _ Some) as [st|] eqn:Hrun; [|discriminate].
  destruct (ReFacts.run_sound true r _ _ _ Hrun) as [s1 [st' [E1 [_ [Hk _]]]]].
  injection Hk as ->. cbn [rest] in E1. injection E as <-.
  cbn [m_text m_rest m_start]. split; [|reflexivity].
  assert (Ht : Str.take (String.length s - String.length (rest st)) s = s1)
    by (rewrite E1; apply ReFacts.take_consumed).
  rewrite Ht. exact E1.
Qed.

Lemma search_from_place : forall r s prev pos m,
  search_from true r prev s pos = Some m ->
  exists pre,
    s = (pre ++ m_text m ++ m_rest m)%string
    /\ m_start m = pos + String.length pre.
Proof.
  intros r. induction s as [|c s IH]; intros prev pos m H; cbn [search_from] in H.
  - destruct (match_at true r prev EmptyString pos) as [m'|] eqn:E; [|discriminate].
    injection H as ->. destruct (match_at_place _ _ _ _ _ E) as [Es Ep].
    exists EmptyString. cbn [append String.length]. split; [exact Es|lia].
  - destruct (match_at true r prev (String c s) pos) as [m'|] eqn:E.
    + injection H as ->. destruct (match_at_place _ _ _ _ _ E) as [Es Ep].
      exists EmptyString. cbn [append String.length]. split; [exact Es|lia].
    + destruct (IH _ _ _ H) as [pre [Es Ep]].
      exists (String c pre). cbn [append String.length]. split; [now rewrite <- Es|lia].
Qed.

Lemma blur_empty : forall s, Str.truthy (blur_string s) = Str.truthy s.
Proof. now intros [|c s]. Qed.

(** A pattern that finds the whole of the blurred text finds the whole
    of the text. *)
Lemma findall_whole : forall r s,
  digit_blind true r = true ->
  whole_match r (blur_string s) = true ->
  findall true r s = [s].
Proof.
  intros r s Hb Hw. unfold whole_match in Hw. rewrite blur_length in Hw.
  pose proof (finditer_from_blur r (S (String.length s)) s None 0 Hb) as Eb.
  cbn [option_map] in Eb. rewrite Eb in Hw. clear Eb.
  unfold findall.
  destruct (finditer_from (S (String.length s)) true r None s 0) as [|m [|m' l]] eqn:E;
    cbn [map] in Hw; try discriminate.
  apply andb_true_iff in Hw. destruct Hw as [H0 Hr].
  cbn [blur_match m_start m_rest] in H0, Hr. apply Nat.eqb_eq in H0.
  rewrite blur_empty in Hr.
  cbn [finditer_from] in E.
  destruct (search_from true r None s 0) as [m0|] eqn:Es; [|discriminate].
  injection E as -> _.
  destruct (search_from_place _ _ _ _ _ Es) as [pre [Et Ep]].
  cbn [map]. f_equal.
  assert (pre = EmptyString) by (destruct pre; [reflexivity|simpl in Ep; lia]).
  assert (Hrest : m_rest m = EmptyString)
    by (destruct (m_rest m); [reflexivity|discriminate]).
  subst pre. rewrite Hrest in Et. cbn [append] in Et.
  rewrite ReFacts.append_nil_r in Et. now symmetry.
Qed.

Lemma search_none_blur : forall r s,
  digit_blind true r = true ->
  search true r (blur_string s) = None -> search true r s = None.
Proof.
  intros r s Hb H. unfold search in *.
  pose proof (search_from_blur r s None 0 Hb) as Eb.
  cbn [option_map] in Eb. rewrite Eb in H.
  now destruct (search_from true r None s 0).
Qed.

Lemma blur_app : forall a b,
  blur_string (a ++ b) = (blur_string a ++ blur_string b)%string.
Proof. induction a as [|c a IH]; intros b; simpl; [reflexivity|now rewrite IH]. Qed.

End BlurFacts.

(** ** The lexer on digits and separators *)

Module LexFacts.

Import Dateutil.

Lemma decimal_facts : forall c,
  Str.isdecimal c = true ->
  Str.isalpha c = false /\ Str.isdigit c = true /\ Str.isspace c = false
  /\ is_dot c = false /\ is_comma c = false /\ (Str.code c =? 0)%N = false.
Proof.
  intros c. destruct c as [[] [] [] [] [] [] [] []]; cbn; intros H;
    try discriminate H; repeat split.
Qed.

Lemma digit_run_parts : forall s,
  digit_run s = true -> Str.truthy s = true /\ all_chars Str.isdecimal s = true.
Proof. intros s H. now apply andb_true_iff in H. Qed.

Lemma snoc_app : forall tok c ds,
  (snoc tok c ++ ds)%string = (tok ++ String c ds)%string.
Proof. intros tok c ds. unfold snoc. now rewrite ReFacts.append_assoc. Qed.

Lemma scan_number_run : forall ds seen tok rest,
  all_chars Str.isdecimal ds = true ->
  scan In_number seen tok (ds ++ rest) = scan In_number seen (tok ++ ds) rest.
Proof.
  induction ds as [|c ds IH]; intros seen tok rest H.
  - cbn [append]. now rewrite ReFacts.append_nil_r.
  - cbn [all_chars] in H. apply andb_true_iff in H. destruct H as [Hc Hds].
    destruct (decimal_facts c Hc) as [_ [Hd _]].
    cbn [append scan]. rewrite Hd, (IH _ _ _ Hds). now rewrite snoc_app.
Qed.

Lemma scan_number_dot_run : forall ds seen tok rest,
  all_chars Str.isdecimal ds = true ->
  scan In_number_dot seen tok (ds ++ rest)
  = scan In_number_dot seen (tok ++ ds) rest.
Proof.
  induction ds as [|c ds IH]; intros seen tok rest H.
  - cbn [append]. now rewrite ReFacts.append_nil_r.
  - cbn [all_chars] in H. apply andb_true_iff in H. destruct H as [Hc Hds].
    destruct (decimal_facts c Hc) as [_ [Hd _]].
    cbn [append scan]. rewrite Hd, orb_true_r, (IH _ _ _ Hds). now rewrite snoc_app.
Qed.

Lemma scan_number_stop : forall seen tok c rest,
  plain_sep c = true ->
  scan In_number seen tok (String c rest) = (In_number, seen, tok, String c rest).
Proof.
  intros seen tok c rest H. unfold plain_sep in H.
  repeat (apply andb_true_iff in H; destruct H as [H ?]).
  cbn [scan].
  repeat match goal with
         | E : negb ?b = true |- _ => apply negb_true_iff in E; rewrite E
         end.
  reflexivity.
Qed.

(** The first token of a text that starts with a number. *)
Lemma lex_number : forall d ds rest,
  Str.isdecimal d = true -> all_chars Str.isdecimal ds = true ->
  match rest with
  | EmptyString => True
  | String c _ => plain_sep c = true
  end ->
  lex_one d (ds ++ rest) = ([String d ds], rest).
Proof.
  intros d ds rest Hd Hds Hrest. unfold lex_one.
  destruct (decimal_facts d Hd) as [Ha [Hg _]]. rewrite Ha, Hg.
  rewrite (scan_number_run ds false _ rest Hds). cbn [append].
  destruct rest as [|c rest].
  - reflexivity.
  - now rewrite (scan_number_stop _ _ _ _ Hrest).
Qed.

Lemma lex_sep : forall c rest,
  plain_sep c = true -> lex_one c rest = ([sep_token c], rest).
Proof.
  intros c rest H. unfold plain_sep in H.
  repeat (apply andb_true_iff in H; destruct H as [H ?]).
  unfold lex_one, sep_token.
  repeat match goal with
         | E : negb ?b = true |- _ => apply negb_true_iff in E; rewrite ?E
         end.
  now destruct (Str.isspace c).
Qed.

Lemma split_loop_step : forall fuel c s,
  split_loop (S fuel) (String c s)
  = (fst (lex_one c s) ++ split_loop fuel (snd (lex_one c s)))%list.
Proof. intros fuel c s. cbn [split_loop]. now destruct (lex_one c s). Qed.

Lemma split_loop_nil : forall fuel, split_loop fuel EmptyString = [].
Proof. now intros [|fuel]. Qed.

Lemma length_run : forall s, digit_run s = true -> 1 <= String.length s.
Proof.
  intros [|c s] H; [discriminate|]. simpl. lia.
Qed.

(** Three numbers with a separator between them. *)
Lemma split_loop_three : forall A B C c fuel,
  digit_run A = true -> digit_run B = true -> digit_run C = true ->
  plain_sep c = true ->
  5 <= fuel ->
  split_loop fuel (A ++ String c (B ++ String c C))
  = [A; sep_token c; B; sep_token c; C].
Proof.
  intros A B C c fuel HA HB HC Hc Hfuel.
  destruct (digit_run_parts _ HA) as [_ HA'].
  destruct (digit_run_parts _ HB) as [_ HB'].
  destruct (digit_run_parts _ HC) as [_ HC'].
  destruct A as [|a A]; [discriminate|].
  destruct B as [|b B]; [discriminate|].
  destruct C as [|c0 C]; [discriminate|].
  cbn [all_chars] in HA', HB', HC'.
  apply andb_true_iff in HA'. destruct HA' as [Ha HA'].
  apply andb_true_iff in HB'. destruct HB' as [Hb HB'].
  apply andb_true_iff in HC'. destruct HC' as [Hc0 HC'].
  do 5 (destruct fuel as [|fuel]; [lia|]).
  cbn [append]. rewrite split_loop_step, (lex_number a A (String c _) Ha HA' Hc). cbn [fst snd app].
  rewrite split_loop_step, (lex_sep c _ Hc). cbn [fst snd app].
  rewrite split_loop_step, (lex_number b B (String c _) Hb HB' Hc). cbn [fst snd app].
  rewrite split_loop_step, (lex_sep c _ Hc). cbn [fst snd app].
  assert (E : lex_one c0 C = ([String c0 C], EmptyString)).
  { rewrite <- (ReFacts.append_nil_r C) at 1.
    exact (lex_number c0 C EmptyString Hc0 HC' I). }
  rewrite split_loop_step, E. cbn [fst snd app].
  now rewrite split_loop_nil.
Qed.

Lemma drop_nul_app : forall a b,
  drop_nul (a ++ b) = (drop_nul a ++ drop_nul b)%string.
Proof.
  induction a as [|c a IH]; intros b; cbn [append drop_nul]; [reflexivity|].
  rewrite IH. now destruct (Str.code c =? 0)%N.
Qed.

Lemma drop_nul_run : forall s, all_chars Str.isdecimal s = true -> drop_nul s = s.
Proof.
  induction s as [|c s IH]; intros H; [reflexivity|].
  cbn [all_chars] in H. apply andb_true_iff in H. destruct H as [Hc Hs].
  destruct (decimal_facts c Hc) as [_ [_ [_ [_ [_ Hn]]]]].
  cbn [drop_nul]. now rewrite Hn, (IH Hs).
Qed.

Lemma drop_nul_sep : forall c s,
  plain_sep c = true -> drop_nul (String c s) = String c (drop_nul s).
Proof.
  intros c s H. unfold plain_sep in H. apply andb_true_iff in H.
  destruct H as [_ H]. apply negb_true_iff in H. cbn [drop_nul]. now rewrite H.
Qed.

(** [split] on three numbers one separator apart. *)
Lemma split_three : forall A B C c,
  digit_run A = true -> digit_run B = true -> digit_run C = true ->
  plain_sep c = true ->
  split (A ++ String c (B ++ String c C)) = [A; sep_token c; B; sep_token c; C].
Proof.
  intros A B C c HA HB HC Hc. unfold split.
  destruct (digit_run_parts _ HA) as [_ HA'].
  destruct (digit_run_parts _ HB) as [_ HB'].
  destruct (digit_run_parts _ HC) as [_ HC'].
  rewrite drop_nul_app, (drop_nul_sep c _ Hc), drop_nul_app, (drop_nul_sep c _ Hc),
    (drop_nul_run A HA'), (drop_nul_run B HB'), (drop_nul_run C HC').
  apply split_loop_three; auto.
  pose proof (length_run A HA). pose proof (length_run B HB).
  pose proof (length_run C HC).
  rewrite ReFacts.length_append. cbn [String.length].
  rewrite ReFacts.length_append. cbn [String.length]. lia.
Qed.

End LexFacts.

(** ** The parser on tokens *)

Module ParseFacts.

Import Dateutil.

Lemma lower_decimal : forall c, Str.isdecimal c = true -> Str.lower_char c = c.
Proof.
  intros c. destruct c as [[] [] [] [] [] [] [] []]; cbn; intros H;
    try discriminate H; reflexivity.
Qed.

Lemma eqb_digit_start : forall c t k,
  Str.isdecimal c = true -> starts_with_digit k = false ->
  String.eqb (String c t) k = false /\ String.eqb k (String c t) = false.
Proof.
  intros c t [|d k] Hc Hk; [split; reflexivity|].
  cbn [starts_with_digit] in Hk. cbn [String.eqb].
  destruct (Ascii.eqb_spec c d) as [->|Hne]; [congruence|].
  destruct (Ascii.eqb_spec d c) as [->|Hne']; [congruence|]. now split.
Qed.

Lemma mem_digit_start : forall c t l,
  Str.isdecimal c = true ->
  forallb (fun k => negb (starts_with_digit k)) l = true ->
  mem (String c t) l = false.
Proof.
  intros c t l Hc. induction l as [|k l IH]; intros H; [reflexivity|].
  cbn [forallb] in H. apply andb_true_iff in H. destruct H as [Hk Hl].
  apply negb_true_iff in Hk. unfold mem in *. cbn [existsb].
  rewrite (proj1 (eqb_digit_start c t k Hc Hk)). now apply IH.
Qed.

Lemma assoc_digit_start : forall c t l,
  Str.isdecimal c = true ->
  forallb (fun k => negb (starts_with_digit (fst k))) l = true ->
  assoc (String c t) l = None.
Proof.
  intros c t l Hc. induction l as [|[k v] l IH]; intros H; [reflexivity|].
  cbn [forallb fst] in H. apply andb_true_iff in H. destruct H as [Hk Hl].
  apply negb_true_iff in Hk. cbn [assoc].
  rewrite (proj1 (eqb_digit_start c t k Hc Hk)). now apply IH.
Qed.

Lemma all_chars_weaken : forall (p q : ascii -> bool) s,
  (forall c, p c = true -> q c = true) ->
  all_chars p s = true -> all_chars q s = true.
Proof.
  intros p q s Hpq. induction s as [|c s IH]; intros H; [reflexivity|].
  cbn [all_chars] in *. apply andb_true_iff in H. destruct H as [Hc Hs].
  now rewrite (Hpq c Hc), (IH Hs).
Qed.

(** A run of digits is a number for the parser. *)
Lemma number_token_run : forall t,
  digit_run t = true -> number_token t (int_acc 0 t) (String.length t).
Proof.
  intros t H. destruct (LexFacts.digit_run_parts t H) as [Ht Ha].
  assert (Ei : int_of t = Some (int_acc 0 t)).
  { unfold int_of. now rewrite Ht, Ha. }
  destruct t as [|c t]; [discriminate|].
  assert (Hc : Str.isdecimal c = true).
  { cbn [all_chars] in Ha. apply andb_true_iff in Ha. apply Ha. }
  assert (El : Str.lower (String c t) = String c (Str.lower t)).
  { cbn [Str.lower]. now rewrite (lower_decimal c Hc). }
  unfold number_token.
  split; [unfold classify; now rewrite Ei|]. split; [exact Ei|].
  split.
  { unfold isdigit_str. rewrite Ht. cbn [andb].
    apply (all_chars_weaken Str.isdecimal); [|exact Ha].
    intros d Hd. apply (LexFacts.decimal_facts d Hd). }
  split; [reflexivity|].
  unfold jump, hms, ampm, month. rewrite El.
  split; [now apply mem_digit_start|]. split; [now apply mem_digit_start|].
  split; [now apply mem_digit_start|]. split; [now apply assoc_digit_start|].
  split; [now apply (eqb_digit_start c t ":")|].
  split; [now apply (eqb_digit_start c t " ")|].
  now apply mem_digit_start.
Qed.

Ltac token_facts H :=
  let Hc := fresh "Hclass" in let Hi := fresh "Hint" in
  let Hd := fresh "Hdig" in let Hl := fresh "Hlen" in
  let Hj := fresh "Hjump" in let Hh := fresh "Hhms" in
  let Ha := fresh "Hampm" in let Hm := fresh "Hmonth" in
  let H1 := fresh "Hcolon" in let H2 := fresh "Hspace" in
  let H3 := fresh "Hseps" in
  destruct H as [Hc [Hi [Hd [Hl [Hj [Hh [Ha [Hm [H1 [H2 H3]]]]]]]]]].

Lemma parse_loop_step : forall fuel this_year l i y,
  parse_loop (S fuel) this_year l i y
  = match nth_error l i with
    | None => Ok y
    | Some t =>
        bind (match classify t with
              | Int v => parse_numeric_token l i t v y
              | Decimal => Unmodelled
              | Not_finite => Raise
              | Not_a_number =>
                  if weekday t then Unmodelled
                  else match month t with
                       | Some mv => month_token this_year l i mv y
                       | None => Ok (i, y)
                       end
              end)
             (fun '(i', y') => parse_loop fuel this_year l (S i') y')
    end.
Proof. reflexivity. Qed.

(** What the parser asks of "-", "/" and ".". *)
Lemma date_sep_facts : forall sep,
  In sep ["-"; "/"; "."] ->
  hms sep = false /\ String.eqb ":" sep = false /\ String.eqb " " sep = false
  /\ mem sep ["-"; "/"; "."] = true /\ String.eqb sep sep = true.
Proof.
  intros sep H. cbn [In] in H.
  destruct H as [<-|[<-|[<-|[]]]]; repeat split.
Qed.

Ltac tok_simpl :=
  cbn [nth_error List.length Nat.eqb Nat.ltb Nat.leb Nat.add Nat.sub andb orb negb
       tok_sat tok_is tok_in find_hms_idx vals century_specified mstridx ystridx
       ymd_empty bind app is_some].

Ltac use_facts :=
  repeat match goal with
         | H : ?l = _ |- context [?l] => rewrite H
         end.

(** Day, month, four-digit year with "-", "/" or "." between them. *)
Lemma parse_loop_dmy_sep : forall this_year A B C sep a b c la lb,
  number_token A a la -> number_token B b lb -> number_token C c 4 ->
  (la = 1 \/ la = 2)%nat -> (lb = 1 \/ lb = 2)%nat ->
  In sep ["-"; "/"; "."] ->
  parse_loop 6 this_year [A; sep; B; sep; C] 0 ymd_empty
  = Ok {| vals := [a; b; c]; century_specified := true;
          mstridx := None; ystridx := Some 2%nat |}.
Proof.
  intros this_year A B C sep a b c la lb HA HB HC Hla Hlb Hsep.
  token_facts HA. token_facts HB. token_facts HC.
  destruct (date_sep_facts sep Hsep) as [Shms [Scolon [Sspace [Smem Srefl]]]].
  rewrite parse_loop_step. tok_simpl. use_facts.
  unfold parse_numeric_token, find_hms_idx. tok_simpl. use_facts.
  assert (E6 : ((la =? 6) = false /\ (la =? 8) = false /\ (la =? 12) = false
                /\ (la =? 14) = false /\ (2 <? la) = false)%nat)
    by (destruct Hla as [-> | ->]; repeat split).
  destruct E6 as [E6 [E8 [E12 [E14 E2]]]]. rewrite E6, E8, E12, E14. tok_simpl.
  unfold date_with_sep, append_token. tok_simpl. use_facts. tok_simpl.
  destruct Hla as [-> | ->]; destruct Hlb as [-> | ->]; reflexivity.
Qed.

(** Four-digit year, month, day with "-" or "/" between them. *)
Lemma parse_loop_ymd_sep : forall this_year A B C sep a b c lb lc,
  number_token A a 4 -> number_token B b lb -> number_token C c lc ->
  (lb = 1 \/ lb = 2)%nat -> (lc = 1 \/ lc = 2)%nat ->
  In sep ["-"; "/"; "."] ->
  parse_loop 6 this_year [A; sep; B; sep; C] 0 ymd_empty
  = Ok {| vals := [a; b; c]; century_specified := true;
          mstridx := None; ystridx := Some 0%nat |}.
Proof.
  intros this_year A B C sep a b c lb lc HA HB HC Hlb Hlc Hsep.
  token_facts HA. token_facts HB. token_facts HC.
  destruct (date_sep_facts sep Hsep) as [Shms [Scolon [Sspace [Smem Srefl]]]].
  rewrite parse_loop_step. tok_simpl. use_facts.
  unfold parse_numeric_token, find_hms_idx. tok_simpl. use_facts. tok_simpl.
  unfold date_with_sep, append_token. tok_simpl. use_facts. tok_simpl.
  destruct Hlb as [-> | ->]; destruct Hlc as [-> | ->]; reflexivity.
Qed.

(** What the parser asks of the space token. *)
Lemma space_facts :
  hms " " = false /\ jump " " = true /\ mem " " ["-"; "/"; "."] = false
  /\ String.eqb ":" " " = false /\ ampm " " = false
  /\ String.eqb " " " " = true.
Proof. repeat split. Qed.

(** Day, month, year with spaces between them. *)
Lemma parse_loop_dmy_space : forall this_year A B C a b c la lb,
  number_token A a la -> number_token B b lb -> number_token C c 4 ->
  (la = 1 \/ la = 2)%nat -> (lb = 1 \/ lb = 2)%nat ->
  (a <= 100)%Z -> (b <= 100)%Z -> (100 < c)%Z ->
  parse_loop 6 this_year [A; " "; B; " "; C] 0 ymd_empty
  = Ok {| vals := [a; b; c]; century_specified := true;
          mstridx := None; ystridx := Some 2%nat |}.
Proof.
  intros this_year A B C a b c la lb HA HB HC Hla Hlb Ha Hb Hc.
  token_facts HA. token_facts HB. token_facts HC.
  destruct space_facts as [Shms [Sjump [Smem [Scolon [Sampm Srefl]]]]].
  assert (Ea : (a >? 100)%Z = false) by lia.
  assert (Eb : (b >? 100)%Z = false) by lia.
  assert (Ec : (c >? 100)%Z = true) by lia.
  assert (E6 : ((la =? 6) = false /\ (la =? 8) = false /\ (la =? 12) = false
                /\ (la =? 14) = false)%nat)
    by (destruct Hla as [-> | ->]; repeat split).
  assert (F6 : ((lb =? 6) = false /\ (lb =? 8) = false /\ (lb =? 12) = false
                /\ (lb =? 14) = false)%nat)
    by (destruct Hlb as [-> | ->]; repeat split).
  destruct E6 as [E6 [E8 [E12 E14]]]. destruct F6 as [F6 [F8 [F12 F14]]].
  rewrite parse_loop_step. tok_simpl. use_facts.
  unfold parse_numeric_token, find_hms_idx. tok_simpl. use_facts. tok_simpl.
  unfold append_number. use_facts. cbn [ymd_push]. tok_simpl.
  rewrite parse_loop_step. tok_simpl. use_facts.
  unfold parse_numeric_token, find_hms_idx. tok_simpl. use_facts. tok_simpl.
  unfold append_number. use_facts. cbn [ymd_push]. tok_simpl.
  rewrite parse_loop_step. tok_simpl. use_facts.
  unfold parse_numeric_token, find_hms_idx. tok_simpl. use_facts. tok_simpl.
  unfold append_number. use_facts. cbn [ymd_push]. tok_simpl.
  reflexivity.
Qed.

(** What the parser asks of a French month name: nothing it knows. *)
Lemma french_month_facts : forall name,
  In name FRENCH_MONTHS ->
  classify name = Not_a_number /\ weekday name = false /\ month name = None
  /\ hms name = false /\ ampm name = false.
Proof.
  intros name H. unfold FRENCH_MONTHS in H. cbn [In] in H.
  repeat (destruct H as [<-|H]; [repeat split|]). contradiction.
Qed.

Lemma space_word_facts :
  classify " " = Not_a_number /\ weekday " " = false /\ month " " = None.
Proof. repeat split. Qed.

(** Day, a word the parser does not know, year. *)
Lemma parse_loop_day_word_year : forall this_year A name C a c la,
  number_token A a la -> number_token C c 4 ->
  (la = 1 \/ la = 2)%nat ->
  (a <= 100)%Z -> (100 < c)%Z ->
  classify name = Not_a_number -> weekday name = false -> month name = None ->
  hms name = false -> ampm name = false ->
  parse_loop 6 this_year [A; " "; name; " "; C] 0 ymd_empty
  = Ok {| vals := [a; c]; century_specified := true;
          mstridx := None; ystridx := Some 1%nat |}.
Proof.
  intros this_year A name C a c la HA HC Hla Ha Hc Nclass Nweek Nmonth Nhms Nampm.
  token_facts HA. token_facts HC.
  destruct space_facts as [Shms [Sjump [Smem [Scolon [Sampm Srefl]]]]].
  destruct space_word_facts as [Sclass [Sweek Smonth]].
  assert (Ea : (a >? 100)%Z = false) by lia.
  assert (Ec : (c >? 100)%Z = true) by lia.
  assert (E6 : ((la =? 6) = false /\ (la =? 8) = false /\ (la =? 12) = false
                /\ (la =? 14) = false)%nat)
    by (destruct Hla as [-> | ->]; repeat split).
  destruct E6 as [E6 [E8 [E12 E14]]].
  rewrite parse_loop_step. tok_simpl. use_facts.
  unfold parse_numeric_token, find_hms_idx. tok_simpl. use_facts. tok_simpl.
  unfold append_number. use_facts. cbn [ymd_push]. tok_simpl.
  rewrite parse_loop_step. tok_simpl. use_facts. tok_simpl.
  rewrite parse_loop_step. tok_simpl. use_facts. tok_simpl.
  rewrite parse_loop_step. tok_simpl. use_facts.
  unfold parse_numeric_token, find_hms_idx. tok_simpl. use_facts. tok_simpl.
  unfold append_number. use_facts. cbn [ymd_push]. tok_simpl.
  reflexivity.
Qed.

End ParseFacts.

(** ** The lexer on dotted numbers and on words *)

Module LexMore.

Import Dateutil.

Lemma count_dots_app : forall a b, count_dots (a ++ b) = count_dots a + count_dots b.
Proof.
  induction a as [|c a IH]; intros b; cbn [append count_dots]; [reflexivity|].
  rewrite IH. lia.
Qed.

Lemma count_dots_run : forall s, all_chars Str.isdecimal s = true -> count_dots s = 0.
Proof.
  induction s as [|c s IH]; intros H; [reflexivity|].
  cbn [all_chars] in H. apply andb_true_iff in H. destruct H as [Hc Hs].
  destruct (LexFacts.decimal_facts c Hc) as [_ [_ [_ [Hd _]]]].
  cbn [count_dots]. now rewrite Hd, (IH Hs).
Qed.

Lemma split_decimal_run : forall ds cur rest,
  all_chars Str.isdecimal ds = true ->
  split_decimal cur (ds ++ rest) = split_decimal (cur ++ ds) rest.
Proof.
  induction ds as [|c ds IH]; intros cur rest H.
  - cbn [append]. now rewrite ReFacts.append_nil_r.
  - cbn [all_chars] in H. apply andb_true_iff in H. destruct H as [Hc Hs].
    destruct (LexFacts.decimal_facts c Hc) as [_ [_ [_ [Hd [Hm _]]]]].
    cbn [append split_decimal]. rewrite Hd, Hm. cbn [orb].
    rewrite (IH _ _ Hs). now rewrite LexFacts.snoc_app.
Qed.

Lemma count_dots_dot : forall s, count_dots (String "." s) = S (count_dots s).
Proof. reflexivity. Qed.

Lemma split_decimal_dot : forall cur s,
  split_decimal cur (String "." s) = cur :: "." :: split_decimal EmptyString s.
Proof. reflexivity. Qed.

Lemma scan_dot : forall seen tok rest,
  scan In_number seen tok (String "." rest)
  = scan In_number_dot seen (snoc tok ".") rest.
Proof. reflexivity. Qed.

Lemma scan_dot_dot : forall seen tok rest,
  scan In_number_dot seen tok (String "." rest)
  = scan In_number_dot seen (snoc tok ".") rest.
Proof. reflexivity. Qed.

(** Three numbers with points between them are read as one token, which
    is then cut at the points. *)
Lemma split_three_dots : forall A B C,
  digit_run A = true -> digit_run B = true -> digit_run C = true ->
  split (A ++ String "." (B ++ String "." C)) = [A; "."; B; "."; C].
Proof.
  intros A B C HA HB HC. unfold split.
  destruct (LexFacts.digit_run_parts _ HA) as [TA HA'].
  destruct (LexFacts.digit_run_parts _ HB) as [TB HB'].
  destruct (LexFacts.digit_run_parts _ HC) as [TC HC'].
  rewrite LexFacts.drop_nul_app, (LexFacts.drop_nul_run A HA').
  change (drop_nul (String "." (B ++ String "." C)))
    with (String "."%char (drop_nul (B ++ String "." C))).
  rewrite LexFacts.drop_nul_app, (LexFacts.drop_nul_run B HB').
  change (drop_nul (String "." C)) with (String "."%char (drop_nul C)).
  rewrite (LexFacts.drop_nul_run C HC').
  destruct A as [|a A]; [discriminate|].
  cbn [all_chars] in HA'. apply andb_true_iff in HA'. destruct HA' as [Ha HA'].
  destruct (LexFacts.decimal_facts a Ha) as [Hal [Hdg _]].
  cbn [append String.length]. rewrite LexFacts.split_loop_step.
  assert (E : lex_one a (A ++ String "." (B ++ String "." C))
              = ([String a A; "."; B; "."; C], EmptyString)).
  { unfold lex_one. rewrite Hal, Hdg.
    rewrite (LexFacts.scan_number_run A false _ _ HA'), scan_dot.
    rewrite (LexFacts.scan_number_dot_run B false _ _ HB'), scan_dot_dot.
    rewrite <- (ReFacts.append_nil_r C) at 1.
    rewrite (LexFacts.scan_number_dot_run C false _ _ HC'). cbn [scan].
    unfold finish. cbn [andb orb]. unfold snoc.
    rewrite !ReFacts.append_assoc. cbn [append].
    assert (Ec : count_dots (String a (A ++ String "." (B ++ String "." C))) = 2).
    { change (String a (A ++ String "." (B ++ String "." C)))
        with (String a A ++ String "." (B ++ String "." C))%string.
      rewrite count_dots_app, count_dots_dot, count_dots_app, count_dots_dot.
      rewrite (count_dots_run (String a A)), (count_dots_run B HB'),
        (count_dots_run C HC'); [reflexivity|].
      cbn [all_chars]. now rewrite Ha, HA'. }
    rewrite Ec. cbn [Nat.ltb Nat.leb orb].
    change (String a (A ++ String "." (B ++ String "." C)))
      with (String a A ++ String "." (B ++ String "." C))%string.
    rewrite (split_decimal_run (String a A) EmptyString) by
      (cbn [all_chars]; now rewrite Ha, HA').
    cbn [append]. rewrite split_decimal_dot.
    rewrite (split_decimal_run B EmptyString _ HB'). cbn [append].
    rewrite split_decimal_dot.
    rewrite <- (ReFacts.append_nil_r C) at 1.
    rewrite (split_decimal_run C EmptyString _ HC'). cbn [append split_decimal].
    cbn [filter Str.truthy]. now rewrite TB, TC. }
  rewrite E. cbn [fst snd]. now rewrite LexFacts.split_loop_nil.
Qed.

(** A number, a space, a French month name, a space, a number. *)
Lemma split_day_word_year : forall A name C,
  digit_run A = true -> digit_run C = true ->
  In name FRENCH_MONTHS ->
  split (A ++ String " " (name ++ String " " C)) = [A; " "; name; " "; C].
Proof.
  intros A name C HA HC Hn. unfold split.
  destruct (LexFacts.digit_run_parts _ HA) as [TA HA'].
  destruct (LexFacts.digit_run_parts _ HC) as [TC HC'].
  assert (Hs : plain_sep " " = true) by reflexivity.
  assert (En : drop_nul (name ++ String " " C) = (name ++ String " " C)%string
               /\ forall fuel, split_loop (S fuel) (name ++ String " " C)
                               = name :: split_loop fuel (String " " C)).
  { unfold FRENCH_MONTHS in Hn. cbn [In] in Hn.
    repeat (destruct Hn as [<-|Hn];
            [split; [cbn; now rewrite (LexFacts.drop_nul_run C HC')|reflexivity]|]).
    contradiction. }
  destruct En as [En Hword].
  rewrite LexFacts.drop_nul_app, (LexFacts.drop_nul_run A HA'),
    (LexFacts.drop_nul_sep " " _ Hs), En.
  pose proof (LexFacts.length_run A HA) as LA.
  pose proof (LexFacts.length_run C HC) as LC.
  assert (Ln : 1 <= String.length name).
  { unfold FRENCH_MONTHS in Hn. cbn [In] in Hn.
    repeat (destruct Hn as [<-|Hn]; [cbn; lia|]). contradiction. }
  remember (String.length (A ++ String " " (name ++ String " " C))) as fuel eqn:Ef.
  rewrite ReFacts.length_append in Ef. cbn [String.length] in Ef.
  rewrite ReFacts.length_append in Ef. cbn [String.length] in Ef.
  do 5 (destruct fuel as [|fuel]; [lia|]).
  destruct A as [|a A]; [discriminate|].
  destruct C as [|c0 C]; [discriminate|].
  cbn [all_chars] in HA', HC'.
  apply andb_true_iff in HA'. destruct HA' as [Ha HA'].
  apply andb_true_iff in HC'. destruct HC' as [Hc0 HC'].
  cbn [append].
  rewrite LexFacts.split_loop_step, (LexFacts.lex_number a A (String " " _) Ha HA' Hs).
  cbn [fst snd app].
  rewrite LexFacts.split_loop_step, (LexFacts.lex_sep " " _ Hs). cbn [fst snd app].
  rewrite Hword.
  rewrite LexFacts.split_loop_step, (LexFacts.lex_sep " " _ Hs). cbn [fst snd app].
  assert (E : lex_one c0 C = ([String c0 C], EmptyString)).
  { rewrite <- (ReFacts.append_nil_r C) at 1.
    exact (LexFacts.lex_number c0 C EmptyString Hc0 HC' I). }
  rewrite LexFacts.split_loop_step, E. cbn [fst snd app].
  now rewrite LexFacts.split_loop_nil.
Qed.

End LexMore.

(** ** Numbers as they are written *)

Module WriteFacts.

Import Datetime Dateutil.
Local Open Scope Z_scope.

Lemma digit_char_decimal : forall k,
  0 <= k <= 9 ->
  Str.isdecimal (digit_char k) = true
  /\ Z.of_N (Str.code (digit_char k)) - 48 = k.
Proof.
  intros k Hk.
  assert (K : k = 0 \/ k = 1 \/ k = 2 \/ k = 3 \/ k = 4 \/ k = 5 \/ k = 6
              \/ k = 7 \/ k = 8 \/ k = 9) by lia.
  repeat (destruct K as [->|K]); try subst k; split; reflexivity.
Qed.

Lemma pad2_run : forall n,
  0 <= n <= 99 ->
  digit_run (pad2 n) = true /\ int_acc 0 (pad2 n) = n
  /\ String.length (pad2 n) = 2%nat.
Proof.
  intros n Hn. unfold pad2.
  destruct (digit_char_decimal (n / 10 mod 10) (DateFacts.digit_range _)) as [H1 V1].
  destruct (digit_char_decimal (n mod 10) (DateFacts.digit_range _)) as [H0 V0].
  split; [|split; [|reflexivity]].
  - unfold digit_run. cbn [Str.truthy all_chars]. now rewrite H1, H0.
  - cbn [int_acc]. rewrite V1, V0.
    pose proof (DateFacts.digits2_value n Hn). lia.
Qed.

Lemma plain2_run : forall n,
  0 <= n <= 99 ->
  digit_run (plain2 n) = true /\ int_acc 0 (plain2 n) = n
  /\ (String.length (plain2 n) = 1%nat \/ String.length (plain2 n) = 2%nat).
Proof.
  intros n Hn. unfold plain2. destruct (Z.ltb_spec n 10) as [Hlt|Hge].
  - destruct (digit_char_decimal n ltac:(lia)) as [H0 V0].
    split; [|split; [|now left]].
    + unfold digit_run. cbn [Str.truthy all_chars]. now rewrite H0.
    + cbn [int_acc]. rewrite V0. lia.
  - destruct (pad2_run n Hn) as [H1 [H2 H3]]. split; [exact H1|]. split; [exact H2|].
    now right.
Qed.

Lemma pad4_run : forall y,
  0 <= y <= 9999 ->
  digit_run (pad4 y) = true /\ int_acc 0 (pad4 y) = y
  /\ String.length (pad4 y) = 4%nat.
Proof.
  intros y Hy. unfold pad4, pad2.
  destruct (digit_char_decimal (y / 1000 mod 10) (DateFacts.digit_range _)) as [H3 V3].
  destruct (digit_char_decimal (y / 100 mod 10) (DateFacts.digit_range _)) as [H2 V2].
  destruct (digit_char_decimal (y / 10 mod 10) (DateFacts.digit_range _)) as [H1 V1].
  destruct (digit_char_decimal (y mod 10) (DateFacts.digit_range _)) as [H0 V0].
  split; [|split; [|reflexivity]].
  - unfold digit_run. cbn [Str.truthy all_chars]. now rewrite H3, H2, H1, H0.
  - cbn [int_acc]. rewrite V3, V2, V1, V0.
    pose proof (DateFacts.digits4_value y Hy). lia.
Qed.

(** A number below 100, written with or without a leading zero. *)
Lemma two_digits_token : forall n t,
  0 <= n <= 99 -> t = pad2 n \/ t = plain2 n ->
  digit_run t = true
  /\ (String.length t = 1%nat \/ String.length t = 2%nat)
  /\ number_token t n (String.length t).
Proof.
  intros n t Hn [-> | ->].
  - destruct (pad2_run n Hn) as [Hr [Hv Hl]]. split; [exact Hr|].
    split; [now right|].
    pose proof (ParseFacts.number_token_run _ Hr) as Ht. now rewrite Hv in Ht.
  - destruct (plain2_run n Hn) as [Hr [Hv Hl]]. split; [exact Hr|].
    split; [exact Hl|].
    pose proof (ParseFacts.number_token_run _ Hr) as Ht. now rewrite Hv in Ht.
Qed.

Lemma four_digits_token : forall y,
  0 <= y <= 9999 ->
  digit_run (pad4 y) = true /\ String.length (pad4 y) = 4%nat
  /\ number_token (pad4 y) y 4.
Proof.
  intros y Hy. destruct (pad4_run y Hy) as [Hr [Hv Hl]]. split; [exact Hr|].
  split; [exact Hl|].
  pose proof (ParseFacts.number_token_run _ Hr) as Ht. now rewrite Hv, Hl in Ht.
Qed.

Lemma blur_run : forall s,
  all_chars Str.isdecimal s = true -> blur_string s = zeros (String.length s).
Proof.
  induction s as [|c s IH]; intros H; [reflexivity|].
  cbn [all_chars] in H. apply andb_true_iff in H. destruct H as [Hc Hs].
  cbn [blur_string String.length zeros]. unfold blur. now rewrite Hc, (IH Hs).
Qed.

End WriteFacts.

(** ** The patterns on written dates *)

Module ShapeFacts.

Lemma date_pattern_blind : digit_blind true DATE_PATTERN = true.
Proof. vm_compute. reflexivity. Qed.

Lemma deadline_pattern_blind : digit_blind true DEADLINE_PATTERN = true.
Proof. vm_compute. reflexivity. Qed.

(** Three numbers one separator apart: the pattern finds the whole text. *)
Lemma findall_three : forall A B C c la lb lc,
  digit_run A = true -> digit_run B = true -> digit_run C = true ->
  String.length A = la -> String.length B = lb -> String.length C = lc ->
  whole_match DATE_PATTERN
    (zeros la ++ String (blur c) (zeros lb ++ String (blur c) (zeros lc))) = true ->
  Re.findall true DATE_PATTERN (A ++ String c (B ++ String c C))
  = [(A ++ String c (B ++ String c C))%string].
Proof.
  intros A B C c la lb lc HA HB HC La Lb Lc Hw.
  apply BlurFacts.findall_whole; [exact date_pattern_blind|].
  destruct (LexFacts.digit_run_parts _ HA) as [_ HA'].
  destruct (LexFacts.digit_run_parts _ HB) as [_ HB'].
  destruct (LexFacts.digit_run_parts _ HC) as [_ HC'].
  rewrite BlurFacts.blur_app. cbn [blur_string]. rewrite BlurFacts.blur_app.
  cbn [blur_string].
  now rewrite (WriteFacts.blur_run A HA'), (WriteFacts.blur_run B HB'),
    (WriteFacts.blur_run C HC'), La, Lb, Lc.
Qed.

(** A day, a French month name and a year: the pattern finds the whole
    text, and the labelled pattern finds nothing. *)
Lemma findall_day_word_year : forall A name C la,
  digit_run A = true -> digit_run C = true ->
  String.length A = la -> (la = 1 \/ la = 2) -> String.length C = 4 ->
  In name FRENCH_MONTHS ->
  Re.findall true DATE_PATTERN (A ++ String " " (name ++ String " " C))
  = [(A ++ String " " (name ++ String " " C))%string]
  /\ Re.search true DEADLINE_PATTERN (A ++ String " " (name ++ String " " C)) = None.
Proof.
  intros A name C la HA HC La Hla Lc Hn.
  destruct (LexFacts.digit_run_parts _ HA) as [_ HA'].
  destruct (LexFacts.digit_run_parts _ HC) as [_ HC'].
  assert (Eb : blur_string (A ++ String " " (name ++ String " " C))
               = (zeros la ++ String " " (blur_string name ++ String " " (zeros 4)))%string).
  { rewrite BlurFacts.blur_app. cbn [blur_string]. rewrite BlurFacts.blur_app.
    cbn [blur_string].
    now rewrite (WriteFacts.blur_run A HA'), (WriteFacts.blur_run C HC'), La, Lc. }
  split.
  - apply BlurFacts.findall_whole; [exact date_pattern_blind|]. rewrite Eb.
    unfold FRENCH_MONTHS in Hn. cbn [In] in Hn.
    destruct Hla as [-> | ->];
      repeat (destruct Hn as [<-|Hn]; [vm_compute; reflexivity|]); contradiction.
  - apply BlurFacts.search_none_blur; [exact deadline_pattern_blind|]. rewrite Eb.
    unfold FRENCH_MONTHS in Hn. cbn [In] in Hn.
    destruct Hla as [-> | ->];
      repeat (destruct Hn as [<-|Hn]; [vm_compute; reflexivity|]); contradiction.
Qed.

End ShapeFacts.

(** ** Written dates, read *)

Module ReadFacts.

Import Datetime Dateutil.
Local Open Scope Z_scope.

Lemma make_date_valid : forall y m d,
  valid_ymd y m d = true ->
  exists dt, make_date y m d = Some dt
             /\ year dt = y /\ Datetime.month dt = m /\ day dt = d.
Proof.
  intros y m d H. exists (mkdate y m d H). split; [|now repeat split].
  unfold make_date. apply DateFacts.make_date_if_valid.
Qed.

Lemma days_in_month_bounds : forall y m, 28 <= days_in_month y m <= 31.
Proof.
  intros y m. unfold days_in_month.
  repeat match goal with |- context [if ?b then _ else _] => destruct b end; lia.
Qed.

Lemma valid_ymd_intro : forall y m d,
  1 <= y <= 9999 -> 1 <= m <= 12 -> 1 <= d <= days_in_month y m ->
  valid_ymd y m d = true.
Proof.
  intros y m d Hy Hm Hd. unfold valid_ymd.
  repeat (apply andb_true_iff; split); apply Z.leb_le; lia.
Qed.

(** Three values, the third a year with its century. *)
Lemma parse_finish_dmy : forall today s l (dt : date),
  split s = l -> List.length l = 5%nat ->
  parse_loop 6 (year today) l 0 ymd_empty
  = Ok {| vals := [day dt; Datetime.month dt; year dt]; century_specified := true;
          mstridx := None; ystridx := Some 2%nat |} ->
  parse today s = Ok dt.
Proof.
  intros today s l dt Hs Hl Hp. unfold parse. rewrite Hs, Hl, Hp.
  destruct (DateFacts.date_bounds dt) as [Hy [Hm Hd]].
  cbn [bind]. unfold resolve_ymd.
  cbn [vals century_specified mstridx ystridx List.length is_some Nat.eqb Nat.ltb
       Nat.leb Nat.add andb orb negb nth_val nth].
  assert (E1 : (day dt >? 31) = false) by lia.
  assert (E2 : (Datetime.month dt <=? 12) = true) by lia.
  rewrite E1, E2, orb_true_r. cbn [orb bind option_map].
  unfold convertyear. rewrite andb_false_r.
  unfold build_naive. rewrite DateFacts.make_date_of_date. reflexivity.
Qed.

(** Three values, the first a year with its century: the third is read
    as the month when it can be one. *)
Lemma parse_finish_ymd : forall today s l y m d,
  split s = l -> List.length l = 5%nat ->
  parse_loop 6 (year today) l 0 ymd_empty
  = Ok {| vals := [y; m; d]; century_specified := true;
          mstridx := None; ystridx := Some 0%nat |} ->
  parse today s
  = match (if d <=? 12 then make_date y d m else make_date y m d) with
    | Some dt => Ok dt
    | None => Raise
    end.
Proof.
  intros today s l y m d Hs Hl Hp. unfold parse. rewrite Hs, Hl, Hp.
  cbn [bind]. unfold resolve_ymd.
  cbn [vals century_specified mstridx ystridx List.length is_some Nat.eqb Nat.ltb
       Nat.leb Nat.add andb orb negb nth_val nth].
  rewrite orb_true_r.
  destruct (d <=? 12); cbn [bind option_map]; unfold convertyear;
    rewrite andb_false_r; reflexivity.
Qed.

(** Two values, a day and a year with its century: the day is read as
    the month, and the day of the month is the current day's. *)
Lemma parse_finish_day_year : forall today s l a c,
  split s = l -> List.length l = 5%nat ->
  a <= 31 -> 31 < c ->
  parse_loop 6 (year today) l 0 ymd_empty
  = Ok {| vals := [a; c]; century_specified := true;
          mstridx := None; ystridx := Some 1%nat |} ->
  parse today s = build_naive today (Some c) (Some a) None.
Proof.
  intros today s l a c Hs Hl Ha Hc Hp. unfold parse. rewrite Hs, Hl, Hp.
  cbn [bind]. unfold resolve_ymd.
  cbn [vals century_specified mstridx ystridx List.length is_some Nat.eqb Nat.ltb
       Nat.leb Nat.add andb orb negb nth_val nth].
  assert (E1 : (a >? 31) = false) by lia.
  assert (E2 : (c >? 31) = true) by lia.
  rewrite E1, E2. cbn [bind option_map].
  unfold convertyear. rewrite andb_false_r. reflexivity.
Qed.

(** One match that parses: it is the publication date, and there is no
    deadline. *)
Lemma one_match_parsed : forall today text dt,
  Re.findall true DATE_PATTERN text = [text] ->
  parse today text = Ok dt ->
  parse_dates_from_text (dateparse today) text = (Some (isoformat dt), None).
Proof.
  intros today text dt Hf Hp. unfold parse_dates_from_text. rewrite Hf.
  cbn [parsed_dates]. unfold dateparse. rewrite Hp. reflexivity.
Qed.

(** One match that does not parse, and no labelled deadline. *)
Lemma one_match_raises : forall today text,
  Re.findall true DATE_PATTERN text = [text] ->
  parse today text = Raise ->
  Re.search true DEADLINE_PATTERN text = None ->
  parse_dates_from_text (dateparse today) text = (None, None).
Proof.
  intros today text Hf Hp Hd. unfold parse_dates_from_text. rewrite Hf.
  cbn [parsed_dates]. unfold dateparse. rewrite Hp. cbn [returned].
  unfold labeled_deadline. now rewrite Hd.
Qed.

(** The four separators the pattern allows between day, month and year. *)
Lemma separator_cases : forall sep : string,
  In sep ["/"; "-"; "."; " "]%string ->
  exists c, sep = String c EmptyString
            /\ (c = "/" \/ c = "-" \/ c = "." \/ c = " ")%char.
Proof.
  intros sep H. cbn [In] in H.
  destruct H as [<-|[<-|[<-|[<-|[]]]]]; eexists; split; try reflexivity; tauto.
Qed.

End ReadFacts.

(** X20.  A date written day first, with a four-digit year from 1000
    on, is read as written: day and month with or without a leading
    zero, and "/", "-", "." or a space between the numbers.  The pattern
    finds the whole text, the parser gives the date, and the extractor
    returns it as publication date, with no deadline; this for every day
    of the calendar and whatever the current day. *)
Theorem day_first_date_is_read :
  forall (today dt : Datetime.date) (D M sep : string),
    (1000 <= Datetime.year dt)%Z ->
    D = Datetime.pad2 (Datetime.day dt) \/ D = plain2 (Datetime.day dt) ->
    M = Datetime.pad2 (Datetime.month dt) \/ M = plain2 (Datetime.month dt) ->
    In sep ["/"; "-"; "."; " "]%string ->
    let text := (D ++ sep ++ M ++ sep ++ Datetime.pad4 (Datetime.year dt))%string in
    Re.findall true DATE_PATTERN text = [text]
    /\ Dateutil.parse today text = Ok dt
    /\ parse_dates_from_text (Dateutil.dateparse today) text
       = (Some (Datetime.isoformat dt), None).
Proof.
  intros today dt D M sep Hy HD HM Hsep text.
  destruct (DateFacts.date_bounds dt) as [By [Bm Bd]].
  destruct (WriteFacts.two_digits_token (Datetime.day dt) D ltac:(lia) HD)
    as [RD [LD TD]].
  destruct (WriteFacts.two_digits_token (Datetime.month dt) M ltac:(lia) HM)
    as [RM [LM TM]].
  destruct (WriteFacts.four_digits_token (Datetime.year dt) ltac:(lia))
    as [RY [LY TY]].
  destruct (ReadFacts.separator_cases sep Hsep) as [c [Es Hc]].
  subst sep. subst text. cbn [append].
  set (Y := Datetime.pad4 (Datetime.year dt)) in *.
  assert (Hf : Re.findall true DATE_PATTERN (D ++ String c (M ++ String c Y))
               = [(D ++ String c (M ++ String c Y))%string]).
  { apply (ShapeFacts.findall_three D M Y c _ _ _ RD RM RY eq_refl eq_refl LY).
    destruct LD as [-> | ->]; destruct LM as [-> | ->];
      destruct Hc as [->|[->|[->| ->]]]; vm_compute; reflexivity. }
  assert (Hp : Dateutil.parse today (D ++ String c (M ++ String c Y)) = Ok dt).
  { destruct Hc as [->|[->|[->| ->]]].
    - apply (ReadFacts.parse_finish_dmy today _ [D; "/"; M; "/"; Y]%string).
      + now apply (LexFacts.split_three D M Y "/").
      + reflexivity.
      + apply (ParseFacts.parse_loop_dmy_sep _ D M Y "/" _ _ _ _ _ TD TM TY LD LM).
        cbn; tauto.
    - apply (ReadFacts.parse_finish_dmy today _ [D; "-"; M; "-"; Y]%string).
      + now apply (LexFacts.split_three D M Y "-").
      + reflexivity.
      + apply (ParseFacts.parse_loop_dmy_sep _ D M Y "-" _ _ _ _ _ TD TM TY LD LM).
        cbn; tauto.
    - apply (ReadFacts.parse_finish_dmy today _ [D; "."; M; "."; Y]%string).
      + now apply LexMore.split_three_dots.
      + reflexivity.
      + apply (ParseFacts.parse_loop_dmy_sep _ D M Y "." _ _ _ _ _ TD TM TY LD LM).
        cbn; tauto.
    - apply (ReadFacts.parse_finish_dmy today _ [D; " "; M; " "; Y]%string).
      + now apply (LexFacts.split_three D M Y " ").
      + reflexivity.
      + apply (ParseFacts.parse_loop_dmy_space _ D M Y _ _ _ _ _ TD TM TY LD LM); lia. }
  split; [exact Hf|]. split; [exact Hp|].
  now apply ReadFacts.one_match_parsed.
Qed.

Lemma day_first_date_is_read_witness :
  parse_dates_from_text (Dateutil.dateparse a_day) "5.03.2024"
  = (Some "2024-03-05", None).
Proof.
  exact (proj2 (proj2 (day_first_date_is_read a_day
           (Datetime.mkdate 2024 3 5 eq_refl) "5" "03" "."
           ltac:(discriminate) (or_intror eq_refl) (or_introl eq_refl)
           (or_intror (or_intror (or_introl eq_refl)))))).
Defined.

(** X21.  A date written year first, with "-" or "/" (the ISO form
    that [isoformat] writes is one), is read day first all the same:
    when its day is 12 or less, the parser exchanges day and month, and
    the extractor returns the date with the two exchanged; only a day
    above 12 comes out as written. *)
Theorem year_first_date_is_read_day_first :
  forall (today dt : Datetime.date) (M D sep : string),
    M = Datetime.pad2 (Datetime.month dt) \/ M = plain2 (Datetime.month dt) ->
    D = Datetime.pad2 (Datetime.day dt) \/ D = plain2 (Datetime.day dt) ->
    In sep ["-"; "/"]%string ->
    let text := (Datetime.pad4 (Datetime.year dt) ++ sep ++ M ++ sep ++ D)%string in
    Re.findall true DATE_PATTERN text = [text]
    /\ ((12 < Datetime.day dt)%Z ->
        Dateutil.parse today text = Ok dt
        /\ parse_dates_from_text (Dateutil.dateparse today) text
           = (Some (Datetime.isoformat dt), None))
    /\ ((Datetime.day dt <= 12)%Z ->
        exists dt' : Datetime.date,
          Datetime.year dt' = Datetime.year dt
          /\ Datetime.month dt' = Datetime.day dt
          /\ Datetime.day dt' = Datetime.month dt
          /\ Dateutil.parse today text = Ok dt'
          /\ parse_dates_from_text (Dateutil.dateparse today) text
             = (Some (Datetime.isoformat dt'), None)).
Proof.
  intros today dt M D sep HM HD Hsep text.
  destruct (DateFacts.date_bounds dt) as [By [Bm Bd]].
  destruct (WriteFacts.two_digits_token (Datetime.day dt) D ltac:(lia) HD)
    as [RD [LD TD]].
  destruct (WriteFacts.two_digits_token (Datetime.month dt) M ltac:(lia) HM)
    as [RM [LM TM]].
  destruct (WriteFacts.four_digits_token (Datetime.year dt) ltac:(lia))
    as [RY [LY TY]].
  assert (Hc : exists c, sep = String c EmptyString /\ (c = "-" \/ c = "/")%char).
  { cbn [In] in Hsep. destruct Hsep as [<-|[<-|[]]]; eexists; split;
      try reflexivity; tauto. }
  destruct Hc as [c [Es Hc]]. subst sep. subst text. cbn [append].
  set (Y := Datetime.pad4 (Datetime.year dt)) in *.
  assert (Hf : Re.findall true DATE_PATTERN (Y ++ String c (M ++ String c D))
               = [(Y ++ String c (M ++ String c D))%string]).
  { apply (ShapeFacts.findall_three Y M D c _ _ _ RY RM RD LY eq_refl eq_refl).
    destruct LD as [-> | ->]; destruct LM as [-> | ->];
      destruct Hc as [-> | ->]; vm_compute; reflexivity. }
  assert (Hp : Dateutil.parse today (Y ++ String c (M ++ String c D))
               = match (if (Datetime.day dt <=? 12)%Z
                        then Datetime.make_date (Datetime.year dt) (Datetime.day dt)
                               (Datetime.month dt)
                        else Datetime.make_date (Datetime.year dt) (Datetime.month dt)
                               (Datetime.day dt)) with
                 | Some d' => Ok d'
                 | None => Raise
                 end).
  { destruct Hc as [-> | ->].
    - apply (ReadFacts.parse_finish_ymd today _ [Y; "-"; M; "-"; D]%string).
      + now apply (LexFacts.split_three Y M D "-").
      + reflexivity.
      + apply (ParseFacts.parse_loop_ymd_sep _ Y M D "-" _ _ _ _ _ TY TM TD LM LD).
        cbn; tauto.
    - apply (ReadFacts.parse_finish_ymd today _ [Y; "/"; M; "/"; D]%string).
      + now apply (LexFacts.split_three Y M D "/").
      + reflexivity.
      + apply (ParseFacts.parse_loop_ymd_sep _ Y M D "/" _ _ _ _ _ TY TM TD LM LD).
        cbn; tauto. }
  split; [exact Hf|]. split.
  - intros Hd. assert (E : (Datetime.day dt <=? 12)%Z = false) by lia.
    rewrite E, DateFacts.make_date_of_date in Hp.
    split; [exact Hp|]. now apply ReadFacts.one_match_parsed.
  - intros Hd. assert (E : (Datetime.day dt <=? 12)%Z = true) by lia.
    rewrite E in Hp.
    destruct (ReadFacts.make_date_valid (Datetime.year dt) (Datetime.day dt)
                (Datetime.month dt)) as [dt' [Em [F1 [F2 F3]]]].
    { apply ReadFacts.valid_ymd_intro; try lia.
      pose proof (ReadFacts.days_in_month_bounds (Datetime.year dt) (Datetime.day dt)).
      lia. }
    rewrite Em in Hp. exists dt'. repeat split; auto.
    now apply ReadFacts.one_match_parsed.
Qed.

Lemma year_first_date_is_read_day_first_witness :
  exists dt' : Datetime.date,
    Datetime.month dt' = 10%Z /\ Datetime.day dt' = 1%Z
    /\ parse_dates_from_text (Dateutil.dateparse a_day) "2024-01-10"
       = (Some (Datetime.isoformat dt'), None).
Proof.
  destruct (proj2 (proj2 (year_first_date_is_read_day_first a_day
              (Datetime.mkdate 2024 1 10 eq_refl) "01" "10" "-"
              (or_introl eq_refl) (or_introl eq_refl) (or_introl eq_refl)))
              ltac:(cbn; lia))
    as [dt' [_ [F2 [F3 [_ E]]]]].
  exists dt'. split; [exact F2|]. split; [exact F3|exact E].
Defined.

(** X22.  A date written with a French month name is found by the
    pattern and never read as that month: the parser, which knows the
    English names, skips the word and takes the day for the month.
    With a day above 12 it raises, and the result is (absent, absent);
    with a day of 12 or less the result is a date in the month of that
    number, on the current day of the month (the last day of that month
    when the month is shorter), and no error is seen. *)
Theorem french_month_name_is_never_read :
  forall (today : Datetime.date) (name D : string) (d y : Z),
    In name FRENCH_MONTHS ->
    (1 <= d <= 31)%Z -> (1000 <= y <= 9999)%Z ->
    D = Datetime.pad2 d \/ D = plain2 d ->
    let text := (D ++ " " ++ name ++ " " ++ Datetime.pad4 y)%string in
    Re.findall true DATE_PATTERN text = [text]
    /\ ((12 < d)%Z ->
        Dateutil.parse today text = Raise
        /\ parse_dates_from_text (Dateutil.dateparse today) text = (None, None))
    /\ ((d <= 12)%Z ->
        exists dt' : Datetime.date,
          Datetime.year dt' = y
          /\ Datetime.month dt' = d
          /\ Datetime.day dt'
             = Z.min (Datetime.day today) (Datetime.days_in_month y d)
          /\ Dateutil.parse today text = Ok dt'
          /\ parse_dates_from_text (Dateutil.dateparse today) text
             = (Some (Datetime.isoformat dt'), None)).
Proof.
  intros today name D d y Hn Hd Hy HD text.
  destruct (WriteFacts.two_digits_token d D ltac:(lia) HD) as [RD [LD TD]].
  destruct (WriteFacts.four_digits_token y ltac:(lia)) as [RY [LY TY]].
  subst text. cbn [append].
  set (Y := Datetime.pad4 y) in *.
  destruct (ShapeFacts.findall_day_word_year D name Y _ RD RY eq_refl LD LY Hn)
    as [Hf Hs].
  destruct (ParseFacts.french_month_facts name Hn) as [N1 [N2 [N3 [N4 N5]]]].
  assert (Hp : Dateutil.parse today (D ++ String " " (name ++ String " " Y))
               = Dateutil.build_naive today (Some y) (Some d) None).
  { apply (ReadFacts.parse_finish_day_year today _ [D; " "; name; " "; Y]%string).
    - now apply LexMore.split_day_word_year.
    - reflexivity.
    - lia.
    - lia.
    - apply (ParseFacts.parse_loop_day_word_year _ D name Y _ _ _ TD TY LD); auto; lia. }
  split; [exact Hf|]. split.
  - intros H12. assert (E : Dateutil.build_naive today (Some y) (Some d) None = Raise).
    { unfold Dateutil.build_naive.
      assert (E12 : (d <=? 12)%Z = false) by lia. now rewrite E12, andb_false_r. }
    rewrite E in Hp. split; [exact Hp|]. now apply ReadFacts.one_match_raises.
  - intros H12.
    destruct (DateFacts.date_bounds today) as [_ [_ Bt]].
    pose proof (ReadFacts.days_in_month_bounds y d) as Bl.
    destruct (ReadFacts.make_date_valid y d
                (Z.min (Datetime.day today) (Datetime.days_in_month y d)))
      as [dt' [Em [F1 [F2 F3]]]].
    { apply ReadFacts.valid_ymd_intro; lia. }
    assert (E : Dateutil.build_naive today (Some y) (Some d) None = Ok dt').
    { unfold Dateutil.build_naive.
      assert (E1 : (1 <=? d)%Z = true) by lia.
      assert (E12 : (d <=? 12)%Z = true) by lia. rewrite E1, E12. cbn [andb].
      replace (if (Datetime.day today >? Datetime.days_in_month y d)%Z
               then Datetime.days_in_month y d else Datetime.day today)
        with (Z.min (Datetime.day today) (Datetime.days_in_month y d)).
      - now rewrite Em.
      - destruct (Z.gtb_spec (Datetime.day today) (Datetime.days_in_month y d)); lia. }
    rewrite E in Hp. exists dt'. repeat split; auto.
    now apply ReadFacts.one_match_parsed.
Qed.

Lemma french_month_name_is_never_read_witness :
  exists dt' : Datetime.date,
    Datetime.year dt' = 2024%Z /\ Datetime.month dt' = 5%Z
    /\ Datetime.day dt' = 4%Z
    /\ parse_dates_from_text (Dateutil.dateparse a_day) "5 mars 2024"
       = (Some (Datetime.isoformat dt'), None).
Proof.
  destruct (proj2 (proj2 (french_month_name_is_never_read a_day "mars" "5" 5 2024
              ltac:(cbn; tauto) ltac:(lia) ltac:(lia) (or_intror eq_refl)))
              ltac:(lia))
    as [dt' [F1 [F2 [F3 [_ E]]]]].
  exists dt'. split; [exact F1|]. split; [exact F2|]. split; [exact F3|exact E].
Defined.

(** ** Two-digit years and English month names *)

Module ShortYearFacts.

Import Dateutil.

(** Day, month, two-digit year with "-", "/" or "." between them. *)
Lemma parse_loop_dmy_sep_short : forall this_year A B C sep a b c la lb,
  number_token A a la -> number_token B b lb -> number_token C c 2 ->
  (la = 1 \/ la = 2)%nat -> (lb = 1 \/ lb = 2)%nat ->
  In sep ["-"; "/"; "."] ->
  parse_loop 6 this_year [A; sep; B; sep; C] 0 ymd_empty
  = Ok {| vals := [a; b; c]; century_specified := false;
          mstridx := None; ystridx := None |}.
Proof.
  intros this_year A B C sep a b c la lb HA HB HC Hla Hlb Hsep.
  ParseFacts.token_facts HA. ParseFacts.token_facts HB. ParseFacts.token_facts HC.
  destruct (ParseFacts.date_sep_facts sep Hsep)
    as [Shms [Scolon [Sspace [Smem Srefl]]]].
  rewrite ParseFacts.parse_loop_step. ParseFacts.tok_simpl. ParseFacts.use_facts.
  unfold parse_numeric_token, find_hms_idx. ParseFacts.tok_simpl. ParseFacts.use_facts.
  assert (E6 : ((la =? 6) = false /\ (la =? 8) = false /\ (la =? 12) = false
                /\ (la =? 14) = false)%nat)
    by (destruct Hla as [-> | ->]; repeat split).
  destruct E6 as [E6 [E8 [E12 E14]]]. rewrite E6, E8, E12, E14. ParseFacts.tok_simpl.
  unfold date_with_sep, append_token. ParseFacts.tok_simpl. ParseFacts.use_facts.
  ParseFacts.tok_simpl.
  destruct Hla as [-> | ->]; destruct Hlb as [-> | ->]; reflexivity.
Qed.

(** Day, month, two-digit year with spaces between them. *)
Lemma parse_loop_dmy_space_short : forall this_year A B C a b c la lb,
  number_token A a la -> number_token B b lb -> number_token C c 2 ->
  (la = 1 \/ la = 2)%nat -> (lb = 1 \/ lb = 2)%nat ->
  (a <= 100)%Z -> (b <= 100)%Z -> (c <= 100)%Z ->
  parse_loop 6 this_year [A; " "; B; " "; C] 0 ymd_empty
  = Ok {| vals := [a; b; c]; century_specified := false;
          mstridx := None; ystridx := None |}.
Proof.
  intros this_year A B C a b c la lb HA HB HC Hla Hlb Ha Hb Hc.
  ParseFacts.token_facts HA. ParseFacts.token_facts HB. ParseFacts.token_facts HC.
  destruct ParseFacts.space_facts as [Shms [Sjump [Smem [Scolon [Sampm Srefl]]]]].
  assert (Ea : (a >? 100)%Z = false) by lia.
  assert (Eb : (b >? 100)%Z = false) by lia.
  assert (Ec : (c >? 100)%Z = false) by lia.
  assert (E6 : ((la =? 6) = false /\ (la =? 8) = false /\ (la =? 12) = false
                /\ (la =? 14) = false)%nat)
    by (destruct Hla as [-> | ->]; repeat split).
  assert (F6 : ((lb =? 6) = false /\ (lb =? 8) = false /\ (lb =? 12) = false
                /\ (lb =? 14) = false)%nat)
    by (destruct Hlb as [-> | ->]; repeat split).
  destruct E6 as [E6 [E8 [E12 E14]]]. destruct F6 as [F6 [F8 [F12 F14]]].
  rewrite ParseFacts.parse_loop_step. ParseFacts.tok_simpl. ParseFacts.use_facts.
  unfold parse_numeric_token, find_hms_idx. ParseFacts.tok_simpl. ParseFacts.use_facts.
  ParseFacts.tok_simpl.
  unfold append_number. ParseFacts.use_facts. cbn [ymd_push]. ParseFacts.tok_simpl.
  rewrite ParseFacts.parse_loop_step. ParseFacts.tok_simpl. ParseFacts.use_facts.
  unfold parse_numeric_token, find_hms_idx. ParseFacts.tok_simpl. ParseFacts.use_facts.
  ParseFacts.tok_simpl.
  unfold append_number. ParseFacts.use_facts. cbn [ymd_push]. ParseFacts.tok_simpl.
  rewrite ParseFacts.parse_loop_step. ParseFacts.tok_simpl. ParseFacts.use_facts.
  unfold parse_numeric_token, find_hms_idx. ParseFacts.tok_simpl. ParseFacts.use_facts.
  ParseFacts.tok_simpl.
  unfold append_number. ParseFacts.use_facts. cbn [ymd_push]. ParseFacts.tok_simpl.
  reflexivity.
Qed.

Local Open Scope Z_scope.

(** Three values without a label: day, month, and a year that
    [convertyear] moves to the century around the current year. *)
Lemma parse_finish_dmy_short : forall today s l a b c,
  split s = l -> List.length l = 5%nat ->
  a <= 31 -> b <= 12 ->
  parse_loop 6 (Datetime.year today) l 0 ymd_empty
  = Ok {| vals := [a; b; c]; century_specified := false;
          mstridx := None; ystridx := None |} ->
  parse today s
  = match Datetime.make_date (convertyear (Datetime.year today) c false) b a with
    | Some dt => Ok dt
    | None => Raise
    end.
Proof.
  intros today s l a b c Hs Hl Ha Hb Hp. unfold parse. rewrite Hs, Hl, Hp.
  cbn [bind]. unfold resolve_ymd.
  cbn [vals century_specified mstridx ystridx List.length is_some Nat.eqb Nat.ltb
       Nat.leb Nat.add andb orb negb nth_val nth].
  assert (E1 : (a >? 31) = false) by lia.
  assert (E2 : (b <=? 12) = true) by lia.
  rewrite E1, E2, orb_true_r. cbn [orb bind option_map].
  reflexivity.
Qed.

(** The year [convertyear] gives to the last two digits of a year within
    fifty years of the current one. *)
Lemma convertyear_window : forall this_year y,
  1 <= this_year -> this_year - 50 <= y < this_year + 50 ->
  convertyear this_year (y mod 100) false = y.
Proof.
  intros ty y Hty Hy. unfold convertyear.
  pose proof (Z.mod_pos_bound y 100 ltac:(lia)) as Hm.
  assert (E : (y mod 100 <? 100) = true) by lia. rewrite E. cbn [negb andb].
  destruct (Z.geb_spec (y mod 100 + ty / 100 * 100) (ty + 50));
    [|destruct (Z.ltb_spec (y mod 100 + ty / 100 * 100) (ty - 50))];
    Z.div_mod_to_equations; lia.
Qed.

(** Day, an English month name, year. *)
Lemma parse_loop_day_month_year : forall this_year A name C a c la mv,
  number_token A a la -> number_token C c 4 ->
  (la = 1 \/ la = 2)%nat ->
  a <= 100 -> 100 < c -> 1 <= mv <= 12 ->
  classify name = Not_a_number -> weekday name = false -> month name = Some mv ->
  hms name = false -> ampm name = false ->
  parse_loop 6 this_year [A; " "; name; " "; C] 0 ymd_empty
  = Ok {| vals := [a; mv; c]; century_specified := true;
          mstridx := Some 1%nat; ystridx := Some 2%nat |}.
Proof.
  intros this_year A name C a c la mv HA HC Hla Ha Hc Hmv
         Nclass Nweek Nmonth Nhms Nampm.
  ParseFacts.token_facts HA. ParseFacts.token_facts HC.
  destruct ParseFacts.space_facts as [Shms [Sjump [Smem [Scolon [Sampm Srefl]]]]].
  destruct ParseFacts.space_word_facts as [Sclass [Sweek Smonth]].
  assert (Ea : (a >? 100) = false) by lia.
  assert (Ec : (c >? 100) = true) by lia.
  assert (Em : (mv >? 100) = false) by lia.
  assert (Ed : mem " " ["-"; "/"] = false) by reflexivity.
  assert (E6 : ((la =? 6) = false /\ (la =? 8) = false /\ (la =? 12) = false
                /\ (la =? 14) = false)%nat)
    by (destruct Hla as [-> | ->]; repeat split).
  destruct E6 as [E6 [E8 [E12 E14]]].
  rewrite ParseFacts.parse_loop_step. ParseFacts.tok_simpl. ParseFacts.use_facts.
  unfold parse_numeric_token, find_hms_idx. ParseFacts.tok_simpl. ParseFacts.use_facts.
  ParseFacts.tok_simpl.
  unfold append_number. ParseFacts.use_facts. cbn [ymd_push]. ParseFacts.tok_simpl.
  rewrite ParseFacts.parse_loop_step. ParseFacts.tok_simpl. ParseFacts.use_facts.
  ParseFacts.tok_simpl.
  unfold month_token, append_number. ParseFacts.use_facts. cbn [ymd_push].
  ParseFacts.tok_simpl. ParseFacts.use_facts. ParseFacts.tok_simpl.
  rewrite ParseFacts.parse_loop_step. ParseFacts.tok_simpl. ParseFacts.use_facts.
  ParseFacts.tok_simpl.
  rewrite ParseFacts.parse_loop_step. ParseFacts.tok_simpl. ParseFacts.use_facts.
  unfold parse_numeric_token, find_hms_idx. ParseFacts.tok_simpl. ParseFacts.use_facts.
  ParseFacts.tok_simpl.
  unfold append_number. ParseFacts.use_facts. cbn [ymd_push]. ParseFacts.tok_simpl.
  reflexivity.
Qed.

(** Three values, month and year labelled. *)
Lemma parse_finish_labelled : forall today s l (dt : Datetime.date),
  split s = l -> List.length l = 5%nat ->
  parse_loop 6 (Datetime.year today) l 0 ymd_empty
  = Ok {| vals := [Datetime.day dt; Datetime.month dt; Datetime.year dt];
          century_specified := true;
          mstridx := Some 1%nat; ystridx := Some 2%nat |} ->
  parse today s = Ok dt.
Proof.
  intros today s l dt Hs Hl Hp. unfold parse. rewrite Hs, Hl, Hp.
  cbn [bind]. unfold resolve_ymd, resolve_from_stridxs.
  cbn [vals century_specified mstridx ystridx List.length is_some Nat.eqb Nat.ltb
       Nat.leb Nat.add Nat.sub andb orb negb nth_val nth bind option_map].
  unfold convertyear. rewrite andb_false_r.
  unfold build_naive. rewrite DateFacts.make_date_of_date. reflexivity.
Qed.

(** What the parser asks of an English month name. *)
Lemma english_month_facts : forall name mv,
  In (name, mv) MONTHS ->
  classify name = Not_a_number /\ weekday name = false /\ month name = Some mv
  /\ hms name = false /\ ampm name = false /\ 1 <= mv <= 12.
Proof.
  intros name mv H. unfold MONTHS in H. cbn [In] in H.
  repeat (destruct H as [H|H];
          [injection H as <- <-; repeat split; try reflexivity; lia|]).
  contradiction.
Qed.

End ShortYearFacts.

Module EnglishFacts.

Import Dateutil.

(** A number, a space, an English month name, a space, a number. *)
Lemma split_day_month_year : forall A name mv C,
  digit_run A = true -> digit_run C = true ->
  In (name, mv) MONTHS ->
  split (A ++ String " " (name ++ String " " C)) = [A; " "; name; " "; C].
Proof.
  intros A name mv C HA HC Hn. unfold split.
  destruct (LexFacts.digit_run_parts _ HA) as [TA HA'].
  destruct (LexFacts.digit_run_parts _ HC) as [TC HC'].
  assert (Hs : plain_sep " " = true) by reflexivity.
  assert (En : drop_nul (name ++ String " " C) = (name ++ String " " C)%string
               /\ (forall fuel, split_loop (S fuel) (name ++ String " " C)
                                = name :: split_loop fuel (String " " C))
               /\ 1 <= String.length name).
  { unfold MONTHS in Hn. cbn [In] in Hn.
    repeat (destruct Hn as [Hn|Hn];
            [injection Hn as <- <-;
             split; [cbn; now rewrite (LexFacts.drop_nul_run C HC')|];
             split; [reflexivity|cbn; lia]|]).
    contradiction. }
  destruct En as [En [Hword Ln]].
  rewrite LexFacts.drop_nul_app, (LexFacts.drop_nul_run A HA'),
    (LexFacts.drop_nul_sep " " _ Hs), En.
  pose proof (LexFacts.length_run A HA) as LA.
  pose proof (LexFacts.length_run C HC) as LC.
  remember (String.length (A ++ String " " (name ++ String " " C))) as fuel eqn:Ef.
  rewrite ReFacts.length_append in Ef. cbn [String.length] in Ef.
  rewrite ReFacts.length_append in Ef. cbn [String.length] in Ef.
  do 5 (destruct fuel as [|fuel]; [lia|]).
  destruct A as [|a A]; [discriminate|].
  destruct C as [|c0 C]; [discriminate|].
  cbn [all_chars] in HA', HC'.
  apply andb_true_iff in HA'. destruct HA' as [Ha HA'].
  apply andb_true_iff in HC'. destruct HC' as [Hc0 HC'].
  cbn [append].
  rewrite LexFacts.split_loop_step, (LexFacts.lex_number a A (String " " _) Ha HA' Hs).
  cbn [fst snd app].
  rewrite LexFacts.split_loop_step, (LexFacts.lex_sep " " _ Hs). cbn [fst snd app].
  rewrite Hword.
  rewrite LexFacts.split_loop_step, (LexFacts.lex_sep " " _ Hs). cbn [fst snd app].
  assert (E : lex_one c0 C = ([String c0 C], EmptyString)).
  { rewrite <- (ReFacts.append_nil_r C) at 1.
    exact (LexFacts.lex_number c0 C EmptyString Hc0 HC' I). }
  rewrite LexFacts.split_loop_step, E. cbn [fst snd app].
  now rewrite LexFacts.split_loop_nil.
Qed.

(** A day, an English month name and a year: the pattern finds the
    whole text. *)
Lemma findall_day_month_year : forall A name mv C la,
  digit_run A = true -> digit_run C = true ->
  String.length A = la -> (la = 1 \/ la = 2) -> String.length C = 4 ->
  In (name, mv) MONTHS ->
  Re.findall true DATE_PATTERN (A ++ String " " (name ++ String " " C))
  = [(A ++ String " " (name ++ String " " C))%string].
Proof.
  intros A name mv C la HA HC La Hla Lc Hn.
  destruct (LexFacts.digit_run_parts _ HA) as [_ HA'].
  destruct (LexFacts.digit_run_parts _ HC) as [_ HC'].
  apply BlurFacts.findall_whole; [exact ShapeFacts.date_pattern_blind|].
  rewrite BlurFacts.blur_app. cbn [blur_string]. rewrite BlurFacts.blur_app.
  cbn [blur_string].
  rewrite (WriteFacts.blur_run A HA'), (WriteFacts.blur_run C HC'), La, Lc.
  unfold MONTHS in Hn. cbn [In] in Hn.
  destruct Hla as [-> | ->];
    repeat (destruct Hn as [Hn|Hn];
            [injection Hn as <- <-; vm_compute; reflexivity|]); contradiction.
Qed.

End EnglishFacts.

(** X23.  A date written day first with a two-digit year is read into
    the hundred years around the current year: for every calendar date
    from fifty years before the current year to forty-nine after it,
    the text made of its day, its month and the last two digits of its
    year gives that date back as publication date.  (The current year
    is the one dateutil's parser info holds.) *)
Theorem two_digit_year_is_read_near_today :
  forall (today dt : Datetime.date) (D M sep : string),
    (Datetime.year today - 50 <= Datetime.year dt < Datetime.year today + 50)%Z ->
    D = Datetime.pad2 (Datetime.day dt) \/ D = plain2 (Datetime.day dt) ->
    M = Datetime.pad2 (Datetime.month dt) \/ M = plain2 (Datetime.month dt) ->
    In sep ["/"; "-"; "."; " "]%string ->
    let text :=
      (D ++ sep ++ M ++ sep ++ Datetime.pad2 (Datetime.year dt mod 100)%Z)%string in
    Re.findall true DATE_PATTERN text = [text]
    /\ Dateutil.convertyear (Datetime.year today) (Datetime.year dt mod 100) false
       = Datetime.year dt
    /\ Dateutil.parse today text = Ok dt
    /\ parse_dates_from_text (Dateutil.dateparse today) text
       = (Some (Datetime.isoformat dt), None).
Proof.
  intros today dt D M sep Hw HD HM Hsep text.
  destruct (DateFacts.date_bounds dt) as [By [Bm Bd]].
  destruct (DateFacts.date_bounds today) as [Bt _].
  pose proof (Z.mod_pos_bound (Datetime.year dt) 100 ltac:(lia)) as Hmod.
  destruct (WriteFacts.two_digits_token (Datetime.day dt) D ltac:(lia) HD)
    as [RD [LD TD]].
  destruct (WriteFacts.two_digits_token (Datetime.month dt) M ltac:(lia) HM)
    as [RM [LM TM]].
  destruct (WriteFacts.two_digits_token (Datetime.year dt mod 100)
              (Datetime.pad2 (Datetime.year dt mod 100)) ltac:(lia)
              (or_introl eq_refl)) as [RY [_ TY]].
  assert (LY : String.length (Datetime.pad2 (Datetime.year dt mod 100)) = 2)
    by reflexivity.
  rewrite LY in TY.
  pose proof (ShortYearFacts.convertyear_window (Datetime.year today)
                (Datetime.year dt) ltac:(lia) Hw) as Ec.
  destruct (ReadFacts.separator_cases sep Hsep) as [c [Es Hc]].
  subst sep. subst text. cbn [append].
  set (Y := Datetime.pad2 (Datetime.year dt mod 100)) in *.
  assert (Hf : Re.findall true DATE_PATTERN (D ++ String c (M ++ String c Y))
               = [(D ++ String c (M ++ String c Y))%string]).
  { apply (ShapeFacts.findall_three D M Y c _ _ _ RD RM RY eq_refl eq_refl LY).
    destruct LD as [-> | ->]; destruct LM as [-> | ->];
      destruct Hc as [->|[->|[->| ->]]]; vm_compute; reflexivity. }
  assert (Hp : Dateutil.parse today (D ++ String c (M ++ String c Y)) = Ok dt).
  { assert (G : forall l,
               Dateutil.split (D ++ String c (M ++ String c Y)) = l ->
               List.length l = 5 ->
               Dateutil.parse_loop 6 (Datetime.year today) l 0 Dateutil.ymd_empty
               = Ok {| Dateutil.vals := [Datetime.day dt; Datetime.month dt;
                                         (Datetime.year dt mod 100)%Z];
                       Dateutil.century_specified := false;
                       Dateutil.mstridx := None; Dateutil.ystridx := None |} ->
               Dateutil.parse today (D ++ String c (M ++ String c Y)) = Ok dt).
    { intros l Hs Hl Hloop.
      rewrite (ShortYearFacts.parse_finish_dmy_short today _ l
                 (Datetime.day dt) (Datetime.month dt) (Datetime.year dt mod 100)%Z
                 Hs Hl ltac:(lia) ltac:(lia) Hloop).
      now rewrite Ec, DateFacts.make_date_of_date. }
    destruct Hc as [->|[->|[->| ->]]].
    - apply (G [D; "/"; M; "/"; Y]%string).
      + now apply (LexFacts.split_three D M Y "/").
      + reflexivity.
      + apply (ShortYearFacts.parse_loop_dmy_sep_short _ D M Y "/" _ _ _ _ _
                 TD TM TY LD LM). cbn; tauto.
    - apply (G [D; "-"; M; "-"; Y]%string).
      + now apply (LexFacts.split_three D M Y "-").
      + reflexivity.
      + apply (ShortYearFacts.parse_loop_dmy_sep_short _ D M Y "-" _ _ _ _ _
                 TD TM TY LD LM). cbn; tauto.
    - apply (G [D; "."; M; "."; Y]%string).
      + now apply LexMore.split_three_dots.
      + reflexivity.
      + apply (ShortYearFacts.parse_loop_dmy_sep_short _ D M Y "." _ _ _ _ _
                 TD TM TY LD LM). cbn; tauto.
    - apply (G [D; " "; M; " "; Y]%string).
      + now apply (LexFacts.split_three D M Y " ").
      + reflexivity.
      + apply (ShortYearFacts.parse_loop_dmy_space_short _ D M Y _ _ _ _ _
                 TD TM TY LD LM); lia. }
  split; [exact Hf|]. split; [exact Ec|]. split; [exact Hp|].
  now apply ReadFacts.one_match_parsed.
Qed.

Lemma two_digit_year_is_read_near_today_witness :
  parse_dates_from_text (Dateutil.dateparse a_day) "15/03/76"
  = (Some "1976-03-15", None)
  /\ parse_dates_from_text (Dateutil.dateparse a_day) "15/03/75"
     = (Some "2075-03-15", None).
Proof.
  split.
  - exact (proj2 (proj2 (proj2 (two_digit_year_is_read_near_today a_day
             (Datetime.mkdate 1976 3 15 eq_refl) "15" "03" "/"
             ltac:(cbn; lia) (or_introl eq_refl) (or_introl eq_refl)
             (or_introl eq_refl))))).
  - exact (proj2 (proj2 (proj2 (two_digit_year_is_read_near_today a_day
             (Datetime.mkdate 2075 3 15 eq_refl) "15" "03" "/"
             ltac:(cbn; lia) (or_introl eq_refl) (or_introl eq_refl)
             (or_introl eq_refl))))).
Defined.

(** X24.  A date written with an English month name, in full or
    abbreviated as dateutil knows it, is read as written: day, name,
    four-digit year from 1000 on give the date back as publication
    date, for every day of the calendar and whatever the current day. *)
Theorem english_month_name_is_read :
  forall (today dt : Datetime.date) (name D : string),
    (1000 <= Datetime.year dt)%Z ->
    In (name, Datetime.month dt) Dateutil.MONTHS ->
    D = Datetime.pad2 (Datetime.day dt) \/ D = plain2 (Datetime.day dt) ->
    let text := (D ++ " " ++ name ++ " " ++ Datetime.pad4 (Datetime.year dt))%string in
    Re.findall true DATE_PATTERN text = [text]
    /\ Dateutil.parse today text = Ok dt
    /\ parse_dates_from_text (Dateutil.dateparse today) text
       = (Some (Datetime.isoformat dt), None).
Proof.
  intros today dt name D Hy Hn HD text.
  destruct (DateFacts.date_bounds dt) as [By [Bm Bd]].
  destruct (WriteFacts.two_digits_token (Datetime.day dt) D ltac:(lia) HD)
    as [RD [LD TD]].
  destruct (WriteFacts.four_digits_token (Datetime.year dt) ltac:(lia))
    as [RY [LY TY]].
  subst text. cbn [append].
  set (Y := Datetime.pad4 (Datetime.year dt)) in *.
  pose proof (EnglishFacts.findall_day_month_year D name _ Y _ RD RY eq_refl LD LY Hn)
    as Hf.
  destruct (ShortYearFacts.english_month_facts name _ Hn)
    as [N1 [N2 [N3 [N4 [N5 N6]]]]].
  assert (Hp : Dateutil.parse today (D ++ String " " (name ++ String " " Y)) = Ok dt).
  { apply (ShortYearFacts.parse_finish_labelled today _ [D; " "; name; " "; Y]%string).
    - now apply (EnglishFacts.split_day_month_year D name (Datetime.month dt) Y).
    - reflexivity.
    - apply (ShortYearFacts.parse_loop_day_month_year _ D name Y _ _ _ _ TD TY LD);
        auto; lia. }
  split; [exact Hf|]. split; [exact Hp|].
  now apply ReadFacts.one_match_parsed.
Qed.

Lemma english_month_name_is_read_witness :
  parse_dates_from_text (Dateutil.dateparse a_day) "15 march 2024"
  = (Some "2024-03-15", None).
Proof.
  exact (proj2 (proj2 (english_month_name_is_read a_day
           (Datetime.mkdate 2024 3 15 eq_refl) "march" "15"
           ltac:(discriminate) ltac:(cbn; tauto) (or_introl eq_refl)))).
Defined.
